(** * lento: retrieval-augmented chat over a fixed corpus

    A shallow embedding of the Go sources under [app/]: the chat handler
    [chatApiHandler], the corpus loader [Init], the retrieval pipeline
    [RunRAG] with [findSimilar], [calcEmbeddings] and [rerank].

    Conventions of the embedding.
    - Go's [int] is the 64-bit integer type; it is modelled by [Z] (the
      arithmetic of the program never leaves the 64-bit range: lengths and
      loop counters only).
    - Go's [float32] is IEEE-754 binary32, modelled bit-exactly by the
      standard library's [spec_float] at precision 24 and exponent bound 128;
      [math.Sqrt] works on binary64 (precision 53, bound 1024).  Every
      product and every sum is rounded on its own, as on amd64, where the
      compiler fuses no multiplication with an addition.
    - Go's [string] is a byte string, modelled by [string].
    - A Go function returning [(T, error)] returns a [result T].
    - Remote endpoints and the file system are a [World]: what each call
      answers.  Every call the program makes is recorded, in order, in a
      trace of [Event]s; a run either returns or panics.
    - Output to the process's standard output ([fmt.Printf], [fmt.Println])
      is not recorded. *)

From Stdlib Require Import ZArith List String Ascii Bool Lia.
From Stdlib Require Import Sorting.Permutation Sorting.Sorted.
From Stdlib Require Import Floats.SpecFloat.
From stdpp Require Import base gmap strings list sorting pretty.

Open Scope string_scope.
Open Scope list_scope.
Open Scope Z_scope.

(** ** Errors, results, traces and panics *)

(** An [error] value.  [io_EOF] and [fs_ErrNotExist] are the two errors the
    program tells apart ([err != io.EOF], [os.IsNotExist(err)]); every other
    error only carries its text. *)
Inductive error : Type :=
| io_EOF
| fs_ErrNotExist (msg : string)
| errors_New (msg : string).

(** [err.Error()] *)
Definition Error (e : error) : string :=
  match e with
  | io_EOF => "EOF"
  | fs_ErrNotExist msg => msg
  | errors_New msg => msg
  end.

Definition is_EOF (e : error) : bool :=
  match e with io_EOF => true | _ => false end.

(** [os.IsNotExist(err)] *)
Definition os_IsNotExist (e : error) : bool :=
  match e with fs_ErrNotExist _ => true | _ => false end.

(** The pair [(value, err)] of a fallible Go function. *)
Inductive result (A : Type) : Type :=
| Ok (a : A)
| Err (e : error).
Arguments Ok {A} a.
Arguments Err {A} e.

Definition is_Ok {A} (r : result A) : bool :=
  match r with Ok _ => true | Err _ => false end.

(** How a run ends: it returns a value or it panics. *)
Inductive exit (A : Type) : Type :=
| Return (a : A)
| Panic (msg : string).
Arguments Return {A} a.
Arguments Panic {A} msg.

(** ** IEEE-754 binary32 and binary64 *)

Module f32.

Definition prec : Z := 24.
Definition emax : Z := 128.

Definition t : Type := spec_float.

Definition zero : t := S754_zero false.
Definition add : t -> t -> t := SFadd prec emax.
Definition mul : t -> t -> t := SFmul prec emax.
Definition div : t -> t -> t := SFdiv prec emax.
Definition ltb : t -> t -> bool := SFltb.
Definition leb : t -> t -> bool := SFleb.

(** The binary32 number nearest to the integer [z]. *)
Definition of_Z (z : Z) : t := binary_normalize prec emax z 0 false.

(** The binary32 number nearest to [num / den]. *)
Definition of_ratio (num den : Z) : t := div (of_Z num) (of_Z den).

Definition is_nan (x : t) : bool :=
  match x with S754_nan => true | _ => false end.

End f32.

Module f64.

Definition prec : Z := 53.
Definition emax : Z := 1024.

Definition t : Type := spec_float.

(** [float64(x)] for a [float32] [x]: exact. *)
Definition of_f32 (x : f32.t) : t :=
  match x with
  | S754_finite s m e => binary_round prec emax s m e
  | _ => x
  end.

(** [float32(x)] for a [float64] [x]: rounds to nearest, ties to even. *)
Definition to_f32 (x : t) : f32.t :=
  match x with
  | S754_finite s m e => binary_round f32.prec f32.emax s m e
  | _ => x
  end.

(** [math.Sqrt] *)
Definition Sqrt : t -> t := SFsqrt prec emax.

End f64.

Abbreviation float32 := f32.t.

(** ** Slices *)

(** [len(l)] *)
Definition len {A} (l : list A) : Z := Z.of_nat (length l).

(** [l[i]]: [None] where Go panics with an index out of range. *)
Definition at_index {A} (l : list A) (i : Z) : option A :=
  if (0 <=? i) && (i <? len l) then l !! Z.to_nat i else None.

(** ** The packages [strings], [strconv] and [bufio], as far as the program
    uses them *)

Definition newline : string := String "010" EmptyString.
Definition carriage_return : ascii := "013"%char.

(** [strings.Cut(s, sep)] for a one-byte separator: the text before the first
    [sep] and the text after it, when [sep] occurs in [s]. *)
Fixpoint strings_Cut (s : string) (sep : ascii) : option (string * string) :=
  match s with
  | EmptyString => None
  | String c rest =>
      if Ascii.eqb c sep then Some (EmptyString, rest)
      else match strings_Cut rest sep with
           | Some (before, after) => Some (String c before, after)
           | None => None
           end
  end.

(** [strings.SplitN(s, sep, 2)] for a one-byte separator: at most two
    pieces, the second holding everything after the first separator. *)
Definition strings_SplitN_2 (s : string) (sep : ascii) : list string :=
  match strings_Cut s sep with
  | Some (before, after) => [before; after]
  | None => [s]
  end.

(** [strings.Split(s, sep)] for a one-byte separator: the pieces between
    the separators, [length] = number of separators + 1. *)
Fixpoint strings_Split (s : string) (sep : ascii) : list string :=
  match s with
  | EmptyString => [EmptyString]
  | String c rest =>
      if Ascii.eqb c sep then EmptyString :: strings_Split rest sep
      else match strings_Split rest sep with
           | piece :: pieces => String c piece :: pieces
           | [] => [String c EmptyString]
           end
  end.

(** [strings.HasSuffix] and [strings.TrimSuffix] *)
Definition strings_HasSuffix (s suffix : string) : bool :=
  let n := String.length s in
  let k := String.length suffix in
  (k <=? n)%nat && String.eqb (substring (n - k) k s) suffix.

Definition strings_TrimSuffix (s suffix : string) : string :=
  if strings_HasSuffix s suffix
  then substring 0 (String.length s - String.length suffix) s
  else s.

(** [strconv.Atoi]: an optional sign, then one or more decimal digits, the
    value within the range of a 64-bit [int].  The texts of the two errors
    are abbreviated. *)
Definition digit_value (c : ascii) : option Z :=
  let n := Z.of_N (N_of_ascii c) in
  if (48 <=? n) && (n <=? 57) then Some (n - 48) else None.

Fixpoint parse_digits (s : string) (acc : Z) : option Z :=
  match s with
  | EmptyString => Some acc
  | String c rest =>
      match digit_value c with
      | Some d => parse_digits rest (10 * acc + d)
      | None => None
      end
  end.

Definition ErrSyntax : error := errors_New "strconv.Atoi: invalid syntax".
Definition ErrRange : error := errors_New "strconv.Atoi: value out of range".

Definition strconv_Atoi (s : string) : result Z :=
  let '(neg, digits) :=
    match s with
    | String "-" rest => (true, rest)
    | String "+" rest => (false, rest)
    | _ => (false, s)
    end in
  match digits with
  | EmptyString => Err ErrSyntax
  | _ =>
      match parse_digits digits 0 with
      | None => Err ErrSyntax
      | Some n =>
          let v := if neg then - n else n in
          if (- 2 ^ 63 <=? v) && (v <=? 2 ^ 63 - 1) then Ok v else Err ErrRange
      end
  end.

(** [fmt.Sprintf("%d", n)] *)
Definition fmt_d (n : Z) : string := pretty n.

(** The lines a [bufio.Scanner] with the default split function
    ([bufio.ScanLines]) and the default buffer delivers: the text is cut at
    each newline, one trailing carriage return is dropped from each line, a
    final line without newline is delivered when it is not empty, and
    scanning stops (with [bufio.ErrTooLong], which the program never
    inspects) at the first line that does not fit the 64 KiB buffer. *)
Definition MaxScanTokenSize : Z := 64 * 1024.

Fixpoint drop_final_empty (pieces : list string) : list string :=
  match pieces with
  | [] => []
  | [EmptyString] => []
  | p :: rest => p :: drop_final_empty rest
  end.

Fixpoint take_while_fits (pieces : list string) : list string :=
  match pieces with
  | [] => []
  | p :: rest =>
      if Z.of_nat (String.length p) <? MaxScanTokenSize
      then p :: take_while_fits rest
      else []
  end.

Definition dropCR (line : string) : string :=
  if strings_HasSuffix line (String carriage_return EmptyString)
  then substring 0 (String.length line - 1) line
  else line.

Definition scan_lines (text : string) : list string :=
  map dropCR (take_while_fits (drop_final_empty (strings_Split text "010"))).

(** ** The types of the [go-openai] client and of the rerank endpoint *)

Module openai.

(** [openai.Embedding]: the vector (the field [Embedding] of the Go struct,
    here [Vector]) and the index the endpoint reports for it. *)
Record Embedding : Type := {
  Object : string;
  Vector : list float32;
  Index : Z;
}.

Definition ErrVectorLengthMismatch : error :=
  errors_New "vector length mismatch".

(** [e.DotProduct(&other)]: the products are summed from the left, starting
    from [+0], each product and each sum rounded to binary32. *)
Definition dot_sum (xs ys : list float32) : float32 :=
  fold_left (fun dotProduct xy => f32.add dotProduct (f32.mul xy.1 xy.2))
            (combine xs ys) f32.zero.

Definition DotProduct (e other : Embedding) : result float32 :=
  if negb (length (Vector e) =? length (Vector other))%nat
  then Err ErrVectorLengthMismatch
  else Ok (dot_sum (Vector e) (Vector other)).

Definition ChatMessageRoleSystem : string := "system".
Definition ChatMessageRoleUser : string := "user".
Definition ChatMessageRoleAssistant : string := "assistant".

Record ChatCompletionMessage : Type := {
  Role : string;
  Content : string;
}.

(** [openai.ChatCompletionRequest].  [Model], [Messages] and [Stream] are
    the fields the program writes; [MaxTokens] and [Temperature] stand with
    their own names, and [Others] holds all the remaining fields of the
    struct, whose list depends on the version of the client. *)
Record ChatCompletionRequest (OtherFields : Type) : Type := {
  Model : string;
  Messages : list ChatCompletionMessage;
  MaxTokens : Z;
  Temperature : float32;
  Stream : bool;
  Others : OtherFields;
}.
Arguments Model {OtherFields} _.
Arguments Messages {OtherFields} _.
Arguments MaxTokens {OtherFields} _.
Arguments Temperature {OtherFields} _.
Arguments Stream {OtherFields} _.
Arguments Others {OtherFields} _.

Record ChatCompletionChoice : Type := {
  Message : ChatCompletionMessage;
}.

Record ChatCompletionResponse : Type := {
  Choices : list ChatCompletionChoice;
}.

(** A [*openai.ChatCompletionStream]: [RecvRaw] hands out the [frames] one
    by one and then fails with [final], which is [io.EOF] when the upstream
    ended its stream. *)
Record ChatCompletionStream : Type := {
  frames : list string;
  final : error;
}.

End openai.

Record RerankRequest : Type := {
  Model : string;
  Query : string;
  Documents : list string;
  TopN : Z;
}.

Record RerankResult : Type := {
  Index : Z;
  RelevanceScore : float32;
}.

Record RerankResponse : Type := {
  Results : list RerankResult;
}.

(** What [http.DefaultClient.Do] hands back for the rerank request: the
    status, and what reading the body and [json.Unmarshal] make of it. *)
Record HttpResponse : Type := {
  StatusCode : Z;
  Status : string;
  Body : result RerankResponse;
}.

Definition http_StatusOK : Z := 200.
Definition http_StatusBadRequest : Z := 400.
Definition http_StatusInternalServerError : Z := 500.

(** ** Configuration and corpus *)

Record Config : Type := {
  Port : Z;
  LlmBaseUrl : string;
  LlmToken : string;
  EmbBaseUrl : string;
  EmbToken : string;
  ModelWithoutThinking : string;
  ModelEmb : string;
  ModelRerank : string;
  TopEmb : Z;
  TopRerank : Z;
  SummaryFile : string;
  MarkdownDir : string;
  Topic : string;
}.

Record Document : Type := {
  DocId : Z;
  Title : string;
  Content : string;
  Summary : string;
}.

(** The package-level variables [allDocIds], [allDocuments] and
    [allEmbeddings]. *)
Record Globals : Type := {
  allDocIds : gmap Z Z;
  allDocuments : list Document;
  allEmbeddings : list openai.Embedding;
}.

(** The state of a freshly started process: all three are nil. *)
Definition initial_globals : Globals :=
  {| allDocIds := ∅; allDocuments := []; allEmbeddings := [] |}.

Record Score : Type := {
  Score_Index : Z;
  Value : float32;
}.

(** ** The program *)

Section Lento.

(** The fields of [openai.ChatCompletionRequest] beyond those named in
    [openai.ChatCompletionRequest] above. *)
Context {OtherFields : Type}.

Abbreviation Request := (openai.ChatCompletionRequest OtherFields).

(** The request of [CreateEmbeddings]. *)
Record EmbeddingRequestStrings : Type := {
  er_BaseURL : string;
  er_Token : string;
  Input : list string;
  er_Model : string;
}.

(** What the program does to the outside, in the order it does it. *)
Inductive Event : Type :=
| EvReadFile (path : string)
| EvOpen (path : string)
| EvCreateEmbeddings (req : EmbeddingRequestStrings)
| EvPostRerank (url : string) (authorization : string) (req : RerankRequest)
| EvCreateChatCompletion (timeout_seconds : Z) (req : Request)
| EvCreateChatCompletionStream (timeout_seconds : Z) (req : Request)
| EvRecvRaw
| EvJSON (code : Z) (error_text : string)
| EvSetHeader (key value : string)
| EvWrite (bytes : string).

(** What the outside answers.  A run of [chatApiHandler] or of [RunRAG]
    calls each endpoint at most once, and [Init] reads each file it names
    once per line naming it, so a function of the request is all a run can
    observe. *)
Record World : Type := {
  os_ReadFile : string -> result string;
  os_Open : string -> result string;
  CreateEmbeddings : EmbeddingRequestStrings -> result (list openai.Embedding);
  http_Do : RerankRequest -> result HttpResponse;
  CreateChatCompletion : Request -> result openai.ChatCompletionResponse;
  CreateChatCompletionStream : Request -> result openai.ChatCompletionStream;
}.

(** A run: the trace of its events, and how it ended. *)
Definition M (A : Type) : Type := (list Event * exit A)%type.

Definition ret {A} (a : A) : M A := ([], Return a).

Definition bind {A B} (m : M A) (k : A -> M B) : M B :=
  match m with
  | (tr, Return a) => let '(tr', b) := k a in (tr ++ tr', b)
  | (tr, Panic msg) => (tr, Panic msg)
  end.

Definition emit (ev : Event) : M unit := ([ev], Return tt).

Definition panic {A} (msg : string) : M A := ([], Panic msg).

Definition trace {A} (m : M A) : list Event := m.1.
Definition outcome {A} (m : M A) : exit A := m.2.

Notation "x <- m ;; k" := (bind m (fun x => k))
  (at level 100, m at next level, right associativity).
Notation "m ;;; k" := (bind m (fun _ => k))
  (at level 100, right associativity).

(** [l[i]], panicking out of range. *)
Definition index {A} (l : list A) (i : Z) : M A :=
  match at_index l i with
  | Some a => ret a
  | None => panic "runtime error: index out of range"
  end.

Variable cfg : Config.
Variable world : World.

(** [slices.SortFunc], of Go's standard library: sorts in place, with
    whatever order it likes among elements that [cmp] does not tell apart. *)
Variable slices_SortFunc : (Score -> Score -> Z) -> list Score -> list Score.

(** *** [calcEmbeddings] *)

Definition calcEmbeddings (input : list string) : M (result (list openai.Embedding)) :=
  if len input =? 0 then ret (Err (errors_New "input is empty")) else
  let req := {| er_BaseURL := EmbBaseUrl cfg; er_Token := EmbToken cfg;
                Input := input; er_Model := ModelEmb cfg |} in
  emit (EvCreateEmbeddings req) ;;;
  match CreateEmbeddings world req with
  | Err err => ret (Err err)
  | Ok response_Data =>
      if negb (len response_Data =? len input)
      then ret (Err (errors_New "embedding length mismatch"))
      else ret (Ok response_Data)
  end.

(** *** [findSimilar] *)

(** The comparison function handed to [slices.SortFunc]. *)
Definition cmpScore (a b : Score) : Z :=
  if f32.ltb (Value b) (Value a) then -1
  else if f32.ltb (Value a) (Value b) then 1
  else 0.

(** [float32(math.Sqrt(float64(x)))] *)
Definition norm_of (dot : float32) : float32 :=
  f64.to_f32 (f64.Sqrt (f64.of_f32 dot)).

(** The loop filling [scores], from the position [i] on; it returns at the
    first error. *)
Fixpoint findSimilar_scores (emb : openai.Embedding) (normA : float32)
    (i : Z) (embeddings : list openai.Embedding) : result (list Score) :=
  match embeddings with
  | [] => Ok []
  | v :: rest =>
      match openai.DotProduct v v with
      | Err err => Err err
      | Ok dotB =>
          if f32.leb dotB f32.zero
          then Err (errors_New ("metric embedding " +:+ fmt_d i +:+ " is zero"))
          else
            let normB := norm_of dotB in
            match openai.DotProduct emb v with
            | Err err => Err err
            | Ok dot =>
                let score := {| Score_Index := openai.Index v;
                                Value := f32.div (f32.div dot normA) normB |} in
                match findSimilar_scores emb normA (i + 1) rest with
                | Err err => Err err
                | Ok scores => Ok (score :: scores)
                end
            end
      end
  end.

(** The loop filling [res], from the position [i] on, [n] positions to go. *)
Fixpoint findSimilar_res (scores : list Score) (i : Z) (n : nat) : M (list Z) :=
  match n with
  | O => ret []
  | S n' =>
      s <- index scores i ;;
      rest <- findSimilar_res scores (i + 1) n' ;;
      ret (Score_Index s :: rest)
  end.

Definition findSimilar (query : string) (embeddings : list openai.Embedding)
    (topN : Z) : M (result (list Z)) :=
  let topN := if len embeddings <? topN then len embeddings else topN in
  r <- calcEmbeddings [query] ;;
  match r with
  | Err err => ret (Err err)
  | Ok embs =>
      emb <- index embs 0 ;;
      match openai.DotProduct emb emb with
      | Err err => ret (Err err)
      | Ok dotA =>
          if f32.leb dotA f32.zero
          then ret (Err (errors_New "embedding is zero"))
          else
            let normA := norm_of dotA in
            match findSimilar_scores emb normA 0 embeddings with
            | Err err => ret (Err err)
            | Ok scores =>
                let scores := slices_SortFunc cmpScore scores in
                if topN <? 0
                then panic "runtime error: makeslice: len out of range"
                else
                  res <- findSimilar_res scores 0 (Z.to_nat topN) ;;
                  ret (Ok res)
            end
      end
  end.

(** *** [rerank] *)

(** [json.Marshal] of a [RerankRequest] cannot fail; an error of
    [http.NewRequest] (an address that does not parse) is returned like an
    error of the call itself and is part of [http_Do]'s answer. *)
Definition rerank (query : string) (documents : list string) (topN : Z)
    : M (result RerankResponse) :=
  let req := {| Model := ModelRerank cfg; Query := query;
                Documents := documents; TopN := topN |} in
  emit (EvPostRerank (EmbBaseUrl cfg +:+ "/rerank") ("Bearer " +:+ EmbToken cfg) req) ;;;
  match http_Do world req with
  | Err err => ret (Err err)
  | Ok resp =>
      if negb (StatusCode resp =? http_StatusOK)
      then ret (Err (errors_New (Status resp)))
      else match Body resp with
           | Err err => ret (Err err)
           | Ok msg => ret (Ok msg)
           end
  end.

(** *** [RunRAG] *)

(** [for _, idx := range resEmb]: the ids and summaries of the documents at
    the positions [resEmb]. *)
Fixpoint RunRAG_candidates (allDocuments : list Document) (resEmb : list Z)
    : M (list Z * list string) :=
  match resEmb with
  | [] => ret ([], [])
  | idx :: rest =>
      doc <- index allDocuments idx ;;
      r <- RunRAG_candidates allDocuments rest ;;
      ret (DocId doc :: r.1, Summary doc :: r.2)
  end.

(** [for _, v := range resRerank.Results] *)
Fixpoint RunRAG_reranked (docIds : list Z) (results : list RerankResult)
    : M (list Z) :=
  match results with
  | [] => ret []
  | v :: rest =>
      docId <- index docIds (Index v) ;;
      r <- RunRAG_reranked docIds rest ;;
      ret (docId :: r)
  end.

(** [allDocIds[docId]]: a missing key reads as zero. *)
Definition map_get (m : gmap Z Z) (k : Z) : Z :=
  match m !! k with Some v => v | None => 0 end.

(** [for i, docId := range docIdsRerank], appending to [result]. *)
Fixpoint RunRAG_format (g : Globals) (i : Z) (docIdsRerank : list Z)
    (result : string) : M string :=
  match docIdsRerank with
  | [] => ret result
  | docId :: rest =>
      let idx := map_get (allDocIds g) docId in
      doc <- index (allDocuments g) idx ;;
      let result := result +:+ "第" +:+ fmt_d (i + 1) +:+ "篇文档" in
      let result :=
        if 0 <? Z.of_nat (String.length (Title doc))
        then result +:+ "，标题为「" +:+ Title doc +:+ "」"
        else result in
      let result := result +:+ "：" +:+ newline +:+ newline
                           +:+ Content doc +:+ newline +:+ newline in
      RunRAG_format g (i + 1) rest result
  end.

Definition RunRAG (g : Globals) (question : string) : M (result string) :=
  r <- findSimilar question (allEmbeddings g) (TopEmb cfg) ;;
  match r with
  | Err err => ret (Err err)
  | Ok resEmb =>
      c <- RunRAG_candidates (allDocuments g) resEmb ;;
      let '(docIds, summaries) := c in
      r <- rerank question summaries (TopRerank cfg) ;;
      match r with
      | Err err => ret (Err err)
      | Ok resRerank =>
          docIdsRerank <- RunRAG_reranked docIds (Results resRerank) ;;
          let result := "检索到以下" +:+ fmt_d (len docIdsRerank) +:+ "篇文档："
                          +:+ newline +:+ newline in
          result <- RunRAG_format g 0 docIdsRerank result ;;
          ret (Ok result)
      end
  end.

(** *** [Init] *)

Definition title_suffixes : list string :=
  [".pdf"; ".doc"; ".docx"; ".xls"; ".xlsx"; ".ppt"; ".pptx"].

(** The loop over the lines of [files.txt]. *)
Fixpoint Init_titles (lines : list string) (titles : gmap Z string)
    : gmap Z string :=
  match lines with
  | [] => titles
  | line :: rest =>
      match strings_SplitN_2 line ":" with
      | [s0; s1] =>
          match strconv_Atoi s0 with
          | Ok v =>
              let title := fold_left strings_TrimSuffix title_suffixes s1 in
              Init_titles rest (<[v := title]> titles)
          | Err _ => Init_titles rest titles
          end
      | _ => Init_titles rest titles
      end
  end.

(** The state of the loop over the summary file. *)
Record ScanState : Type := {
  idx : Z;
  globals : Globals;
  summaries : list string;
}.

(** The loop over the lines of the summary file: [inl err] when the body
    returns [err], [inr] the final state when the scanner has no more
    lines.  The state reached so far stays in the package-level variables
    in both cases. *)
Fixpoint Init_scan (titles : gmap Z string) (lines : list string)
    (st : ScanState) : M (option error * ScanState) :=
  match lines with
  | [] => ret (None, st)
  | line :: rest =>
      match strings_SplitN_2 line ":" with
      | [s0; s1] =>
          match strconv_Atoi s0 with
          | Err err => ret (Some err, st)
          | Ok docId =>
              let summary := s1 in
              let path := MarkdownDir cfg +:+ "/" +:+ fmt_d docId +:+ ".md" in
              emit (EvReadFile path) ;;;
              match os_ReadFile world path with
              | Err err => ret (Some err, st)
              | Ok content =>
                  let g := globals st in
                  let doc := {| DocId := docId;
                                Title := match titles !! docId with
                                         | Some title => title
                                         | None => EmptyString
                                         end;
                                Content := content;
                                Summary := summary |} in
                  let g := {| allDocIds := <[docId := idx st]> (allDocIds g);
                              allDocuments := allDocuments g ++ [doc];
                              allEmbeddings := allEmbeddings g |} in
                  Init_scan titles rest
                    {| idx := idx st + 1; globals := g;
                       summaries := summaries st ++ [summary] |}
              end
          end
      | _ => Init_scan titles rest st
      end
  end.

(** How the loop goes on over [lines] from where an earlier stretch of
    lines left it. *)
Definition Init_scan_resume (titles : gmap Z string) (lines : list string)
    (r : option error * ScanState) : M (option error * ScanState) :=
  match r with
  | (None, st) => Init_scan titles lines st
  | (Some err, st) => ret (Some err, st)
  end.

(** [Init], run on the package-level variables [g]: the error it returns
    ([None] for [nil]) and the variables it leaves. *)
Definition Init (g : Globals) : M (option error * Globals) :=
  let files_path := MarkdownDir cfg +:+ "/files.txt" in
  emit (EvReadFile files_path) ;;;
  let titles_or_err :=
    match os_ReadFile world files_path with
    | Ok files => Ok (Init_titles (strings_Split files "010") ∅)
    | Err err => if negb (os_IsNotExist err) then Err err else Ok ∅
    end in
  match titles_or_err with
  | Err err => ret (Some err, g)
  | Ok titles =>
      emit (EvOpen (SummaryFile cfg)) ;;;
      match os_Open world (SummaryFile cfg) with
      | Err err => ret (Some err, g)
      | Ok file =>
          let g := {| allDocIds := ∅; allDocuments := allDocuments g;
                      allEmbeddings := allEmbeddings g |} in
          r <- Init_scan titles (scan_lines file)
                 {| idx := 0; globals := g; summaries := [] |} ;;
          match r with
          | (Some err, st) => ret (Some err, globals st)
          | (None, st) =>
              e <- calcEmbeddings (summaries st) ;;
              match e with
              | Err err => ret (Some err, globals st)
              | Ok embs =>
                  ret (None, {| allDocIds := allDocIds (globals st);
                                allDocuments := allDocuments (globals st);
                                allEmbeddings := embs |})
              end
          end
      end
  end.

(** *** [chatApiHandler] *)

(** Assignments to the three fields of [request] the handler writes. *)
Definition set_Model (model : string) (request : Request) : Request :=
  {| openai.Model := model;
     openai.Messages := openai.Messages request;
     openai.MaxTokens := openai.MaxTokens request;
     openai.Temperature := openai.Temperature request;
     openai.Stream := openai.Stream request;
     openai.Others := openai.Others request |}.

Definition set_Stream (stream : bool) (request : Request) : Request :=
  {| openai.Model := openai.Model request;
     openai.Messages := openai.Messages request;
     openai.MaxTokens := openai.MaxTokens request;
     openai.Temperature := openai.Temperature request;
     openai.Stream := stream;
     openai.Others := openai.Others request |}.

Definition set_Messages (messages : list openai.ChatCompletionMessage)
    (request : Request) : Request :=
  {| openai.Model := openai.Model request;
     openai.Messages := messages;
     openai.MaxTokens := openai.MaxTokens request;
     openai.Temperature := openai.Temperature request;
     openai.Stream := openai.Stream request;
     openai.Others := openai.Others request |}.

(** [for i, msg := range request.Messages], appending to [chatHistory]. *)
Fixpoint chatHistory_loop (i : Z) (messages : list openai.ChatCompletionMessage)
    (chatHistory : string) : string :=
  match messages with
  | [] => chatHistory
  | msg :: rest =>
      if String.eqb (openai.Role msg) openai.ChatMessageRoleSystem
      then chatHistory_loop (i + 1) rest chatHistory
      else chatHistory_loop (i + 1) rest
             (chatHistory +:+ fmt_d i +:+ ". [role=" +:+ openai.Role msg +:+ "] "
                +:+ openai.Content msg +:+ newline +:+ newline)
  end.

Definition summarize_instruction : string :=
  "请根据以下提供的聊天记录历史，总结出一条用户的原始问题。".

(** [fmt.Sprintf] of the final prompt. *)
Definition answer_prompt (question result : string) : string :=
  "请根据以下检索到的信息，回答用户的原始问题：" +:+ question
    +:+ newline +:+ newline +:+ result.

(** [c.JSON(code, gin.H{"error": err.Error()})] *)
Definition c_JSON (code : Z) (err : error) : M unit :=
  emit (EvJSON code (Error err)).

(** [c.Stream(step)] with the step function of the handler: gin calls the
    step until it returns [false] (the client going away meanwhile is not
    modelled).  The step asks the upstream for a frame: a frame is written
    out between ["data: "] and a blank line and the step goes on; an error
    ends the stepping, after an error response when it is not [io.EOF]. *)
Fixpoint c_Stream (frames : list string) (final : error) : M unit :=
  emit EvRecvRaw ;;;
  match frames with
  | buf :: rest =>
      emit (EvWrite "data: ") ;;;
      emit (EvWrite buf) ;;;
      emit (EvWrite (newline +:+ newline)) ;;;
      c_Stream rest final
  | [] =>
      if negb (is_EOF final)
      then c_JSON http_StatusInternalServerError final
      else ret tt
  end.

Definition done_frame : string := "data: [DONE]" +:+ newline +:+ newline.

(** The handler, on what [c.ShouldBindJSON] made of the request body. *)
Definition chatApiHandler (g : Globals) (bound : result Request) : M unit :=
  match bound with
  | Err err => c_JSON http_StatusBadRequest err
  | Ok request =>
      first <- index (openai.Messages request) 0 ;;
      let systemPrompt :=
        if String.eqb (openai.Role first) openai.ChatMessageRoleSystem
        then openai.Content first else EmptyString in
      let model := openai.Model request in
      let request := set_Model (ModelWithoutThinking cfg) request in
      let request := set_Stream false request in
      let chatHistory := chatHistory_loop 0 (openai.Messages request) EmptyString in
      let request :=
        set_Messages
          [ {| openai.Role := openai.ChatMessageRoleSystem;
               openai.Content := summarize_instruction |};
            {| openai.Role := openai.ChatMessageRoleUser;
               openai.Content := chatHistory |} ] request in
      emit (EvCreateChatCompletion 60 request) ;;;
      match CreateChatCompletion world request with
      | Err err => c_JSON http_StatusInternalServerError err
      | Ok response =>
          choice <- index (openai.Choices response) 0 ;;
          let question := openai.Content (openai.Message choice) in
          r <- RunRAG g question ;;
          match r with
          | Err err => c_JSON http_StatusInternalServerError err
          | Ok result =>
              let request := set_Model model request in
              let request := set_Stream true request in
              let request :=
                set_Messages
                  [ {| openai.Role := openai.ChatMessageRoleSystem;
                       openai.Content := systemPrompt |};
                    {| openai.Role := openai.ChatMessageRoleUser;
                       openai.Content := answer_prompt question result |} ]
                  request in
              emit (EvCreateChatCompletionStream 300 request) ;;;
              match CreateChatCompletionStream world request with
              | Err err => c_JSON http_StatusInternalServerError err
              | Ok streamResponse =>
                  emit (EvSetHeader "Content-Type" "text/event-stream") ;;;
                  emit (EvSetHeader "Cache-Control" "no-cache") ;;;
                  emit (EvSetHeader "Connection" "keep-alive") ;;;
                  c_Stream (openai.frames streamResponse)
                           (openai.final streamResponse) ;;;
                  emit (EvWrite done_frame)
              end
          end
      end
  end.

End Lento.

Notation "x <- m ;; k" := (bind m (fun x => k))
  (at level 100, m at next level, right associativity).
Notation "m ;;; k" := (bind m (fun _ => k))
  (at level 100, right associativity).

(** ** The contract of [slices.SortFunc]

    "SortFunc sorts the slice x in ascending order as determined by the cmp
    function.  This sort is not guaranteed to be stable. [...] SortFunc
    requires that cmp is a strict weak ordering."  The sort rearranges the
    slice; when [cmp] is a strict weak ordering of its elements, no element
    ends up before one that [cmp] puts strictly before it. *)

Section SortContract.

Context {A : Type}.

(** [cmp a b < 0]: [a] goes strictly before [b]. *)
Definition before (cmp : A -> A -> Z) (a b : A) : Prop := cmp a b < 0.

Record StrictWeakOrdering (cmp : A -> A -> Z) (l : list A) : Prop := {
  swo_irreflexive : forall a, In a l -> ~ before cmp a a;
  swo_transitive : forall a b c, In a l -> In b l -> In c l ->
    before cmp a b -> before cmp b c -> before cmp a c;
  swo_incomparable : forall a b c, In a l -> In b l -> In c l ->
    ~ before cmp a b -> ~ before cmp b a ->
    ~ before cmp b c -> ~ before cmp c b ->
    ~ before cmp a c /\ ~ before cmp c a;
}.

Definition SortFunc_contract (sortFunc : (A -> A -> Z) -> list A -> list A) : Prop :=
  forall cmp l,
    Permutation l (sortFunc cmp l) /\
    (StrictWeakOrdering cmp l ->
     StronglySorted (fun a b => ~ before cmp b a) (sortFunc cmp l)).

(** Go's insertion sort, which [slices.SortFunc] runs on short slices:
    each element in turn moves left while it goes strictly before its left
    neighbour.  [sink] works on the sorted prefix in reverse. *)
Fixpoint sink (cmp : A -> A -> Z) (x : A) (reversed_prefix : list A) : list A :=
  match reversed_prefix with
  | [] => [x]
  | y :: rest =>
      if cmp x y <? 0 then y :: sink cmp x rest else x :: y :: rest
  end.

Definition insertionSortCmpFunc (cmp : A -> A -> Z) (l : list A) : list A :=
  rev (fold_left (fun reversed_prefix x => sink cmp x reversed_prefix) l []).

End SortContract.

(** ** The similarity score *)

(** The score the loop of [findSimilar] gives to the corpus vector [v] for
    the query vector [emb]: [dot / normA / normB]. *)
Definition cosine (emb v : openai.Embedding) : float32 :=
  let dotA := openai.dot_sum (openai.Vector emb) (openai.Vector emb) in
  let dotB := openai.dot_sum (openai.Vector v) (openai.Vector v) in
  let dot := openai.dot_sum (openai.Vector emb) (openai.Vector v) in
  f32.div (f32.div dot (norm_of dotA)) (norm_of dotB).

(** [e.DotProduct(&e)], which cannot fail. *)
Definition self_dot (v : openai.Embedding) : float32 :=
  openai.dot_sum (openai.Vector v) (openai.Vector v).

Definition same_dimension (emb v : openai.Embedding) : Prop :=
  length (openai.Vector emb) = length (openai.Vector v).

(** [x > 0] and [x <= 0] on binary32. *)
Definition positive (x : float32) : Prop := f32.ltb f32.zero x = true.
Definition zero_or_negative (x : float32) : Prop := f32.leb x f32.zero = true.

(** [a >= b] on binary32. *)
Definition f32_ge (a b : float32) : Prop := f32.leb b a = true.

(** The request [calcEmbeddings] sends for [input]. *)
Definition embedding_request (cfg : Config) (input : list string)
    : EmbeddingRequestStrings :=
  {| er_BaseURL := EmbBaseUrl cfg; er_Token := EmbToken cfg;
     Input := input; er_Model := ModelEmb cfg |}.

(** The entry of [scores] for the corpus vector [v]. *)
Definition score_of (emb v : openai.Embedding) : Score :=
  {| Score_Index := openai.Index v; Value := cosine emb v |}.

(** ** The two requests of the chat handler *)

Section Requests.

Context {OtherFields : Type}.

(** The system prompt the handler keeps from the caller's messages. *)
Definition kept_system_prompt (request : openai.ChatCompletionRequest OtherFields)
    : string :=
  match openai.Messages request with
  | first :: _ =>
      if String.eqb (openai.Role first) openai.ChatMessageRoleSystem
      then openai.Content first else EmptyString
  | [] => EmptyString
  end.

(** The request of the summarization call. *)
Definition summarize_request (cfg : Config)
    (request : openai.ChatCompletionRequest OtherFields)
    : openai.ChatCompletionRequest OtherFields :=
  set_Messages
    [ {| openai.Role := openai.ChatMessageRoleSystem;
         openai.Content := summarize_instruction |};
      {| openai.Role := openai.ChatMessageRoleUser;
         openai.Content := chatHistory_loop 0 (openai.Messages request) EmptyString |} ]
    (set_Stream false (set_Model (ModelWithoutThinking cfg) request)).

(** The request of the final, streamed call. *)
Definition answer_request (cfg : Config)
    (request : openai.ChatCompletionRequest OtherFields)
    (question result : string) : openai.ChatCompletionRequest OtherFields :=
  set_Messages
    [ {| openai.Role := openai.ChatMessageRoleSystem;
         openai.Content := kept_system_prompt request |};
      {| openai.Role := openai.ChatMessageRoleUser;
         openai.Content := answer_prompt question result |} ]
    (set_Stream true (set_Model (openai.Model request) (summarize_request cfg request))).

(** The request [rerank] posts. *)
Definition rerank_request (cfg : Config) (question : string)
    (summaries : list string) : RerankRequest :=
  {| Model := ModelRerank cfg; Query := question;
     Documents := summaries; TopN := TopRerank cfg |}.

Definition EvRerank (cfg : Config) (question : string) (summaries : list string)
    : @Event OtherFields :=
  EvPostRerank (EmbBaseUrl cfg +:+ "/rerank") ("Bearer " +:+ EmbToken cfg)
               (rerank_request cfg question summaries).

(** The three headers of the event stream. *)
Definition sse_headers : list (@Event OtherFields) :=
  [ EvSetHeader "Content-Type" "text/event-stream";
    EvSetHeader "Cache-Control" "no-cache";
    EvSetHeader "Connection" "keep-alive" ].

(** One upstream frame as the handler writes it out. *)
Definition forwarded (buf : string) : list (@Event OtherFields) :=
  [ EvRecvRaw; EvWrite "data: "; EvWrite buf; EvWrite (newline +:+ newline) ].

End Requests.

(** ** The fields of the caller's request in the outbound calls *)

Section Frame.

Context {OtherFields : Type}.

Definition keeps_other_fields (request r : openai.ChatCompletionRequest OtherFields)
    : Prop :=
  openai.MaxTokens r = openai.MaxTokens request /\
  openai.Temperature r = openai.Temperature request /\
  openai.Others r = openai.Others request.

(** What holds of an event when it is one of the two completion calls. *)
Definition call_keeps_fields (cfg : Config)
    (request : openai.ChatCompletionRequest OtherFields) (ev : Event) : Prop :=
  match ev with
  | EvCreateChatCompletion _ r =>
      keeps_other_fields request r /\
      openai.Model r = ModelWithoutThinking cfg /\ openai.Stream r = false
  | EvCreateChatCompletionStream _ r =>
      keeps_other_fields request r /\
      openai.Model r = openai.Model request /\ openai.Stream r = true
  | _ => True
  end.

End Frame.

(** [i] is not an index of [l]. *)
Definition out_of_range {A} (l : list A) (i : Z) : Prop := i < 0 \/ len l <= i.

(** ** Manifest lines *)

(** A line without the separator: [strings.SplitN] gives one piece. *)
Definition no_separator (line : string) : Prop := strings_Cut line ":" = None.

(** A line with the separator whose id [strconv.Atoi] rejects with [err]. *)
Definition bad_id (line : string) (err : error) : Prop :=
  exists s0 s1,
    strings_SplitN_2 line ":" = [s0; s1] /\ strconv_Atoi s0 = Err err.

(** ** The order of binary32 numbers *)

(** A number that is not NaN has a place on a line: its [rank] is compared
    lexicographically. *)
Definition rank (x : spec_float) : Z * Z * Z :=
  match x with
  | S754_zero _ => (0, 0, 0)
  | S754_infinity s => (if s then -2 else 2, 0, 0)
  | S754_nan => (0, 0, 0)
  | S754_finite false m e => (1, e, Zpos m)
  | S754_finite true m e => (-1, - e, Zneg m)
  end.

Definition rank_lt (a b : Z * Z * Z) : Prop :=
  a.1.1 < b.1.1 \/
  (a.1.1 = b.1.1 /\ (a.1.2 < b.1.2 \/ (a.1.2 = b.1.2 /\ a.2 < b.2))).

(** No score is NaN. *)
Definition no_NaN (scores : list Score) : Prop :=
  Forall (fun s => f32.is_nan (Value s) = false) scores.

(** A run that does nothing to the outside. *)
Definition silent {OtherFields A} (m : @M OtherFields A) : Prop := trace m = [].

(** ** A small installation, for running the program *)

Module Demo.

(** The configuration the program starts with when no variable of the
    environment is set. *)
Definition cfg : Config :=
  {| Port := 13000;
     LlmBaseUrl := "http://127.0.0.1:8080/v1";
     LlmToken := EmptyString;
     EmbBaseUrl := "http://127.0.0.1:8080/v1";
     EmbToken := EmptyString;
     ModelWithoutThinking := "Qwen/Qwen2.5-7B-Instruct";
     ModelEmb := "BAAI/bge-m3";
     ModelRerank := "BAAI/bge-reranker-v2-m3";
     TopEmb := 25;
     TopRerank := 5;
     SummaryFile := "./summary.txt";
     MarkdownDir := "./markdown";
     Topic := "所有" |}.

(** The embedding with the integer coordinates [coordinates], reported at
    [index]. *)
Definition vec (coordinates : list Z) (index : Z) : openai.Embedding :=
  {| openai.Object := "embedding";
     openai.Vector := map f32.of_Z coordinates;
     openai.Index := index |}.

Definition query_vector : openai.Embedding := vec [1; 0] 0.

Definition corpus_vectors : list openai.Embedding := [vec [1; 1] 0; vec [3; 0] 1].

Definition titles_manifest : string :=
  "7:invoice.pdf" +:+ newline +:+ "x:notes.doc" +:+ newline +:+ "9:report.docx".

Definition summary_manifest : string :=
  "7:invoice summary" +:+ newline +:+ "no separator here" +:+ newline
    +:+ "9:report summary" +:+ newline.

Definition no_such_file : error :=
  fs_ErrNotExist "no such file or directory".

Definition read_file (path : string) : result string :=
  if String.eqb path "./markdown/files.txt" then Ok titles_manifest
  else if String.eqb path "./markdown/7.md" then Ok "Invoice 7: 100 EUR"
  else if String.eqb path "./markdown/9.md" then Ok "Report 9: all well"
  else Err no_such_file.

Definition rerank_answer (indices : list Z) : result HttpResponse :=
  Ok {| StatusCode := http_StatusOK;
        Status := "200 OK";
        Body := Ok {| Results :=
                        map (fun i => {| Index := i;
                                         RelevanceScore := f32.of_Z 1 |})
                            indices |} |}.

Definition chat_answer (question : string) : openai.ChatCompletionResponse :=
  {| openai.Choices :=
       [ {| openai.Message := {| openai.Role := "assistant";
                                 openai.Content := question |} |} ] |}.

(** An outside whose summary manifest is [summary], whose embedding
    endpoint answers a one-text request with [query_vector] and any other
    with [corpus], whose rerank endpoint answers with the indices [reranked]
    and whose final completion streams [stream]. *)
Definition world_of (summary : string) (corpus : list openai.Embedding)
    (reranked : list Z) (stream : openai.ChatCompletionStream) : @World unit :=
  {| os_ReadFile := read_file;
     os_Open := fun path =>
       if String.eqb path "./summary.txt" then Ok summary else Err no_such_file;
     CreateEmbeddings := fun req =>
       match Input req with
       | [_] => Ok [query_vector]
       | _ => Ok corpus
       end;
     http_Do := fun _ => rerank_answer reranked;
     CreateChatCompletion := fun _ => Ok (chat_answer "What is X?");
     CreateChatCompletionStream := fun _ => Ok stream |}.

Definition good_stream : openai.ChatCompletionStream :=
  {| openai.frames := ["{a}"; "{b}"]; openai.final := io_EOF |}.

Definition broken_stream : openai.ChatCompletionStream :=
  {| openai.frames := ["{a}"];
     openai.final := errors_New "unexpected EOF" |}.

Definition world : @World unit :=
  world_of summary_manifest corpus_vectors [1; 0] good_stream.

(** The corpus [Init] loads in [world]. *)
Definition loaded : Globals :=
  {| allDocIds := <[9 := 1]> (<[7 := 0]> ∅);
     allDocuments :=
       [ {| DocId := 7; Title := "invoice"; Content := "Invoice 7: 100 EUR";
            Summary := "invoice summary" |};
         {| DocId := 9; Title := "report"; Content := "Report 9: all well";
            Summary := "report summary" |} ];
     allEmbeddings := corpus_vectors |}.

Definition request : openai.ChatCompletionRequest unit :=
  {| openai.Model := "auto";
     openai.Messages :=
       [ {| openai.Role := "system"; openai.Content := "Be terse" |};
         {| openai.Role := "user"; openai.Content := "What is X?" |} ];
     openai.MaxTokens := 256;
     openai.Temperature := f32.of_ratio 7 10;
     openai.Stream := false;
     openai.Others := tt |}.

(** The context the retrieval builds in [world] for the question. *)
Definition context : string :=
  "检索到以下2篇文档：" +:+ newline +:+ newline
  +:+ "第1篇文档，标题为「invoice」：" +:+ newline +:+ newline
  +:+ "Invoice 7: 100 EUR" +:+ newline +:+ newline
  +:+ "第2篇文档，标题为「report」：" +:+ newline +:+ newline
  +:+ "Report 9: all well" +:+ newline +:+ newline.


(** A vector whose self-dot-product overflows binary32. *)
Definition huge_vector : openai.Embedding :=
  {| openai.Object := "embedding";
     openai.Vector := [f32.of_Z (2 ^ 100)];
     openai.Index := 0 |}.

End Demo.

(** ** The tool entry point and what is left of the program *)

(** The argument of the tool call, the struct [Parameter] of the source
    (a reserved word here). *)
Record LLMArguments : Type := {
  Question : string;
}.

(** [Description] *)
Definition Description (cfg : Config) : string :=
  "当用户查询" +:+ Topic cfg +:+ "问题时调用此函数".

(** [Handler], on what [ctx.ReadLLMArguments] made of the arguments.  The
    call of [ctx.WriteLLMResult] is the last thing a run does: the run
    returns [Some result] when it makes the call with [result], and [None]
    when it returns without it. *)
Definition Handler {OtherFields : Type} (cfg : Config) (world : @World OtherFields)
    (slices_SortFunc : (Score -> Score -> Z) -> list Score -> list Score)
    (g : Globals) (read : result LLMArguments) : @M OtherFields (option string) :=
  match read with
  | Err err => ret None
  | Ok msg =>
      r <- RunRAG cfg world slices_SortFunc g (Question msg) ;;
      match r with
      | Err err => ret None
      | Ok result => ret (Some result)
      end
  end.

(** [main], up to the start of the router: [Init] on the fresh
    package-level variables; [log.Fatalln] ends the process with the error,
    otherwise the server starts with the corpus loaded. *)
Definition main_startup {OtherFields : Type} (cfg : Config)
    (world : @World OtherFields) : @M OtherFields (result Globals) :=
  r <- Init cfg world initial_globals ;;
  match r with
  | (Some err, _) => ret (Err err)
  | (None, g) => ret (Ok g)
  end.

(** ** What the properties below speak of *)

(** The bytes a run writes to the response, in order. *)
Fixpoint written {OtherFields : Type} (tr : list (@Event OtherFields)) : string :=
  match tr with
  | [] => EmptyString
  | EvWrite bytes :: rest => bytes +:+ written rest
  | _ :: rest => written rest
  end.

(** The error responses of a run, in order. *)
Fixpoint error_responses {OtherFields : Type} (tr : list (@Event OtherFields))
    : list (Z * string) :=
  match tr with
  | [] => []
  | EvJSON code text :: rest => (code, text) :: error_responses rest
  | _ :: rest => error_responses rest
  end.

(** One frame on the wire. *)
Definition sse_frame (buf : string) : string :=
  "data: " +:+ buf +:+ newline +:+ newline.

Fixpoint sse_frames (frames : list string) : string :=
  match frames with
  | [] => EmptyString
  | buf :: rest => sse_frame buf +:+ sse_frames rest
  end.

(** The line of the transcript for the message [msg] at position [i]. *)
Definition transcript_line (i : Z) (msg : openai.ChatCompletionMessage) : string :=
  fmt_d i +:+ ". [role=" +:+ openai.Role msg +:+ "] "
    +:+ openai.Content msg +:+ newline +:+ newline.

Definition is_system (msg : openai.ChatCompletionMessage) : bool :=
  String.eqb (openai.Role msg) openai.ChatMessageRoleSystem.

(** The text of the context for a list of documents: the count line, then
    for each document its ordinal, its title when it has one, and its
    content. *)
Definition context_header (count : Z) : string :=
  "检索到以下" +:+ fmt_d count +:+ "篇文档：" +:+ newline +:+ newline.

Definition context_entry (ordinal : Z) (doc : Document) : string :=
  "第" +:+ fmt_d ordinal +:+ "篇文档"
    +:+ (if 0 <? Z.of_nat (String.length (Title doc))
         then "，标题为「" +:+ Title doc +:+ "」" else EmptyString)
    +:+ "：" +:+ newline +:+ newline +:+ Content doc +:+ newline +:+ newline.

Fixpoint context_entries (ordinal : Z) (docs : list Document) : string :=
  match docs with
  | [] => EmptyString
  | doc :: rest => context_entry ordinal doc +:+ context_entries (ordinal + 1) rest
  end.

Definition context_of (docs : list Document) : string :=
  context_header (len docs) +:+ context_entries 1 docs.

(** Every entry of [allDocIds] leads to a document with that id. *)
Definition ids_indexed (g : Globals) : Prop :=
  forall docId pos,
    allDocIds g !! docId = Some pos ->
    exists doc, at_index (allDocuments g) pos = Some doc /\ DocId doc = docId.

(** A corpus vector [findSimilar] gives a score to: it has the dimension of
    the query vector and its self-dot-product passes the test [dotB <= 0]. *)
Definition scorable (emb v : openai.Embedding) : Prop :=
  same_dimension emb v /\ f32.leb (self_dot v) f32.zero = false.

(** The character [c] occurs in [s]. *)
Fixpoint occurs (c : ascii) (s : string) : Prop :=
  match s with
  | EmptyString => False
  | String c' rest => c' = c \/ occurs c rest
  end.

(** The line [line] of a manifest names the id [v]. *)
Definition names_id (line : string) (v : Z) : Prop :=
  exists s0 s1,
    strings_SplitN_2 line ":" = [s0; s1] /\ strconv_Atoi s0 = Ok v.

(** The title [Init] makes of a file name. *)
Definition title_of (name : string) : string :=
  fold_left strings_TrimSuffix title_suffixes name.

(** What the loop of [Init] keeps between the package-level variables and
    its own counters, when it starts on an empty corpus: the counter is the
    number of documents, the summaries are those of the documents, the id
    table leads to documents, and every document is in the id table. *)
Definition scan_invariant (st : ScanState) : Prop :=
  idx st = len (allDocuments (globals st)) /\
  summaries st = map Summary (allDocuments (globals st)) /\
  ids_indexed (globals st) /\
  Forall (fun doc => is_Some (allDocIds (globals st) !! DocId doc))
         (allDocuments (globals st)).

(** The path of the title manifest and of the content of a document. *)
Definition files_path (cfg : Config) : string :=
  MarkdownDir cfg +:+ "/files.txt".


(** The titles [Init] has after the title manifest, or the error it returns
    over it. *)
Definition loaded_titles {OtherFields : Type} (cfg : Config)
    (world : @World OtherFields) : result (gmap Z string) :=
  match os_ReadFile world (files_path cfg) with
  | Ok files => Ok (Init_titles (strings_Split files "010") ∅)
  | Err err => if negb (os_IsNotExist err) then Err err else Ok ∅
  end.

(** The package-level variables when the loop of [Init] starts. *)
Definition scan_start (g : Globals) : ScanState :=
  {| idx := 0;
     globals := {| allDocIds := ∅; allDocuments := allDocuments g;
                   allEmbeddings := allEmbeddings g |};
     summaries := [] |}.

(** An event that sets a header or writes to the body of the response. *)
Definition touches_response {OtherFields : Type} (ev : @Event OtherFields) : Prop :=
  match ev with
  | EvSetHeader _ _ | EvWrite _ => True
  | _ => False
  end.

(** ** Variants of the small installation *)

Module DemoVariants.

(** [Demo.world] with another answer of the summarization model. *)
Definition with_chat (answer : result openai.ChatCompletionResponse) : @World unit :=
  {| os_ReadFile := os_ReadFile Demo.world;
     os_Open := os_Open Demo.world;
     CreateEmbeddings := CreateEmbeddings Demo.world;
     http_Do := http_Do Demo.world;
     CreateChatCompletion := fun _ => answer;
     CreateChatCompletionStream := CreateChatCompletionStream Demo.world |}.



(** [Demo.world] with a summary manifest without any separator. *)
Definition with_blank_manifest : @World unit :=
  Demo.world_of ("no separator here" +:+ newline +:+ newline)
                Demo.corpus_vectors [1; 0] Demo.good_stream.

(** A request of system messages only. *)
Definition system_only_request : openai.ChatCompletionRequest unit :=
  set_Messages
    [ {| openai.Role := "system"; openai.Content := "Be terse" |};
      {| openai.Role := "system"; openai.Content := "Answer in French" |} ]
    Demo.request.

(** Three scores, one of them NaN. *)
Definition scores_with_NaN : list Score :=
  [ {| Score_Index := 0; Value := f32.of_Z 1 |};
    {| Score_Index := 1; Value := f32.of_Z 2 |};
    {| Score_Index := 2; Value := S754_nan |} ].

(** The two documents of [Demo.loaded], in the order of [Demo.context]. *)
Definition invoice : Document :=
  {| DocId := 7; Title := "invoice"; Content := "Invoice 7: 100 EUR";
     Summary := "invoice summary" |}.

Definition report : Document :=
  {| DocId := 9; Title := "report"; Content := "Report 9: all well";
     Summary := "report summary" |}.


End DemoVariants.

(** * Properties *)

(** ** Runs *)

Section Runs.

Context {OtherFields : Type}.

Lemma outcome_bind {A B} (m : @M OtherFields A) (k : A -> @M OtherFields B) :
  outcome (bind m k) =
  match outcome m with
  | Return a => outcome (k a)
  | Panic msg => Panic msg
  end.
Proof.
  destruct m as [tr [a | msg]]; simpl; [| reflexivity].
  destruct (k a); reflexivity.
Qed.

Lemma trace_bind {A B} (m : @M OtherFields A) (k : A -> @M OtherFields B) :
  trace (bind m k) =
  match outcome m with
  | Return a => trace m ++ trace (k a)
  | Panic _ => trace m
  end.
Proof.
  destruct m as [tr [a | msg]]; simpl; [| reflexivity].
  destruct (k a); reflexivity.
Qed.

Lemma bind_ret_l {A B} (a : A) (k : A -> @M OtherFields B) :
  bind (ret a) k = k a.
Proof. unfold bind, ret. destruct (k a). reflexivity. Qed.

Lemma bind_Return {A B} (tr : list Event) (a : A) (k : A -> @M OtherFields B) :
  bind (tr, Return a) k = (tr ++ trace (k a), outcome (k a)).
Proof. unfold bind. destruct (k a). reflexivity. Qed.

Lemma bind_Panic {A B} (tr : list Event) (msg : string) (k : A -> @M OtherFields B) :
  bind (tr, Panic msg) k = (tr, Panic msg).
Proof. reflexivity. Qed.

Lemma bind_ext {A B} (m : @M OtherFields A) (k k' : A -> @M OtherFields B) :
  (forall a, k a = k' a) -> bind m k = bind m k'.
Proof.
  intros H. destruct m as [tr [a | msg]]; simpl; [rewrite H |]; reflexivity.
Qed.

Lemma bind_assoc {A B C} (m : @M OtherFields A) (k : A -> @M OtherFields B)
    (k' : B -> @M OtherFields C) :
  bind (bind m k) k' = bind m (fun a => bind (k a) k').
Proof.
  destruct m as [tr [a | msg]]; simpl; [| reflexivity].
  destruct (k a) as [tr' [b | msg]]; simpl; [| reflexivity].
  destruct (k' b) as [tr'' c]. rewrite app_assoc. reflexivity.
Qed.

Lemma outcome_emit_bind {B} (ev : Event) (k : unit -> @M OtherFields B) :
  outcome (bind (emit ev) k) = outcome (k tt).
Proof. rewrite outcome_bind. reflexivity. Qed.

Lemma trace_emit_bind {B} (ev : Event) (k : unit -> @M OtherFields B) :
  trace (bind (emit ev) k) = ev :: trace (k tt).
Proof. rewrite trace_bind. reflexivity. Qed.

End Runs.

(** ** Slices *)

Lemma len_nil_iff {A} (l : list A) : (len l =? 0) = true <-> l = [].
Proof.
  unfold len. rewrite Z.eqb_eq. destruct l; simpl; split; intros H;
    try reflexivity; try discriminate; lia.
Qed.

Lemma len_eqb_length {A B} (l : list A) (l' : list B) :
  (len l =? len l') = true <-> length l = length l'.
Proof. unfold len. rewrite Z.eqb_eq. lia. Qed.

Lemma at_index_lookup {A} (l : list A) (i : nat) :
  at_index l (Z.of_nat i) = l !! i.
Proof.
  unfold at_index, len.
  destruct (l !! i) eqn:Hl.
  - pose proof (lookup_lt_Some _ _ _ Hl) as Hlt.
    replace (0 <=? Z.of_nat i) with true by (symmetry; apply Z.leb_le; lia).
    replace (Z.of_nat i <? Z.of_nat (length l)) with true
      by (symmetry; apply Z.ltb_lt; lia).
    simpl. rewrite Nat2Z.id. exact Hl.
  - pose proof (proj1 (lookup_ge_None _ _) Hl) as Hge.
    replace (Z.of_nat i <? Z.of_nat (length l)) with false
      by (symmetry; apply Z.ltb_ge; lia).
    rewrite andb_false_r. reflexivity.
Qed.


(** ** [calcEmbeddings] *)

Section CalcEmbeddings.

Context {OtherFields : Type}.
Variable cfg : Config.
Variable world : @World OtherFields.

Lemma calcEmbeddings_outcome (input : list string) :
  input <> [] ->
  outcome (calcEmbeddings cfg world input) =
  Return match CreateEmbeddings world (embedding_request cfg input) with
         | Err err => Err err
         | Ok data =>
             if len data =? len input then Ok data
             else Err (errors_New "embedding length mismatch")
         end.
Proof.
  intros Hne. unfold calcEmbeddings.
  destruct (len input =? 0) eqn:Hlen.
  - apply len_nil_iff in Hlen. contradiction.
  - rewrite outcome_emit_bind. fold (embedding_request cfg input).
    destruct (CreateEmbeddings world (embedding_request cfg input)) as [data | err];
      [| reflexivity].
    destruct (len data =? len input); reflexivity.
Qed.

Lemma calcEmbeddings_trace (input : list string) :
  input <> [] ->
  trace (calcEmbeddings cfg world input)
  = [EvCreateEmbeddings (embedding_request cfg input)].
Proof.
  intros Hne. unfold calcEmbeddings.
  destruct (len input =? 0) eqn:Hlen.
  - apply len_nil_iff in Hlen. contradiction.
  - rewrite trace_emit_bind. fold (embedding_request cfg input).
    destruct (CreateEmbeddings world (embedding_request cfg input)) as [data | err];
      [| reflexivity].
    destruct (negb (len data =? len input)); reflexivity.
Qed.

(** C3.  On a non-empty input, [calcEmbeddings] returns only what the
    endpoint answered, and only when that holds one vector per input text;
    it does return the endpoint's vectors when their count matches, and it
    fails with "embedding length mismatch" when the count differs. *)
Theorem calcEmbeddings_one_vector_per_text (input : list string) :
  input <> [] ->
  (forall out,
      outcome (calcEmbeddings cfg world input) = Return (Ok out) ->
      length out = length input) /\
  (forall data,
      CreateEmbeddings world (embedding_request cfg input) = Ok data ->
      length data = length input ->
      outcome (calcEmbeddings cfg world input) = Return (Ok data)) /\
  (forall data,
      CreateEmbeddings world (embedding_request cfg input) = Ok data ->
      length data <> length input ->
      outcome (calcEmbeddings cfg world input)
      = Return (Err (errors_New "embedding length mismatch"))).
Proof.
  intros Hne. rewrite (calcEmbeddings_outcome input Hne).
  repeat split.
  - intros out H.
    destruct (CreateEmbeddings world (embedding_request cfg input)) as [data | err];
      [| discriminate].
    destruct (len data =? len input) eqn:Hlen; [| discriminate].
    apply len_eqb_length in Hlen. congruence.
  - intros data -> Hlen. apply len_eqb_length in Hlen. rewrite Hlen. reflexivity.
  - intros data -> Hlen.
    destruct (len data =? len input) eqn:E; [| reflexivity].
    apply len_eqb_length in E. contradiction.
Qed.

End CalcEmbeddings.

(** ** The order of binary32 numbers *)

Lemma SFltb_rank (x y : spec_float) :
  f32.is_nan x = false -> f32.is_nan y = false ->
  SFltb x y = true <-> rank_lt (rank x) (rank y).
Proof.
  intros Hx Hy. unfold SFltb, rank_lt.
  destruct x as [sx | sx | | sx mx ex], y as [sy | sy | | sy my ey];
    try discriminate; simpl;
    try (destruct sx); try (destruct sy); simpl;
    try (split; [discriminate | lia]);
    try (split; [lia | reflexivity]).
  - rewrite Pos.compare_cont_spec; simpl.
    destruct (Z.compare_spec ex ey) as [He | He | He];
      [destruct (Pos.compare_spec mx my) as [Hm | Hm | Hm] | |];
      simpl; split; try discriminate; try reflexivity; try lia.
  - rewrite Pos.compare_cont_spec; simpl.
    destruct (Z.compare_spec ex ey) as [He | He | He];
      [destruct (Pos.compare_spec mx my) as [Hm | Hm | Hm] | |];
      simpl; split; try discriminate; try reflexivity; try lia.
Qed.

Lemma SFleb_rank (x y : spec_float) :
  f32.is_nan x = false -> f32.is_nan y = false ->
  SFleb x y = true <-> ~ rank_lt (rank y) (rank x).
Proof.
  intros Hx Hy. unfold SFleb, rank_lt.
  destruct x as [sx | sx | | sx mx ex], y as [sy | sy | | sy my ey];
    try discriminate; simpl;
    try (destruct sx); try (destruct sy); simpl;
    try (split; [discriminate | lia]);
    try (split; [lia | reflexivity]).
  - rewrite Pos.compare_cont_spec; simpl.
    destruct (Z.compare_spec ex ey) as [He | He | He];
      [destruct (Pos.compare_spec mx my) as [Hm | Hm | Hm] | |];
      simpl; split; try discriminate; try reflexivity; try lia.
  - rewrite Pos.compare_cont_spec; simpl.
    destruct (Z.compare_spec ex ey) as [He | He | He];
      [destruct (Pos.compare_spec mx my) as [Hm | Hm | Hm] | |];
      simpl; split; try discriminate; try reflexivity; try lia.
Qed.

Lemma SFltb_nan_l (y : spec_float) : SFltb S754_nan y = false.
Proof. reflexivity. Qed.

Lemma SFltb_nan_r (x : spec_float) : SFltb x S754_nan = false.
Proof. destruct x; reflexivity. Qed.

Lemma is_nan_false_of_ltb_l (x y : spec_float) :
  SFltb x y = true -> f32.is_nan x = false.
Proof. destruct x; try reflexivity. discriminate. Qed.

Lemma is_nan_false_of_ltb_r (x y : spec_float) :
  SFltb x y = true -> f32.is_nan y = false.
Proof. destruct y; try reflexivity. rewrite SFltb_nan_r. discriminate. Qed.

Lemma SFltb_irrefl (x : spec_float) : SFltb x x = false.
Proof.
  destruct (SFltb x x) eqn:H; [| reflexivity].
  pose proof (is_nan_false_of_ltb_l _ _ H) as Hx.
  apply (SFltb_rank x x Hx Hx) in H. unfold rank_lt in H. lia.
Qed.

Lemma SFltb_trans (x y z : spec_float) :
  SFltb x y = true -> SFltb y z = true -> SFltb x z = true.
Proof.
  intros Hxy Hyz.
  pose proof (is_nan_false_of_ltb_l _ _ Hxy) as Hx.
  pose proof (is_nan_false_of_ltb_l _ _ Hyz) as Hy.
  pose proof (is_nan_false_of_ltb_r _ _ Hyz) as Hz.
  apply (SFltb_rank x y Hx Hy) in Hxy. apply (SFltb_rank y z Hy Hz) in Hyz.
  apply (SFltb_rank x z Hx Hz). unfold rank_lt in *. lia.
Qed.

Lemma SFltb_incomparable_trans (x y z : spec_float) :
  f32.is_nan x = false -> f32.is_nan y = false -> f32.is_nan z = false ->
  SFltb x y = false -> SFltb y x = false ->
  SFltb y z = false -> SFltb z y = false ->
  SFltb x z = false /\ SFltb z x = false.
Proof.
  intros Hx Hy Hz Hxy Hyx Hyz Hzy.
  apply not_true_iff_false in Hxy, Hyx, Hyz, Hzy.
  rewrite (SFltb_rank x y Hx Hy) in Hxy. rewrite (SFltb_rank y x Hy Hx) in Hyx.
  rewrite (SFltb_rank y z Hy Hz) in Hyz. rewrite (SFltb_rank z y Hz Hy) in Hzy.
  split; apply not_true_iff_false.
  - rewrite (SFltb_rank x z Hx Hz). unfold rank_lt in *. lia.
  - rewrite (SFltb_rank z x Hz Hx). unfold rank_lt in *. lia.
Qed.

Lemma SFleb_of_not_ltb (x y : spec_float) :
  f32.is_nan x = false -> f32.is_nan y = false ->
  SFltb x y = false -> SFleb y x = true.
Proof.
  intros Hx Hy H. apply not_true_iff_false in H.
  rewrite (SFltb_rank x y Hx Hy) in H. apply (SFleb_rank y x Hy Hx). exact H.
Qed.

Lemma positive_not_zero_or_negative (x : float32) :
  positive x -> f32.leb x f32.zero = false.
Proof.
  unfold positive, f32.ltb, f32.leb, f32.zero. intros H.
  pose proof (is_nan_false_of_ltb_r _ _ H) as Hx.
  apply (SFltb_rank (S754_zero false) x eq_refl Hx) in H.
  apply not_true_iff_false. rewrite (SFleb_rank x (S754_zero false) Hx eq_refl).
  tauto.
Qed.

(** ** The comparison of scores and the sort *)

(** [a] goes before [b] when its value is the greater one. *)
Lemma before_cmpScore (a b : Score) :
  before cmpScore a b <-> f32.ltb (Value b) (Value a) = true.
Proof.
  unfold before, cmpScore.
  destruct (f32.ltb (Value b) (Value a)); [split; [reflexivity | lia] |].
  destruct (f32.ltb (Value a) (Value b)); split; (discriminate || lia).
Qed.

Lemma cmpScore_strict_weak (scores : list Score) :
  no_NaN scores -> StrictWeakOrdering cmpScore scores.
Proof.
  intros Hnan. pose proof (proj1 (List.Forall_forall _ _) Hnan) as Hin.
  split.
  - intros a _. rewrite before_cmpScore. unfold f32.ltb.
    rewrite SFltb_irrefl. discriminate.
  - intros a b c _ _ _. rewrite !before_cmpScore. unfold f32.ltb.
    intros Hab Hbc. exact (SFltb_trans _ _ _ Hbc Hab).
  - intros a b c Ha Hb Hc. rewrite !before_cmpScore. unfold f32.ltb.
    rewrite !not_true_iff_false. intros Hab Hba Hbc Hcb.
    destruct (SFltb_incomparable_trans (Value a) (Value b) (Value c)
                (Hin a Ha) (Hin b Hb) (Hin c Hc)); auto.
Qed.

Section InsertionSort.

Context {A : Type}.
Variable cmp : A -> A -> Z.

Lemma sink_Permutation (x : A) (l : list A) : Permutation (x :: l) (sink cmp x l).
Proof.
  induction l as [| y l IH]; simpl; [reflexivity |].
  destruct (cmp x y <? 0); [| reflexivity].
  rewrite perm_swap. apply perm_skip. exact IH.
Qed.

Lemma fold_sink_Permutation (l acc : list A) :
  Permutation (rev acc ++ l)
    (rev (fold_left (fun reversed_prefix x => sink cmp x reversed_prefix) l acc)).
Proof.
  revert acc. induction l as [| x l IH]; intros acc; simpl.
  - rewrite app_nil_r. reflexivity.
  - rewrite <- IH. rewrite <- (sink_Permutation x acc). simpl.
    rewrite <- app_assoc. reflexivity.
Qed.

Lemma insertionSortCmpFunc_Permutation (l : list A) :
  Permutation l (insertionSortCmpFunc cmp l).
Proof. exact (fold_sink_Permutation l []). Qed.

(** The facts about a strict weak ordering that sorting uses, on the
    elements that satisfy [P]. *)
Variable P : A -> Prop.
Hypothesis irreflexive : forall a, P a -> ~ before cmp a a.
Hypothesis transitive : forall a b c, P a -> P b -> P c ->
  before cmp a b -> before cmp b c -> before cmp a c.
Hypothesis incomparable : forall a b c, P a -> P b -> P c ->
  ~ before cmp a b -> ~ before cmp b a ->
  ~ before cmp b c -> ~ before cmp c b ->
  ~ before cmp a c /\ ~ before cmp c a.

Lemma before_asymmetric (a b : A) :
  P a -> P b -> before cmp a b -> ~ before cmp b a.
Proof.
  intros Ha Hb Hab Hba. exact (irreflexive a Ha (transitive a b a Ha Hb Ha Hab Hba)).
Qed.

Lemma not_before_transitive (a b c : A) :
  P a -> P b -> P c ->
  ~ before cmp a b -> ~ before cmp b c -> ~ before cmp a c.
Proof.
  intros Ha Hb Hc Hab Hbc Hac.
  assert (Hba : ~ before cmp b a).
  { intros Hba. exact (Hbc (transitive b a c Hb Ha Hc Hba Hac)). }
  assert (Hcb : ~ before cmp c b).
  { intros Hcb. exact (Hab (transitive a c b Ha Hc Hb Hac Hcb)). }
  destruct (incomparable a b c Ha Hb Hc Hab Hba Hbc Hcb) as [H _].
  exact (H Hac).
Qed.

(** The reversed prefix stays sorted from the greatest element down. *)
Lemma sink_sorted (x : A) (l : list A) :
  P x -> Forall P l ->
  StronglySorted (fun a b => ~ before cmp a b) l ->
  StronglySorted (fun a b => ~ before cmp a b) (sink cmp x l).
Proof.
  intros Hx HP Hs. induction Hs as [| y l Hs IH Hy]; simpl.
  - repeat constructor.
  - inversion HP as [| ? ? HPy HPl]; subst.
    destruct (cmp x y <? 0) eqn:Hxy.
    + apply Z.ltb_lt in Hxy. constructor; [exact (IH HPl) |].
      rewrite <- (sink_Permutation x l). constructor; [| exact Hy].
      apply before_asymmetric; assumption.
    + apply Z.ltb_ge in Hxy. constructor; [constructor; assumption |].
      assert (Hnxy : ~ before cmp x y) by (unfold before; lia).
      constructor; [exact Hnxy |].
      rewrite List.Forall_forall in Hy, HPl |- *. intros z Hz.
      apply (not_before_transitive x y z); auto.
Qed.

Lemma fold_sink_sorted (l acc : list A) :
  Forall P l -> Forall P acc ->
  StronglySorted (fun a b => ~ before cmp a b) acc ->
  StronglySorted (fun a b => ~ before cmp a b)
    (fold_left (fun reversed_prefix x => sink cmp x reversed_prefix) l acc).
Proof.
  revert acc. induction l as [| x l IH]; intros acc Hl Hacc Hs; simpl; [exact Hs |].
  inversion Hl as [| ? ? Hx Hl']; subst.
  apply IH; [exact Hl' | | apply sink_sorted; assumption].
  rewrite <- (sink_Permutation x acc). constructor; assumption.
Qed.

End InsertionSort.

Lemma StronglySorted_rev {A} (R : A -> A -> Prop) (l : list A) :
  StronglySorted R l -> StronglySorted (fun a b => R b a) (rev l).
Proof.
  induction 1 as [| x l Hs IH Hx]; simpl; [constructor |].
  apply StronglySorted_app_2; [| exact IH | repeat constructor].
  intros a b Ha Hb. apply list_elem_of_In in Ha, Hb.
  destruct Hb as [<- | []]. apply in_rev in Ha.
  rewrite List.Forall_forall in Hx. exact (Hx a Ha).
Qed.

(** Go's insertion sort honours the contract of [slices.SortFunc]. *)
Lemma insertionSortCmpFunc_contract {A} :
  SortFunc_contract (@insertionSortCmpFunc A).
Proof.
  intros cmp l. split; [apply insertionSortCmpFunc_Permutation |].
  intros [Hirr Htr Hinc]. unfold insertionSortCmpFunc.
  apply (StronglySorted_rev (fun a b => ~ before cmp a b)).
  apply (fold_sink_sorted cmp (fun a => In a l)); auto.
  - apply List.Forall_forall. auto.
  - constructor.
Qed.

(** ** [findSimilar] *)

Lemma DotProduct_self (v : openai.Embedding) :
  openai.DotProduct v v = Ok (self_dot v).
Proof. unfold openai.DotProduct. rewrite Nat.eqb_refl. reflexivity. Qed.

Lemma DotProduct_same_dimension (emb v : openai.Embedding) :
  same_dimension emb v ->
  openai.DotProduct emb v
  = Ok (openai.dot_sum (openai.Vector emb) (openai.Vector v)).
Proof.
  unfold same_dimension, openai.DotProduct. intros ->.
  rewrite Nat.eqb_refl. reflexivity.
Qed.

Lemma findSimilar_scores_ok (emb : openai.Embedding) (embeddings : list openai.Embedding) :
  Forall (fun v => same_dimension emb v /\ positive (self_dot v)) embeddings ->
  forall i,
    findSimilar_scores emb (norm_of (self_dot emb)) i embeddings
    = Ok (map (score_of emb) embeddings).
Proof.
  induction 1 as [| v rest [Hdim Hpos] _ IH]; intros i; simpl; [reflexivity |].
  rewrite DotProduct_self, (positive_not_zero_or_negative _ Hpos).
  rewrite (DotProduct_same_dimension _ _ Hdim), IH. reflexivity.
Qed.

Lemma findSimilar_scores_zero (emb : openai.Embedding) (normA : float32)
    (embeddings : list openai.Embedding) :
  Exists (fun v => zero_or_negative (self_dot v)) embeddings ->
  forall i, exists err, findSimilar_scores emb normA i embeddings = Err err.
Proof.
  induction 1 as [v rest Hzero | v rest _ IH]; intros i; simpl;
    rewrite DotProduct_self.
  - unfold zero_or_negative in Hzero. rewrite Hzero. eauto.
  - destruct (f32.leb (self_dot v) f32.zero); [eauto |].
    destruct (openai.DotProduct emb v); [| eauto].
    destruct (IH (i + 1)) as [err ->]. eauto.
Qed.

Section FindSimilar.

Context {OtherFields : Type}.
Variable cfg : Config.
Variable world : @World OtherFields.
Variable slices_SortFunc : (Score -> Score -> Z) -> list Score -> list Score.

Lemma findSimilar_res_ok (scores : list Score) (n : nat) :
  forall i : nat,
    (i + n <= length scores)%nat ->
    @findSimilar_res OtherFields scores (Z.of_nat i) n
    = ret (map Score_Index (take n (drop i scores))).
Proof.
  induction n as [| n IH]; intros i Hi; simpl; [reflexivity |].
  unfold index. rewrite at_index_lookup.
  destruct (scores !! i) as [s |] eqn:Hs.
  - replace (Z.of_nat i + 1) with (Z.of_nat (S i)) by lia.
    simpl. rewrite IH by lia. simpl.
    rewrite (drop_S _ _ _ Hs). reflexivity.
  - apply lookup_ge_None in Hs. lia.
Qed.

(** What [findSimilar] does once the endpoint has answered with the one
    vector [emb] for the query. *)
Lemma findSimilar_outcome (query : string) (embeddings : list openai.Embedding)
    (topN : Z) (emb : openai.Embedding) :
  CreateEmbeddings world (embedding_request cfg [query]) = Ok [emb] ->
  outcome (findSimilar cfg world slices_SortFunc query embeddings topN) =
  if f32.leb (self_dot emb) f32.zero
  then Return (Err (errors_New "embedding is zero"))
  else
    match findSimilar_scores emb (norm_of (self_dot emb)) 0 embeddings with
    | Err err => Return (Err err)
    | Ok scores =>
        let topN := if len embeddings <? topN then len embeddings else topN in
        if topN <? 0
        then Panic "runtime error: makeslice: len out of range"
        else
          match outcome (@findSimilar_res OtherFields
                           (slices_SortFunc cmpScore scores) 0 (Z.to_nat topN)) with
          | Return res => Return (Ok res)
          | Panic msg => Panic msg
          end
    end.
Proof.
  intros Hemb. unfold findSimilar.
  rewrite outcome_bind, calcEmbeddings_outcome by discriminate.
  rewrite Hemb. change (len [emb] =? len [query]) with true. cbv beta iota.
  change (index [emb] 0) with (@ret OtherFields _ emb). rewrite bind_ret_l.
  rewrite DotProduct_self.
  destruct (f32.leb (self_dot emb) f32.zero); [reflexivity |].
  destruct (findSimilar_scores emb (norm_of (self_dot emb)) 0 embeddings);
    [| reflexivity].
  destruct ((if len embeddings <? topN then len embeddings else topN) <? 0);
    [reflexivity |].
  rewrite outcome_bind.
  destruct (outcome (findSimilar_res _ _ _)); reflexivity.
Qed.

(** Every way the embedding call can go wrong is an error. *)
Lemma findSimilar_query_failure (query : string) (embeddings : list openai.Embedding)
    (topN : Z) :
  (forall emb, CreateEmbeddings world (embedding_request cfg [query]) <> Ok [emb]) ->
  exists err,
    outcome (findSimilar cfg world slices_SortFunc query embeddings topN)
    = Return (Err err).
Proof.
  intros Hnot. unfold findSimilar.
  rewrite outcome_bind, calcEmbeddings_outcome by discriminate.
  destruct (CreateEmbeddings world (embedding_request cfg [query]))
    as [data | err] eqn:Hdata; [| simpl; eauto].
  destruct (len data =? len [query]) eqn:Hlen; [| simpl; eauto].
  apply len_eqb_length in Hlen.
  destruct data as [| emb [| ? ?]]; try discriminate.
  exfalso. exact (Hnot emb eq_refl).
Qed.

(** C4.  When the vector the endpoint answers for the query, or any vector
    of the corpus, has a self-dot-product that is zero or negative,
    [findSimilar] returns an error: it returns no positions, and it gives
    the vector no score. *)
Theorem findSimilar_rejects_zero_vectors (query : string)
    (embeddings : list openai.Embedding) (topN : Z) :
  (exists emb,
      CreateEmbeddings world (embedding_request cfg [query]) = Ok [emb] /\
      zero_or_negative (self_dot emb)) \/
  Exists (fun v => zero_or_negative (self_dot v)) embeddings ->
  exists err,
    outcome (findSimilar cfg world slices_SortFunc query embeddings topN)
    = Return (Err err).
Proof.
  intros [[emb [Hemb Hzero]] | Hcorpus].
  - rewrite (findSimilar_outcome _ _ _ emb Hemb).
    unfold zero_or_negative in Hzero. rewrite Hzero. eauto.
  - destruct (CreateEmbeddings world (embedding_request cfg [query]))
      as [[| emb [| ? ?]] | err] eqn:Hdata;
      try (apply findSimilar_query_failure; intros emb'; rewrite Hdata;
           discriminate).
    rewrite (findSimilar_outcome _ _ _ emb Hdata).
    destruct (f32.leb (self_dot emb) f32.zero); [eauto |].
    destruct (findSimilar_scores_zero emb (norm_of (self_dot emb)) embeddings
                Hcorpus 0) as [err ->].
    eauto.
Qed.

End FindSimilar.

Lemma StronglySorted_scores (emb : openai.Embedding) (l : list openai.Embedding) :
  Forall (fun v => f32.is_nan (cosine emb v) = false) l ->
  StronglySorted (fun a b => ~ before cmpScore b a) (map (score_of emb) l) ->
  StronglySorted (fun a b => f32_ge (cosine emb a) (cosine emb b)) l.
Proof.
  induction 1 as [| v l Hv Hl IH]; simpl; intros Hs; [constructor |].
  apply StronglySorted_inv in Hs as [Hs Hhd].
  constructor; [exact (IH Hs) |].
  rewrite List.Forall_forall in Hhd, Hl |- *. intros u Hu.
  specialize (Hhd (score_of emb u) (in_map _ _ _ Hu)).
  rewrite before_cmpScore in Hhd. simpl in Hhd.
  apply not_true_iff_false in Hhd.
  unfold f32_ge, f32.leb. apply SFleb_of_not_ltb; auto.
Qed.

Section FindSimilarTop.

Context {OtherFields : Type}.
Variable cfg : Config.
Variable world : @World OtherFields.
Variable slices_SortFunc : (Score -> Score -> Z) -> list Score -> list Score.
Hypothesis sort_contract : SortFunc_contract slices_SortFunc.

(** C1, as amended.  When the endpoint answers the query with one vector of
    strictly positive self-dot-product, every corpus vector has the
    dimension of the query vector, a strictly positive self-dot-product and
    a score that is a number, and [topN] is not negative, [findSimilar]
    returns the [Index] fields of the first [min(topN, len(corpus))]
    vectors of a rearrangement of the corpus that is sorted by
    non-increasing score [dot / normA / normB]; these positions are
    distinct when the [Index] fields of the corpus are. *)
Theorem findSimilar_top_positions (query : string)
    (embeddings : list openai.Embedding) (topN : Z) (emb : openai.Embedding) :
  CreateEmbeddings world (embedding_request cfg [query]) = Ok [emb] ->
  positive (self_dot emb) ->
  Forall (fun v => same_dimension emb v /\ positive (self_dot v) /\
                   f32.is_nan (cosine emb v) = false) embeddings ->
  0 <= topN ->
  exists ranked rest,
    outcome (findSimilar cfg world slices_SortFunc query embeddings topN)
    = Return (Ok (map openai.Index ranked)) /\
    Permutation embeddings (ranked ++ rest) /\
    len ranked = Z.min topN (len embeddings) /\
    StronglySorted (fun a b => f32_ge (cosine emb a) (cosine emb b))
                   (ranked ++ rest) /\
    (NoDup (map openai.Index embeddings) -> NoDup (map openai.Index ranked)).
Proof.
  intros Hemb Hpos Hcorpus HtopN.
  rewrite (findSimilar_outcome _ _ _ _ _ _ emb Hemb).
  rewrite (positive_not_zero_or_negative _ Hpos).
  rewrite findSimilar_scores_ok
    by (eapply Forall_impl; [exact Hcorpus | cbv beta; tauto]).
  destruct (sort_contract cmpScore (map (score_of emb) embeddings))
    as [Hperm Hsorted].
  destruct (Permutation_map_inv _ _ (Permutation_sym Hperm))
    as [sorted [Heq Hperm']].
  assert (Hnan : Forall (fun v => f32.is_nan (cosine emb v) = false) embeddings)
    by (eapply Forall_impl; [exact Hcorpus | cbv beta; tauto]).
  assert (Hnan' : Forall (fun v => f32.is_nan (cosine emb v) = false) sorted)
    by (rewrite <- Hperm'; exact Hnan).
  assert (Hswo : StrictWeakOrdering cmpScore (map (score_of emb) embeddings)).
  { apply cmpScore_strict_weak. unfold no_NaN. rewrite List.Forall_map.
    exact Hnan. }
  specialize (Hsorted Hswo). rewrite Heq in Hsorted |- *.
  apply (StronglySorted_scores emb sorted Hnan') in Hsorted.
  pose proof (Permutation_length Hperm') as Hlen.
  set (n := if len embeddings <? topN then len embeddings else topN).
  assert (Hn : n = Z.min topN (len embeddings)).
  { unfold n. destruct (len embeddings <? topN) eqn:E;
      [apply Z.ltb_lt in E | apply Z.ltb_ge in E]; lia. }
  assert (Hn0 : (n <? 0) = false) by (apply Z.ltb_ge; unfold len in *; lia).
  cbv zeta. fold n. rewrite Hn0.
  assert (Hfit : (0 + Z.to_nat n <= length (map (score_of emb) sorted))%nat).
  { rewrite length_map, <- Hlen. unfold len in *. lia. }
  rewrite (findSimilar_res_ok _ _ 0%nat Hfit). simpl outcome.
  rewrite drop_0, <- (fmap_take (score_of emb)), map_map. simpl.
  exists (take (Z.to_nat n) sorted), (drop (Z.to_nat n) sorted).
  rewrite take_drop. repeat split; auto.
  - unfold len in *. rewrite length_take. lia.
  - intros Hnd.
    assert (NoDup (map openai.Index sorted)) as Hnd'
      by (rewrite <- Hperm'; exact Hnd).
    rewrite <- (take_drop (Z.to_nat n) sorted), map_app in Hnd'.
    apply NoDup_app in Hnd'. tauto.
Qed.

End FindSimilarTop.

(** ** Traces of the retrieval *)

Section Retrieval.

Context {OtherFields : Type}.
Variable cfg : Config.
Variable world : @World OtherFields.
Variable slices_SortFunc : (Score -> Score -> Z) -> list Score -> list Score.

Abbreviation Run := (@M OtherFields).

Lemma silent_ret {A} (a : A) : silent (ret a : Run A).
Proof. reflexivity. Qed.

Lemma silent_panic {A} (msg : string) : silent (panic msg : Run A).
Proof. reflexivity. Qed.

Lemma silent_index {A} (l : list A) (i : Z) : silent (index l i : Run A).
Proof. unfold index. destruct (at_index l i); reflexivity. Qed.

Lemma silent_bind {A B} (m : Run A) (k : A -> Run B) :
  silent m -> (forall a, silent (k a)) -> silent (bind m k).
Proof.
  unfold silent. intros Hm Hk. rewrite trace_bind, Hm.
  destruct (outcome m); [apply Hk | reflexivity].
Qed.

Ltac silence :=
  repeat (first [ apply silent_ret | apply silent_panic | apply silent_index
                | apply silent_bind; [| intros ?] ]).

Lemma silent_findSimilar_res (scores : list Score) (n : nat) :
  forall i, silent (findSimilar_res scores i n : Run (list Z)).
Proof.
  induction n as [| n IH]; intros i; simpl; silence. apply IH.
Qed.

Lemma silent_RunRAG_candidates (docs : list Document) (resEmb : list Z) :
  silent (RunRAG_candidates docs resEmb : Run _).
Proof. induction resEmb as [| idx rest IH]; simpl; silence. exact IH. Qed.

Lemma silent_RunRAG_reranked (docIds : list Z) (results : list RerankResult) :
  silent (RunRAG_reranked docIds results : Run _).
Proof. induction results as [| v rest IH]; simpl; silence. exact IH. Qed.

Lemma silent_RunRAG_format (g : Globals) (docIdsRerank : list Z) :
  forall i result, silent (RunRAG_format g i docIdsRerank result : Run _).
Proof.
  induction docIdsRerank as [| docId rest IH]; intros i result; simpl; silence.
  apply IH.
Qed.

(** A silent run is its outcome. *)
Lemma silent_eq {A} (m : Run A) : silent m -> m = ([], outcome m).
Proof. destruct m as [tr e]. unfold silent. simpl. intros ->. reflexivity. Qed.

(** [findSimilar] makes exactly one call: the embedding of the query. *)
Lemma findSimilar_trace (query : string) (embeddings : list openai.Embedding)
    (topN : Z) :
  trace (findSimilar cfg world slices_SortFunc query embeddings topN)
  = [EvCreateEmbeddings (embedding_request cfg [query])].
Proof.
  unfold findSimilar. rewrite trace_bind, calcEmbeddings_trace by discriminate.
  destruct (outcome (calcEmbeddings cfg world [query])) as [[embs | err] | msg];
    try reflexivity.
  cbv zeta.
  match goal with |- _ ++ trace ?m = _ => assert (Hs : silent m) end.
  { silence. destruct (openai.DotProduct _ _); silence.
    destruct (f32.leb _ _); silence.
    destruct (findSimilar_scores _ _ _ _); silence.
    destruct (_ <? 0); silence. apply silent_findSimilar_res. }
  unfold silent in Hs. rewrite Hs. reflexivity.
Qed.

(** [rerank] makes exactly one call. *)
Lemma rerank_trace (question : string) (summaries : list string) :
  trace (rerank cfg world question summaries (TopRerank cfg))
  = [EvRerank cfg question summaries].
Proof.
  unfold rerank. rewrite trace_emit_bind.
  fold (rerank_request cfg question summaries).
  destruct (http_Do world _) as [resp | err]; [| reflexivity].
  destruct (negb _); [reflexivity |]. destruct (Body resp); reflexivity.
Qed.

(** The calls of [RunRAG]: the embedding of the question and, unless the
    run ended before, the rerank of the candidates' summaries; a run that
    returns a context has made both. *)
Lemma RunRAG_trace (g : Globals) (question : string) :
  trace (RunRAG cfg world slices_SortFunc g question)
  = [EvCreateEmbeddings (embedding_request cfg [question])]
  /\ (forall result,
        outcome (RunRAG cfg world slices_SortFunc g question)
        <> Return (Ok result))
  \/ exists summaries,
      trace (RunRAG cfg world slices_SortFunc g question)
      = [EvCreateEmbeddings (embedding_request cfg [question]);
         EvRerank cfg question summaries].
Proof.
  unfold RunRAG.
  pose proof (findSimilar_trace question (allEmbeddings g) (TopEmb cfg)) as Hfs.
  destruct (findSimilar cfg world slices_SortFunc question (allEmbeddings g)
              (TopEmb cfg)) as [tr [[resEmb | err] | msg]];
    simpl in Hfs; subst tr;
    try (left; split; [reflexivity | discriminate]).
  rewrite bind_Return. cbv beta iota.
  rewrite (silent_eq _ (silent_RunRAG_candidates (allDocuments g) resEmb)).
  destruct (outcome (RunRAG_candidates (allDocuments g) resEmb))
    as [[docIds summaries] | msg];
    [| left; split; [reflexivity | discriminate]].
  right. exists summaries.
  rewrite bind_Return. cbv beta iota.
  pose proof (rerank_trace question summaries) as Hrr.
  destruct (rerank cfg world question summaries (TopRerank cfg))
    as [tr [[resRerank | err] | msg]]; simpl in Hrr; subst tr;
    try reflexivity.
  rewrite bind_Return. cbv beta iota.
  rewrite (silent_eq _ (silent_RunRAG_reranked docIds (Results resRerank))).
  destruct (outcome (RunRAG_reranked docIds (Results resRerank)))
    as [docIdsRerank | msg]; [| reflexivity].
  rewrite bind_Return. cbv beta iota.
  match goal with
  | |- context [RunRAG_format g 0 docIdsRerank ?r] =>
      rewrite (silent_eq _ (silent_RunRAG_format g docIdsRerank 0 r));
      destruct (outcome (RunRAG_format g 0 docIdsRerank r))
  end; reflexivity.
Qed.

End Retrieval.

(** ** The chat handler *)

Section ChatHandler.

Context {OtherFields : Type}.
Variable cfg : Config.
Variable world : @World OtherFields.
Variable slices_SortFunc : (Score -> Score -> Z) -> list Score -> list Score.
Variable g : Globals.

Abbreviation handler := (chatApiHandler cfg world slices_SortFunc g).
Abbreviation retrieve := (RunRAG cfg world slices_SortFunc g).

(** The streaming loop: every frame goes out wrapped, in order; then the
    upstream's final error is read, and answered with an error response
    unless it is [io.EOF]. *)
Lemma c_Stream_run (frames : list string) (final : error) :
  @c_Stream OtherFields frames final
  = (concat (map forwarded frames)
       ++ EvRecvRaw :: (if is_EOF final then []
                        else [EvJSON http_StatusInternalServerError (Error final)]),
     Return tt).
Proof.
  induction frames as [| buf rest IH]; simpl.
  - destruct (is_EOF final); reflexivity.
  - rewrite IH. reflexivity.
Qed.

(** The handler after a successful binding, stage by stage. *)
Lemma chatApiHandler_stages (request : openai.ChatCompletionRequest OtherFields)
    (first : openai.ChatCompletionMessage) (more : list openai.ChatCompletionMessage) :
  openai.Messages request = first :: more ->
  handler (Ok request) =
  (emit (EvCreateChatCompletion 60 (summarize_request cfg request)) ;;;
   match CreateChatCompletion world (summarize_request cfg request) with
   | Err err => c_JSON http_StatusInternalServerError err
   | Ok response =>
       choice <- index (openai.Choices response) 0 ;;
       let question := openai.Content (openai.Message choice) in
       r <- retrieve question ;;
       match r with
       | Err err => c_JSON http_StatusInternalServerError err
       | Ok result =>
           emit (EvCreateChatCompletionStream 300
                   (answer_request cfg request question result)) ;;;
           match CreateChatCompletionStream world
                   (answer_request cfg request question result) with
           | Err err => c_JSON http_StatusInternalServerError err
           | Ok streamResponse =>
               emit (EvSetHeader "Content-Type" "text/event-stream") ;;;
               emit (EvSetHeader "Cache-Control" "no-cache") ;;;
               emit (EvSetHeader "Connection" "keep-alive") ;;;
               c_Stream (openai.frames streamResponse)
                        (openai.final streamResponse) ;;;
               emit (EvWrite done_frame)
           end
       end
   end).
Proof.
  intros Hmsgs. unfold chatApiHandler, answer_request, kept_system_prompt.
  rewrite Hmsgs. change (index (first :: more) 0) with (@ret OtherFields _ first).
  rewrite bind_ret_l. reflexivity.
Qed.

(** A run in which every stage succeeds. *)
Lemma chatApiHandler_success (request : openai.ChatCompletionRequest OtherFields)
    (first : openai.ChatCompletionMessage) (more : list openai.ChatCompletionMessage)
    (response : openai.ChatCompletionResponse)
    (choice : openai.ChatCompletionChoice) (others : list openai.ChatCompletionChoice)
    (result : string) (stream : openai.ChatCompletionStream) :
  let question := openai.Content (openai.Message choice) in
  openai.Messages request = first :: more ->
  CreateChatCompletion world (summarize_request cfg request) = Ok response ->
  openai.Choices response = choice :: others ->
  outcome (retrieve question) = Return (Ok result) ->
  CreateChatCompletionStream world (answer_request cfg request question result)
  = Ok stream ->
  handler (Ok request) =
  (EvCreateChatCompletion 60 (summarize_request cfg request)
     :: trace (retrieve question)
     ++ EvCreateChatCompletionStream 300 (answer_request cfg request question result)
     :: sse_headers
     ++ trace (@c_Stream OtherFields (openai.frames stream) (openai.final stream))
     ++ [EvWrite done_frame],
   Return tt).
Proof.
  intros question Hmsgs Hresp Hchoice Hrag Hstream.
  rewrite (chatApiHandler_stages request first more Hmsgs).
  rewrite Hresp, Hchoice.
  change (index (choice :: others) 0) with (@ret OtherFields _ choice).
  rewrite bind_ret_l. cbv zeta. fold question.
  destruct (retrieve question) as [tr r]. simpl in Hrag. subst r. simpl trace.
  rewrite bind_Return. cbv beta iota. rewrite Hstream.
  rewrite c_Stream_run. reflexivity.
Qed.

(** C8.  A bound request without messages makes the handler panic on the
    index of the first message, before it has written any response. *)
Theorem chatApiHandler_empty_messages_panic
    (request : openai.ChatCompletionRequest OtherFields) :
  openai.Messages request = [] ->
  handler (Ok request) = ([], Panic "runtime error: index out of range").
Proof. intros Hmsgs. unfold chatApiHandler. rewrite Hmsgs. reflexivity. Qed.

(** When the first message is not a system message, the final call goes out
    with an empty system message. *)
Lemma answer_request_without_system_prompt
    (request : openai.ChatCompletionRequest OtherFields)
    (first : openai.ChatCompletionMessage) (more : list openai.ChatCompletionMessage)
    (question result : string) :
  openai.Messages request = first :: more ->
  openai.Role first <> openai.ChatMessageRoleSystem ->
  openai.Messages (answer_request cfg request question result)
  = [ {| openai.Role := openai.ChatMessageRoleSystem; openai.Content := EmptyString |};
      {| openai.Role := openai.ChatMessageRoleUser;
         openai.Content := answer_prompt question result |} ].
Proof.
  intros Hmsgs Hrole. unfold answer_request, kept_system_prompt. rewrite Hmsgs.
  apply String.eqb_neq in Hrole. rewrite Hrole. reflexivity.
Qed.

(** C2.  For the messages [system "Be terse"; user "What is X?"], a run in
    which every stage succeeds makes, in this order: the summarization call,
    whose transcript holds the user message alone; the two calls of the
    retrieval, for the synthesized question; and the final streamed call,
    whose system message is "Be terse" and whose user message holds the
    synthesized question and the retrieved context. *)
Theorem chat_end_to_end (request : openai.ChatCompletionRequest OtherFields)
    (response : openai.ChatCompletionResponse)
    (choice : openai.ChatCompletionChoice) (others : list openai.ChatCompletionChoice)
    (result : string) (stream : openai.ChatCompletionStream) :
  let question := openai.Content (openai.Message choice) in
  openai.Messages request
  = [ {| openai.Role := "system"; openai.Content := "Be terse" |};
      {| openai.Role := "user"; openai.Content := "What is X?" |} ] ->
  CreateChatCompletion world (summarize_request cfg request) = Ok response ->
  openai.Choices response = choice :: others ->
  outcome (retrieve question) = Return (Ok result) ->
  CreateChatCompletionStream world (answer_request cfg request question result)
  = Ok stream ->
  exists summaries,
    trace (handler (Ok request))
    = [ EvCreateChatCompletion 60 (summarize_request cfg request);
        EvCreateEmbeddings (embedding_request cfg [question]);
        EvRerank cfg question summaries;
        EvCreateChatCompletionStream 300
          (answer_request cfg request question result) ]
      ++ sse_headers
      ++ trace (@c_Stream OtherFields (openai.frames stream) (openai.final stream))
      ++ [EvWrite done_frame]
    /\ openai.Messages (summarize_request cfg request)
       = [ {| openai.Role := "system"; openai.Content := summarize_instruction |};
           {| openai.Role := "user";
              openai.Content := "1. [role=user] What is X?" +:+ newline +:+ newline |} ]
    /\ openai.Stream (summarize_request cfg request) = false
    /\ openai.Messages (answer_request cfg request question result)
       = [ {| openai.Role := "system"; openai.Content := "Be terse" |};
           {| openai.Role := "user";
              openai.Content :=
                "请根据以下检索到的信息，回答用户的原始问题：" +:+ question
                  +:+ newline +:+ newline +:+ result |} ]
    /\ openai.Stream (answer_request cfg request question result) = true.
Proof.
  intros question Hmsgs Hresp Hchoice Hrag Hstream.
  destruct (RunRAG_trace cfg world slices_SortFunc g question)
    as [[_ Hnot] | [summaries Htr]]; [destruct (Hnot result Hrag) |].
  exists summaries.
  rewrite (chatApiHandler_success request _ _ response choice others result stream
             Hmsgs Hresp Hchoice Hrag Hstream).
  fold question. simpl trace at 1. rewrite Htr.
  unfold summarize_request, answer_request, kept_system_prompt.
  rewrite Hmsgs. repeat split; reflexivity.
Qed.

(** The streaming stage of a run in which every earlier stage succeeded:
    the frames go out wrapped and in order; then, whatever the upstream's
    final error is, the terminal frame is written, after the error response
    when there is one. *)
Lemma chatApiHandler_streaming (request : openai.ChatCompletionRequest OtherFields)
    (first : openai.ChatCompletionMessage) (more : list openai.ChatCompletionMessage)
    (response : openai.ChatCompletionResponse)
    (choice : openai.ChatCompletionChoice) (others : list openai.ChatCompletionChoice)
    (result : string) (stream : openai.ChatCompletionStream) :
  let question := openai.Content (openai.Message choice) in
  openai.Messages request = first :: more ->
  CreateChatCompletion world (summarize_request cfg request) = Ok response ->
  openai.Choices response = choice :: others ->
  outcome (retrieve question) = Return (Ok result) ->
  CreateChatCompletionStream world (answer_request cfg request question result)
  = Ok stream ->
  exists before_streaming,
    trace (handler (Ok request))
    = before_streaming
      ++ concat (map forwarded (openai.frames stream))
      ++ EvRecvRaw
      :: (if is_EOF (openai.final stream) then []
          else [EvJSON http_StatusInternalServerError (Error (openai.final stream))])
      ++ [EvWrite done_frame].
Proof.
  intros question Hmsgs Hresp Hchoice Hrag Hstream.
  rewrite (chatApiHandler_success request _ _ response choice others result stream
             Hmsgs Hresp Hchoice Hrag Hstream).
  fold question. rewrite c_Stream_run. simpl trace.
  exists (EvCreateChatCompletion 60 (summarize_request cfg request)
            :: trace (retrieve question)
            ++ EvCreateChatCompletionStream 300
                 (answer_request cfg request question result)
            :: sse_headers).
  simpl. rewrite <- ?app_assoc. simpl. rewrite <- ?app_assoc. reflexivity.
Qed.

Lemma Forall_retrieval_trace (request : openai.ChatCompletionRequest OtherFields)
    (question : string) :
  Forall (call_keeps_fields cfg request) (trace (retrieve question)).
Proof.
  destruct (RunRAG_trace cfg world slices_SortFunc g question)
    as [[-> _] | [summaries ->]]; repeat constructor.
Qed.

Lemma Forall_c_Stream_trace (request : openai.ChatCompletionRequest OtherFields)
    (frames : list string) (final : error) :
  Forall (call_keeps_fields cfg request) (trace (@c_Stream OtherFields frames final)).
Proof.
  rewrite c_Stream_run. simpl. apply Forall_app. split.
  - induction frames as [| buf rest IH]; simpl; repeat constructor. exact IH.
  - destruct (is_EOF final); repeat constructor.
Qed.

(** C10.  In every run of the handler, each completion call carries the
    caller's request with only [Model], [Stream] and [Messages] replaced:
    the summarization call has the configured model and no streaming, the
    final call the caller's model and streaming, and both have the caller's
    other fields.  The summarization call is made as soon as the request
    has a message. *)
Theorem chatApiHandler_keeps_other_fields
    (request : openai.ChatCompletionRequest OtherFields) :
  Forall (call_keeps_fields cfg request) (trace (handler (Ok request))) /\
  (openai.Messages request <> [] ->
   exists rest,
     trace (handler (Ok request))
     = EvCreateChatCompletion 60 (summarize_request cfg request) :: rest /\
     keeps_other_fields request (summarize_request cfg request)) /\
  (forall question result,
     keeps_other_fields request (answer_request cfg request question result)).
Proof.
  split; [| split].
  - destruct (openai.Messages request) as [| first more] eqn:Hmsgs.
    { unfold chatApiHandler. rewrite Hmsgs. constructor. }
    rewrite (chatApiHandler_stages request first more Hmsgs).
    rewrite trace_emit_bind. constructor; [repeat split |].
    destruct (CreateChatCompletion world _) as [response | err];
      [| repeat constructor].
    rewrite trace_bind, (silent_index (openai.Choices response) 0).
    destruct (outcome (index _ _)) as [choice | msg]; [| constructor].
    cbv zeta. rewrite app_nil_l, trace_bind.
    pose proof (Forall_retrieval_trace request
                  (openai.Content (openai.Message choice))) as Hrag.
    destruct (outcome (retrieve _)) as [[result | err] | msg]; [| | exact Hrag].
    + apply Forall_app. split; [exact Hrag |].
      rewrite trace_emit_bind. constructor; [repeat split |].
      destruct (CreateChatCompletionStream world _) as [stream | err];
        [| repeat constructor].
      rewrite !trace_emit_bind. do 3 (constructor; [exact I |]).
      rewrite trace_bind.
      pose proof (Forall_c_Stream_trace request (openai.frames stream)
                    (openai.final stream)) as Hst.
      destruct (outcome (c_Stream _ _)); [| exact Hst].
      apply Forall_app. split; [exact Hst | repeat constructor].
    + apply Forall_app. split; [exact Hrag | repeat constructor].
  - intros Hne. destruct (openai.Messages request) as [| first more] eqn:Hmsgs;
      [contradiction |].
    rewrite (chatApiHandler_stages request first more Hmsgs).
    rewrite trace_emit_bind. eexists. split; [reflexivity | repeat split].
  - intros question result. repeat split.
Qed.

End ChatHandler.

(** ** [RunRAG] and the indices of the remote answers *)

Lemma at_index_In {A} (l : list A) (i : Z) (a : A) :
  at_index l i = Some a -> In a l.
Proof.
  unfold at_index. destruct (_ && _); [| discriminate].
  intros H. apply list_elem_of_In. eapply list_elem_of_lookup_2. exact H.
Qed.


Section RemoteIndices.

Context {OtherFields : Type}.
Variable cfg : Config.
Variable world : @World OtherFields.
Variable slices_SortFunc : (Score -> Score -> Z) -> list Score -> list Score.






End RemoteIndices.

(** ** [Init]: the two manifests *)

Lemma Init_titles_app (before after : list string) (titles : gmap Z string) :
  Init_titles (before ++ after) titles
  = Init_titles after (Init_titles before titles).
Proof.
  revert titles. induction before as [| line rest IH]; intros titles; simpl;
    [reflexivity |].
  destruct (strings_SplitN_2 line ":") as [| s0 [| s1 [| ? ?]]]; try apply IH.
  destruct (strconv_Atoi s0); apply IH.
Qed.

Lemma Init_titles_bad_id (line : string) (err : error) (rest : list string)
    (titles : gmap Z string) :
  bad_id line err -> Init_titles (line :: rest) titles = Init_titles rest titles.
Proof. intros (s0 & s1 & Hsplit & Hid). simpl. rewrite Hsplit, Hid. reflexivity. Qed.

Section InitScan.

Context {OtherFields : Type}.
Variable cfg : Config.
Variable world : @World OtherFields.

Abbreviation scan := (@Init_scan OtherFields cfg world).

Lemma Init_scan_no_separator (titles : gmap Z string) (line : string)
    (rest : list string) (st : ScanState) :
  no_separator line -> scan titles (line :: rest) st = scan titles rest st.
Proof.
  unfold no_separator. intros Hcut. simpl. unfold strings_SplitN_2.
  rewrite Hcut. reflexivity.
Qed.

Lemma Init_scan_bad_id (titles : gmap Z string) (line : string) (err : error)
    (rest : list string) (st : ScanState) :
  bad_id line err -> scan titles (line :: rest) st = ret (Some err, st).
Proof. intros (s0 & s1 & Hsplit & Hid). simpl. rewrite Hsplit, Hid. reflexivity. Qed.

(** The loop over a list of lines, cut in two. *)
Lemma Init_scan_app (titles : gmap Z string) (before after : list string) :
  forall st,
    scan titles (before ++ after) st
    = bind (scan titles before st) (Init_scan_resume cfg world titles after).
Proof.
  induction before as [| line rest IH]; intros st.
  - exact (eq_sym (bind_ret_l (None, st) (Init_scan_resume cfg world titles after))).
  - cbn [app Init_scan].
    destruct (strings_SplitN_2 line ":") as [| s0 [| s1 [| ? ?]]]; try apply IH.
    destruct (strconv_Atoi s0) as [docId | err];
      [| exact (eq_sym (bind_ret_l (Some err, st)
                          (Init_scan_resume cfg world titles after)))].
    rewrite bind_assoc. apply bind_ext. intros _.
    destruct (os_ReadFile world _) as [content | err];
      [apply IH
      | exact (eq_sym (bind_ret_l (Some err, st)
                        (Init_scan_resume cfg world titles after)))].
Qed.

(** The loop does not panic, and leaves [allEmbeddings] alone. *)
Lemma Init_scan_returns (titles : gmap Z string) (lines : list string) :
  forall st, exists r st',
    outcome (scan titles lines st) = Return (r, st') /\
    allEmbeddings (globals st') = allEmbeddings (globals st).
Proof.
  induction lines as [| line rest IH]; intros st; [simpl; eauto | cbn [Init_scan]].
  destruct (strings_SplitN_2 line ":") as [| s0 [| s1 [| ? ?]]]; try apply IH.
  destruct (strconv_Atoi s0) as [docId | err]; [| simpl; eauto].
  rewrite outcome_emit_bind.
  destruct (os_ReadFile world _) as [content | err]; [| simpl; eauto].
  match goal with |- context [scan titles rest ?s] => destruct (IH s) as (r & st' & Hr & Hemb) end.
  exists r, st'. split; [exact Hr | rewrite Hemb; reflexivity].
Qed.

(** A line with a bad id anywhere among the lines ends the loop with an
    error. *)
Lemma Init_scan_aborts (titles : gmap Z string) (lines : list string)
    (line : string) (err : error) :
  In line lines -> bad_id line err ->
  forall st, exists err' st',
    outcome (scan titles lines st) = Return (Some err', st') /\
    allEmbeddings (globals st') = allEmbeddings (globals st).
Proof.
  intros Hin Hbad. induction lines as [| l rest IH]; [destruct Hin |].
  intros st. destruct Hin as [-> | Hin].
  - rewrite (Init_scan_bad_id titles line err rest st Hbad). simpl. eauto.
  - specialize (IH Hin). cbn [Init_scan].
    destruct (strings_SplitN_2 l ":") as [| s0 [| s1 [| ? ?]]]; try apply IH.
    destruct (strconv_Atoi s0) as [docId | err0]; [| simpl; eauto].
    rewrite outcome_emit_bind.
    destruct (os_ReadFile world _) as [content | err0]; [| simpl; eauto].
    match goal with
    | |- context [scan titles rest ?s] =>
        destruct (IH s) as (err' & st' & Hr & Hemb)
    end.
    exists err', st'. split; [exact Hr | rewrite Hemb; reflexivity].
Qed.

(** C6, as amended.  In the summary manifest a line without the [":"]
    separator is skipped silently, wherever it stands, and loading goes on
    with the lines after it; a line whose id does not parse as an integer
    ends the loading with the parse error, and no line after it is read. *)
Theorem Init_scan_malformed_lines (titles : gmap Z string)
    (before after : list string) (line : string) (st : ScanState) :
  (no_separator line ->
   scan titles (before ++ line :: after) st = scan titles (before ++ after) st) /\
  (forall err, bad_id line err ->
   scan titles (line :: after) st = ret (Some err, st)).
Proof.
  split.
  - intros Hno. rewrite !Init_scan_app. apply bind_ext.
    intros [[err |] st']; [reflexivity |].
    apply Init_scan_no_separator. exact Hno.
  - intros err Hbad. apply Init_scan_bad_id. exact Hbad.
Qed.

(** C7.  A line of the title manifest whose id does not parse is skipped:
    the titles are those of the manifest without the line.  A line of the
    summary manifest whose id does not parse makes [Init] return an error,
    without computing any embedding. *)
Theorem Init_bad_id_asymmetry (line : string) (err : error) :
  bad_id line err ->
  (forall before after titles,
     Init_titles (before ++ line :: after) titles
     = Init_titles (before ++ after) titles) /\
  (forall g file,
     os_Open world (SummaryFile cfg) = Ok file ->
     In line (scan_lines file) ->
     exists err' g',
       outcome (Init cfg world g) = Return (Some err', g') /\
       allEmbeddings g' = allEmbeddings g).
Proof.
  intros Hbad. split.
  - intros before after titles. rewrite !Init_titles_app.
    apply (Init_titles_bad_id line err). exact Hbad.
  - intros g file Hopen Hin. unfold Init. rewrite outcome_emit_bind.
    destruct (match os_ReadFile world _ with
              | Ok files => _
              | Err err0 => _
              end) as [titles | err0]; [| simpl; eauto].
    rewrite outcome_emit_bind, Hopen, outcome_bind.
    match goal with
    | |- context [Init_scan cfg world titles (scan_lines file) ?s] =>
        destruct (Init_scan_aborts titles (scan_lines file) line err Hin Hbad s)
          as (err' & st' & -> & Hemb)
    end.
    simpl. exists err', (globals st'). split; [reflexivity | exact Hemb].
Qed.

End InitScan.

(** * Runs of the example installation *)

(** ** The helpers of [strings], [strconv] and [bufio] *)

Example scan_lines_example :
  scan_lines ("1:a" +:+ String carriage_return newline +:+ newline +:+ "2:b")
  = ["1:a"; EmptyString; "2:b"].
Proof. reflexivity. Qed.

Example strconv_Atoi_example :
  map strconv_Atoi ["7"; "-0"; "+12"; EmptyString; "-"; "1x"; " 1"; "9223372036854775808"]
  = [Ok 7; Ok 0; Ok 12; Err ErrSyntax; Err ErrSyntax; Err ErrSyntax;
     Err ErrSyntax; Err ErrRange].
Proof. vm_compute. reflexivity. Qed.

Example strings_TrimSuffix_example :
  map (fun s => strings_TrimSuffix s ".pdf") ["a.pdf"; "pdf"; ".pdf"; "a.pdf.pdf"]
  = ["a"; "pdf"; EmptyString; "a.pdf"].
Proof. vm_compute. reflexivity. Qed.

Example strings_SplitN_2_example :
  strings_SplitN_2 "a:b:c" ":" = ["a"; "b:c"] /\ strings_SplitN_2 "abc" ":" = ["abc"].
Proof. split; reflexivity. Qed.

(** ** [Init] and [RunRAG] *)

(** [Init] loads the two documents of the example, skipping the title line
    with the id "x" and the summary line without separator. *)
Example Init_example :
  outcome (Init Demo.cfg Demo.world initial_globals)
  = Return (None, Demo.loaded).
Proof. vm_compute. reflexivity. Qed.

Example RunRAG_example :
  RunRAG Demo.cfg Demo.world insertionSortCmpFunc Demo.loaded "What is X?"
  = ([ EvCreateEmbeddings (embedding_request Demo.cfg ["What is X?"]);
       EvRerank Demo.cfg "What is X?" ["report summary"; "invoice summary"] ],
     Return (Ok Demo.context)).
Proof. vm_compute. reflexivity. Qed.

(** ** C1 *)

(** The claim as stated fails: the query vector has a strictly positive
    self-dot-product and the corpus is not empty, yet [findSimilar] returns
    an error and no positions, because the corpus holds a zero vector. *)
Lemma findSimilar_zero_corpus_vector :
  let corpus := [Demo.vec [1; 1] 0; Demo.vec [0; 0] 1] in
  CreateEmbeddings Demo.world (embedding_request Demo.cfg ["q"])
  = Ok [Demo.query_vector] /\
  positive (self_dot Demo.query_vector) /\
  corpus <> [] /\
  outcome (findSimilar Demo.cfg Demo.world insertionSortCmpFunc "q" corpus 2)
  = Return (Err (errors_New "metric embedding 1 is zero")) /\
  (forall positions,
     outcome (findSimilar Demo.cfg Demo.world insertionSortCmpFunc "q" corpus 2)
     <> Return (Ok positions)).
Proof.
  cbv zeta. split; [reflexivity |]. split; [vm_compute; reflexivity |].
  split; [discriminate |]. split; [vm_compute; reflexivity |].
  intros positions H. vm_compute in H. discriminate H.
Qed.

(** The other conditions of the amended claim are needed as well: a
    negative [topN] makes the run panic, a corpus vector of another
    dimension is an error, a score can be NaN, and two corpus vectors
    reported at the same index give the same position twice. *)
Example findSimilar_negative_topN :
  outcome (findSimilar Demo.cfg Demo.world insertionSortCmpFunc "q"
             Demo.corpus_vectors (-1))
  = Panic "runtime error: makeslice: len out of range".
Proof. vm_compute. reflexivity. Qed.

Example findSimilar_other_dimension :
  outcome (findSimilar Demo.cfg Demo.world insertionSortCmpFunc "q"
             [Demo.vec [1; 1; 1] 0] 1)
  = Return (Err openai.ErrVectorLengthMismatch).
Proof. vm_compute. reflexivity. Qed.

(** A score can be NaN although both self-dot-products are strictly
    positive: they overflow to infinity, and so does the dot product. *)
Example cosine_of_huge_vector_is_NaN :
  positive (self_dot Demo.huge_vector) /\
  cosine Demo.huge_vector Demo.huge_vector = S754_nan.
Proof. split; vm_compute; reflexivity. Qed.

Example findSimilar_repeated_index :
  outcome (findSimilar Demo.cfg Demo.world insertionSortCmpFunc "q"
             [Demo.vec [1; 1] 0; Demo.vec [3; 0] 0] 2)
  = Return (Ok [0; 0]).
Proof. vm_compute. reflexivity. Qed.

Lemma findSimilar_top_positions_witness :
  exists ranked rest,
    outcome (findSimilar Demo.cfg Demo.world insertionSortCmpFunc "q"
               Demo.corpus_vectors 1)
    = Return (Ok (map openai.Index ranked)) /\
    Permutation Demo.corpus_vectors (ranked ++ rest) /\
    len ranked = Z.min 1 (len Demo.corpus_vectors) /\
    StronglySorted (fun a b => f32_ge (cosine Demo.query_vector a)
                                      (cosine Demo.query_vector b))
                   (ranked ++ rest) /\
    (NoDup (map openai.Index Demo.corpus_vectors) ->
     NoDup (map openai.Index ranked)).
Proof.
  apply (findSimilar_top_positions Demo.cfg Demo.world insertionSortCmpFunc
           insertionSortCmpFunc_contract "q" Demo.corpus_vectors 1
           Demo.query_vector).
  - reflexivity.
  - vm_compute. reflexivity.
  - repeat constructor; vm_compute; reflexivity.
  - lia.
Defined.

(** ** C3 *)

Lemma calcEmbeddings_one_vector_per_text_witness :
  outcome (calcEmbeddings Demo.cfg Demo.world ["q"])
  = Return (Ok [Demo.query_vector]).
Proof.
  apply (proj1 (proj2 (calcEmbeddings_one_vector_per_text
                         Demo.cfg Demo.world ["q"]
                         ltac:(discriminate)))); reflexivity.
Defined.

(** An endpoint that answers two texts with one vector. *)
Example calcEmbeddings_mismatch :
  outcome (calcEmbeddings Demo.cfg
             (Demo.world_of Demo.summary_manifest [Demo.query_vector]
                               [] Demo.good_stream)
             ["a"; "b"])
  = Return (Err (errors_New "embedding length mismatch")).
Proof. vm_compute. reflexivity. Qed.

(** ** C4 *)

Lemma findSimilar_rejects_zero_vectors_witness :
  exists err,
    outcome (findSimilar Demo.cfg Demo.world insertionSortCmpFunc "q"
               [Demo.vec [1; 1] 0; Demo.vec [0; 0] 1] 2)
    = Return (Err err).
Proof.
  apply (findSimilar_rejects_zero_vectors Demo.cfg Demo.world
           insertionSortCmpFunc "q"
           [Demo.vec [1; 1] 0; Demo.vec [0; 0] 1] 2).
  right. apply Exists_cons_tl, Exists_cons_hd. vm_compute. reflexivity.
Defined.

(** ** C2 *)

Lemma chat_end_to_end_witness :
  exists summaries,
    trace (chatApiHandler Demo.cfg Demo.world insertionSortCmpFunc
             Demo.loaded (Ok Demo.request))
    = [ EvCreateChatCompletion 60 (summarize_request Demo.cfg Demo.request);
        EvCreateEmbeddings (embedding_request Demo.cfg ["What is X?"]);
        EvRerank Demo.cfg "What is X?" summaries;
        EvCreateChatCompletionStream 300
          (answer_request Demo.cfg Demo.request "What is X?" Demo.context) ]
      ++ sse_headers
      ++ trace (@c_Stream unit (openai.frames Demo.good_stream)
                          (openai.final Demo.good_stream))
      ++ [EvWrite done_frame]
    /\ openai.Messages (summarize_request Demo.cfg Demo.request)
       = [ {| openai.Role := "system"; openai.Content := summarize_instruction |};
           {| openai.Role := "user";
              openai.Content := "1. [role=user] What is X?" +:+ newline +:+ newline |} ]
    /\ openai.Stream (summarize_request Demo.cfg Demo.request) = false
    /\ openai.Messages
         (answer_request Demo.cfg Demo.request "What is X?" Demo.context)
       = [ {| openai.Role := "system"; openai.Content := "Be terse" |};
           {| openai.Role := "user";
              openai.Content :=
                "请根据以下检索到的信息，回答用户的原始问题：" +:+ "What is X?"
                  +:+ newline +:+ newline +:+ Demo.context |} ]
    /\ openai.Stream
         (answer_request Demo.cfg Demo.request "What is X?" Demo.context)
       = true.
Proof.
  apply (chat_end_to_end Demo.cfg Demo.world insertionSortCmpFunc
           Demo.loaded Demo.request (Demo.chat_answer "What is X?")
           {| openai.Message := {| openai.Role := "assistant";
                                   openai.Content := "What is X?" |} |}
           [] Demo.context Demo.good_stream).
  - reflexivity.
  - reflexivity.
  - reflexivity.
  - vm_compute. reflexivity.
  - reflexivity.
Defined.

(** ** C5 *)

(** C5.  The upstream sends one frame and then breaks with an error that is
    not [io.EOF]: the handler forwards the frame, writes the error response,
    and then still writes the terminal frame. *)
Theorem chatApiHandler_done_after_stream_error :
  trace (chatApiHandler Demo.cfg
           (Demo.world_of Demo.summary_manifest Demo.corpus_vectors
                             [1; 0] Demo.broken_stream)
           insertionSortCmpFunc Demo.loaded (Ok Demo.request))
  = [ EvCreateChatCompletion 60 (summarize_request Demo.cfg Demo.request);
      EvCreateEmbeddings (embedding_request Demo.cfg ["What is X?"]);
      EvRerank Demo.cfg "What is X?" ["report summary"; "invoice summary"];
      EvCreateChatCompletionStream 300
        (answer_request Demo.cfg Demo.request "What is X?" Demo.context) ]
    ++ sse_headers
    ++ [ EvRecvRaw; EvWrite "data: "; EvWrite "{a}"; EvWrite (newline +:+ newline);
         EvRecvRaw;
         EvJSON http_StatusInternalServerError "unexpected EOF";
         EvWrite done_frame ].
Proof. vm_compute. reflexivity. Qed.

(** The same run with an upstream that ends its stream: after the four
    calls and the three headers, the two frames and the terminal frame. *)
Example chatApiHandler_done_after_end_of_stream :
  drop 7 (trace (chatApiHandler Demo.cfg Demo.world insertionSortCmpFunc
                   Demo.loaded (Ok Demo.request)))
  = forwarded "{a}" ++ forwarded "{b}" ++ [EvRecvRaw; EvWrite done_frame].
Proof. vm_compute. reflexivity. Qed.

(** ** C6 *)

(** The claim as stated fails: the first line of this summary manifest has
    an id that does not parse, and [Init] returns the parse error with no
    document loaded, although the next line is well-formed. *)
Lemma Init_bad_summary_id_aborts :
  outcome (Init Demo.cfg
             (Demo.world_of ("x:notes" +:+ newline +:+ "7:invoice summary" +:+ newline)
                               Demo.corpus_vectors [] Demo.good_stream)
             initial_globals)
  = Return (Some ErrSyntax, initial_globals).
Proof. vm_compute. reflexivity. Qed.

Lemma Init_scan_malformed_lines_witness :
  Init_scan Demo.cfg Demo.world ∅
    (["7:invoice summary"] ++ "no separator here" :: ["9:report summary"])
    {| idx := 0; globals := initial_globals; summaries := [] |}
  = Init_scan Demo.cfg Demo.world ∅
      (["7:invoice summary"] ++ ["9:report summary"])
      {| idx := 0; globals := initial_globals; summaries := [] |}.
Proof.
  apply (proj1 (Init_scan_malformed_lines Demo.cfg Demo.world ∅
                  ["7:invoice summary"] ["9:report summary"]
                  "no separator here"
                  {| idx := 0; globals := initial_globals; summaries := [] |})).
  reflexivity.
Defined.

(** ** C7 *)

Lemma Init_bad_id_asymmetry_witness :
  Init_titles (["7:invoice.pdf"] ++ "x:notes.doc" :: ["9:report.docx"]) ∅
  = Init_titles (["7:invoice.pdf"] ++ ["9:report.docx"]) ∅ /\
  exists err g,
    outcome (Init Demo.cfg
               (Demo.world_of ("7:invoice summary" +:+ newline +:+ "x:notes.doc")
                                 Demo.corpus_vectors [] Demo.good_stream)
               initial_globals)
    = Return (Some err, g) /\
    allEmbeddings g = allEmbeddings initial_globals.
Proof.
  assert (Hbad : bad_id "x:notes.doc" ErrSyntax).
  { exists "x", "notes.doc". split; reflexivity. }
  destruct (Init_bad_id_asymmetry Demo.cfg
              (Demo.world_of ("7:invoice summary" +:+ newline +:+ "x:notes.doc")
                                Demo.corpus_vectors [] Demo.good_stream)
              "x:notes.doc" ErrSyntax Hbad) as [Htitles Hsummary].
  split.
  - apply Htitles.
  - apply (Hsummary initial_globals
             ("7:invoice summary" +:+ newline +:+ "x:notes.doc")).
    + reflexivity.
    + vm_compute. right. left. reflexivity.
Defined.

(** ** C8 *)

Lemma chatApiHandler_empty_messages_panic_witness :
  chatApiHandler Demo.cfg Demo.world insertionSortCmpFunc Demo.loaded
    (Ok (set_Messages [] Demo.request))
  = ([], Panic "runtime error: index out of range").
Proof.
  apply (chatApiHandler_empty_messages_panic Demo.cfg Demo.world
           insertionSortCmpFunc Demo.loaded (set_Messages [] Demo.request)).
  reflexivity.
Defined.

(** ** C9 *)


Example RunRAG_rerank_index_out_of_range :
  outcome (RunRAG Demo.cfg
             (Demo.world_of Demo.summary_manifest Demo.corpus_vectors
                               [2] Demo.good_stream)
             insertionSortCmpFunc Demo.loaded "q")
  = Panic "runtime error: index out of range".
Proof. vm_compute. reflexivity. Qed.

(** Indices that are in range but are not the positions: the corpus vector
    nearest to the query is the second one, reported at index 0, and the
    candidates start with the first document. *)
Example RunRAG_misattributed :
  trace (RunRAG Demo.cfg Demo.world insertionSortCmpFunc
           {| allDocIds := allDocIds Demo.loaded;
              allDocuments := allDocuments Demo.loaded;
              allEmbeddings := [Demo.vec [1; 1] 1; Demo.vec [3; 0] 0] |}
           "q")
  = [ EvCreateEmbeddings (embedding_request Demo.cfg ["q"]);
      EvRerank Demo.cfg "q" ["invoice summary"; "report summary"] ].
Proof. vm_compute. reflexivity. Qed.

(** ** C10 *)

Lemma chatApiHandler_keeps_other_fields_witness :
  Forall (call_keeps_fields Demo.cfg Demo.request)
         (trace (chatApiHandler Demo.cfg Demo.world insertionSortCmpFunc
                   Demo.loaded (Ok Demo.request))) /\
  exists rest,
    trace (chatApiHandler Demo.cfg Demo.world insertionSortCmpFunc
             Demo.loaded (Ok Demo.request))
    = EvCreateChatCompletion 60 (summarize_request Demo.cfg Demo.request)
        :: rest /\
    keeps_other_fields Demo.request
      (summarize_request Demo.cfg Demo.request).
Proof.
  destruct (chatApiHandler_keeps_other_fields Demo.cfg Demo.world
              insertionSortCmpFunc Demo.loaded Demo.request)
    as [Hall [Hfirst _]].
  split; [exact Hall | apply Hfirst; discriminate].
Defined.

(** * Further properties *)

(** ** Strings *)

Lemma append_cons (c : ascii) (s t : string) :
  String c s +:+ t = String c (s +:+ t).
Proof. reflexivity. Qed.

Lemma append_nil_r (s : string) : s +:+ EmptyString = s.
Proof.
  induction s as [| c s IH]; [reflexivity |]. rewrite append_cons, IH.
  reflexivity.
Qed.

Lemma append_assoc (s t u : string) : (s +:+ t) +:+ u = s +:+ (t +:+ u).
Proof.
  induction s as [| c s IH]; [reflexivity |]. rewrite !append_cons, IH.
  reflexivity.
Qed.

(** ** [calcEmbeddings] and [findSimilar], further *)

Section FindSimilarFurther.

Context {OtherFields : Type}.
Variable cfg : Config.
Variable world : @World OtherFields.
Variable slices_SortFunc : (Score -> Score -> Z) -> list Score -> list Score.

(** X1.  [calcEmbeddings] on an empty input fails with "input is empty"
    without calling the endpoint; on any other input it calls the endpoint
    exactly once, whatever comes of it, and hands an error of the endpoint
    on unchanged. *)
Theorem calcEmbeddings_calls (input : list string) :
  (input = [] ->
   calcEmbeddings cfg world input
   = ([], Return (Err (errors_New "input is empty")))) /\
  (input <> [] ->
   trace (calcEmbeddings cfg world input)
   = [EvCreateEmbeddings (embedding_request cfg input)] /\
   forall err,
     CreateEmbeddings world (embedding_request cfg input) = Err err ->
     outcome (calcEmbeddings cfg world input) = Return (Err err)).
Proof.
  split.
  - intros ->. reflexivity.
  - intros Hne. split; [exact (calcEmbeddings_trace cfg world input Hne) |].
    intros err Herr. rewrite (calcEmbeddings_outcome cfg world input Hne), Herr.
    reflexivity.
Qed.

Lemma findSimilar_res_inv (scores : list Score) (n : nat) :
  forall (i : nat) res,
    outcome (@findSimilar_res OtherFields scores (Z.of_nat i) n) = Return res ->
    (n = 0%nat \/ (i + n <= length scores)%nat) /\
    res = map Score_Index (take n (drop i scores)).
Proof.
  induction n as [| n IH]; intros i res; simpl.
  - intros [= <-]. split; [left; reflexivity | reflexivity].
  - unfold index. rewrite at_index_lookup.
    destruct (scores !! i) as [s |] eqn:Hs; [| discriminate].
    rewrite bind_ret_l, outcome_bind.
    replace (Z.of_nat i + 1) with (Z.of_nat (S i)) by lia.
    destruct (outcome (findSimilar_res scores (Z.of_nat (S i)) n))
      as [rest | msg] eqn:Hrest; [| discriminate].
    intros [= <-]. destruct (IH _ _ Hrest) as [Hfit ->].
    pose proof (lookup_lt_Some _ _ _ Hs) as Hlt.
    split; [right; destruct Hfit; lia |].
    rewrite (drop_S _ _ _ Hs). reflexivity.
Qed.

(** A run of [findSimilar] that returns positions has had its one vector
    for the query. *)
Lemma findSimilar_Ok_query (query : string) (embeddings : list openai.Embedding)
    (topN : Z) (res : list Z) :
  outcome (findSimilar cfg world slices_SortFunc query embeddings topN)
  = Return (Ok res) ->
  exists emb, CreateEmbeddings world (embedding_request cfg [query]) = Ok [emb].
Proof.
  intros Hres.
  destruct (CreateEmbeddings world (embedding_request cfg [query]))
    as [[| emb [| ? ?]] | err] eqn:Hdata;
    try (destruct (findSimilar_query_failure cfg world slices_SortFunc
                     query embeddings topN) as [err' Herr];
         [intros emb'; rewrite Hdata; discriminate | congruence]).
  eauto.
Qed.

(** What a run of [findSimilar] that returns positions has done. *)
Lemma findSimilar_Ok_inv (query : string) (embeddings : list openai.Embedding)
    (topN : Z) (res : list Z) :
  outcome (findSimilar cfg world slices_SortFunc query embeddings topN)
  = Return (Ok res) ->
  exists emb scores (count : nat),
    CreateEmbeddings world (embedding_request cfg [query]) = Ok [emb] /\
    findSimilar_scores emb (norm_of (self_dot emb)) 0 embeddings = Ok scores /\
    0 <= topN /\ Z.of_nat count = Z.min topN (len embeddings) /\
    (count <= length (slices_SortFunc cmpScore scores))%nat /\
    res = map Score_Index (take count (slices_SortFunc cmpScore scores)).
Proof.
  intros Hres. destruct (findSimilar_Ok_query _ _ _ _ Hres) as [emb Hemb].
  rewrite (findSimilar_outcome _ _ _ _ _ _ emb Hemb) in Hres.
  destruct (f32.leb _ _); [discriminate |].
  destruct (findSimilar_scores _ _ _ _) as [scores |] eqn:Hscores; [| discriminate].
  cbv zeta in Hres.
  destruct ((if len embeddings <? topN then len embeddings else topN) <? 0)
    eqn:Hneg; [discriminate |].
  destruct (outcome (findSimilar_res _ _ _)) as [res' | msg] eqn:Hfill;
    [| discriminate].
  injection Hres as ->. apply Z.ltb_ge in Hneg.
  change 0 with (Z.of_nat 0) in Hfill.
  apply findSimilar_res_inv in Hfill as [Hfit ->]. rewrite drop_0.
  exists emb, scores, (Z.to_nat (if len embeddings <? topN then len embeddings else topN)).
  repeat split; try assumption; try reflexivity;
    unfold len in *;
    destruct (Z.of_nat (length embeddings) <? topN) eqn:E;
    try apply Z.ltb_lt in E; try apply Z.ltb_ge in E; lia.
Qed.

(** X2.  Whenever [findSimilar] returns positions, [topN] was not negative
    and there are exactly [min(topN, len(embeddings))] of them. *)
Theorem findSimilar_returns_min_positions (query : string)
    (embeddings : list openai.Embedding) (topN : Z) (res : list Z) :
  outcome (findSimilar cfg world slices_SortFunc query embeddings topN)
  = Return (Ok res) ->
  0 <= topN /\ len res = Z.min topN (len embeddings).
Proof.
  intros Hres.
  destruct (findSimilar_Ok_inv _ _ _ _ Hres)
    as (emb & scores & count & _ & _ & Hpos & Hcount & Hfit & ->).
  split; [exact Hpos |].
  unfold len in *. rewrite length_map, length_take. lia.
Qed.

(** The scores of a corpus of scorable vectors. *)
Lemma findSimilar_scores_scorable (emb : openai.Embedding)
    (embeddings : list openai.Embedding) :
  Forall (scorable emb) embeddings ->
  forall i,
    findSimilar_scores emb (norm_of (self_dot emb)) i embeddings
    = Ok (map (score_of emb) embeddings).
Proof.
  induction 1 as [| v rest [Hdim Hpos] _ IH]; intros i; simpl; [reflexivity |].
  rewrite DotProduct_self, Hpos.
  rewrite (DotProduct_same_dimension _ _ Hdim), IH. reflexivity.
Qed.

Lemma findSimilar_scores_app (emb : openai.Embedding) (normA : float32)
    (good rest : list openai.Embedding) :
  forall i scores,
    findSimilar_scores emb normA i good = Ok scores ->
    findSimilar_scores emb normA i (good ++ rest)
    = match findSimilar_scores emb normA (i + len good) rest with
      | Ok more => Ok (scores ++ more)
      | Err err => Err err
      end.
Proof.
  induction good as [| v good IH]; intros i scores; simpl.
  - intros [= <-]. replace (i + len []) with i by (unfold len; simpl; lia).
    destruct (findSimilar_scores emb normA i rest); reflexivity.
  - destruct (openai.DotProduct v v); [| discriminate].
    destruct (f32.leb _ _); [discriminate |].
    destruct (openai.DotProduct emb v); [| discriminate].
    destruct (findSimilar_scores emb normA (i + 1) good) as [tl |] eqn:Htl;
      [| discriminate].
    intros [= <-]. rewrite (IH _ _ Htl).
    replace (i + 1 + len good) with (i + len (v :: good))
      by (unfold len; simpl length; lia).
    destruct (findSimilar_scores emb normA _ rest); reflexivity.
Qed.

(** X3.  The positions for a smaller [topN] are the first positions for a
    larger one: when [findSimilar] returns [res] for [m], it returns the
    first [n] positions of [res] for every [n] between 0 and [m]. *)
Theorem findSimilar_prefix (query : string)
    (embeddings : list openai.Embedding) (n m : Z) (res : list Z) :
  outcome (findSimilar cfg world slices_SortFunc query embeddings m)
  = Return (Ok res) ->
  0 <= n <= m ->
  outcome (findSimilar cfg world slices_SortFunc query embeddings n)
  = Return (Ok (take (Z.to_nat n) res)).
Proof.
  intros Hres Hn. destruct (findSimilar_Ok_query _ _ _ _ Hres) as [emb Hemb].
  rewrite (findSimilar_outcome _ _ _ _ _ m emb Hemb) in Hres.
  rewrite (findSimilar_outcome _ _ _ _ _ n emb Hemb).
  destruct (f32.leb _ _); [discriminate |].
  destruct (findSimilar_scores _ _ _ _) as [scores |]; [| discriminate].
  cbv zeta in Hres |- *.
  set (sorted := slices_SortFunc cmpScore scores) in *.
  set (m' := if len embeddings <? m then len embeddings else m) in *.
  set (n' := if len embeddings <? n then len embeddings else n).
  assert (Hcases : n' = n \/
                   (n' = len embeddings /\ m' = len embeddings /\ len embeddings <= n)).
  { unfold n', m', len.
    destruct (Z.of_nat (length embeddings) <? n) eqn:E1;
      destruct (Z.of_nat (length embeddings) <? m) eqn:E2;
      try apply Z.ltb_lt in E1; try apply Z.ltb_ge in E1;
      try apply Z.ltb_lt in E2; try apply Z.ltb_ge in E2; lia. }
  assert (Hn' : n' <= m').
  { unfold n', m', len.
    destruct (Z.of_nat (length embeddings) <? n) eqn:E1;
      destruct (Z.of_nat (length embeddings) <? m) eqn:E2;
      try apply Z.ltb_lt in E1; try apply Z.ltb_ge in E1;
      try apply Z.ltb_lt in E2; try apply Z.ltb_ge in E2; lia. }
  assert (Hn0 : 0 <= n') by (unfold len in Hcases; lia).
  clearbody n' m'.
  destruct (m' <? 0) eqn:Hneg; [discriminate |]. apply Z.ltb_ge in Hneg.
  destruct (outcome (findSimilar_res sorted 0 (Z.to_nat m')))
    as [res' | msg] eqn:Hfill; [| discriminate].
  injection Hres as <-.
  change 0 with (Z.of_nat 0) in Hfill.
  apply findSimilar_res_inv in Hfill as [Hfit ->]. rewrite drop_0.
  replace (n' <? 0) with false by (symmetry; apply Z.ltb_ge; lia).
  assert (Hfit' : (0 + Z.to_nat n' <= length sorted)%nat \/ Z.to_nat n' = 0%nat).
  { destruct Hfit as [H0 | Hle]; [right | left]; lia. }
  assert (Hrun : outcome (@findSimilar_res OtherFields sorted 0 (Z.to_nat n'))
                 = Return (map Score_Index (take (Z.to_nat n') sorted))).
  { destruct Hfit' as [Hle | H0].
    - change 0 with (Z.of_nat 0).
      rewrite (findSimilar_res_ok sorted _ 0%nat Hle), drop_0. reflexivity.
    - rewrite H0. reflexivity. }
  rewrite Hrun. do 2 f_equal.
  rewrite <- fmap_take. f_equal. rewrite take_take.
  f_equal. unfold len in Hcases. lia.
Qed.

(** X4.  A negative [topN] makes [findSimilar] panic when nothing before
    the allocation of the result fails: the endpoint answers with one
    vector for the query, and the query vector and every corpus vector pass
    the tests of the loop. *)
Theorem findSimilar_negative_topN_panics (query : string)
    (embeddings : list openai.Embedding) (topN : Z) (emb : openai.Embedding) :
  CreateEmbeddings world (embedding_request cfg [query]) = Ok [emb] ->
  f32.leb (self_dot emb) f32.zero = false ->
  Forall (scorable emb) embeddings ->
  topN < 0 ->
  outcome (findSimilar cfg world slices_SortFunc query embeddings topN)
  = Panic "runtime error: makeslice: len out of range".
Proof.
  intros Hemb Hpos Hcorpus Hneg.
  rewrite (findSimilar_outcome _ _ _ _ _ _ emb Hemb), Hpos.
  rewrite (findSimilar_scores_scorable emb embeddings Hcorpus). cbv zeta.
  replace (len embeddings <? topN) with false
    by (symmetry; apply Z.ltb_ge; unfold len; lia).
  replace (topN <? 0) with true by (symmetry; apply Z.ltb_lt; lia).
  reflexivity.
Qed.

(** X5.  The error for a zero vector in the corpus names the position of
    the first vector that fails: when the vectors before it are scorable,
    a vector with zero or negative self-dot-product at position [len good]
    gives "metric embedding <len good> is zero". *)
Theorem findSimilar_names_first_zero_vector (query : string)
    (good rest : list openai.Embedding) (bad : openai.Embedding)
    (topN : Z) (emb : openai.Embedding) :
  CreateEmbeddings world (embedding_request cfg [query]) = Ok [emb] ->
  f32.leb (self_dot emb) f32.zero = false ->
  Forall (scorable emb) good ->
  zero_or_negative (self_dot bad) ->
  outcome (findSimilar cfg world slices_SortFunc query (good ++ bad :: rest) topN)
  = Return (Err (errors_New ("metric embedding " +:+ fmt_d (len good) +:+ " is zero"))).
Proof.
  intros Hemb Hpos Hgood Hbad.
  rewrite (findSimilar_outcome _ _ _ _ _ _ emb Hemb), Hpos.
  rewrite (findSimilar_scores_app _ _ good (bad :: rest) 0 _
             (findSimilar_scores_scorable emb good Hgood 0)).
  simpl findSimilar_scores. rewrite DotProduct_self.
  unfold zero_or_negative in Hbad. rewrite Hbad. reflexivity.
Qed.

(** X6.  A corpus vector of another dimension than the query vector makes
    [findSimilar] fail with the length-mismatch error of [DotProduct], when
    the vectors before it are scorable and its own self-dot-product passes
    the test. *)
Theorem findSimilar_dimension_mismatch (query : string)
    (good rest : list openai.Embedding) (bad : openai.Embedding)
    (topN : Z) (emb : openai.Embedding) :
  CreateEmbeddings world (embedding_request cfg [query]) = Ok [emb] ->
  f32.leb (self_dot emb) f32.zero = false ->
  Forall (scorable emb) good ->
  f32.leb (self_dot bad) f32.zero = false ->
  ~ same_dimension emb bad ->
  outcome (findSimilar cfg world slices_SortFunc query (good ++ bad :: rest) topN)
  = Return (Err openai.ErrVectorLengthMismatch).
Proof.
  intros Hemb Hpos Hgood Hbad Hdim.
  rewrite (findSimilar_outcome _ _ _ _ _ _ emb Hemb), Hpos.
  rewrite (findSimilar_scores_app _ _ good (bad :: rest) 0 _
             (findSimilar_scores_scorable emb good Hgood 0)).
  simpl findSimilar_scores. rewrite DotProduct_self, Hbad.
  unfold openai.DotProduct.
  replace (length (openai.Vector emb) =? length (openai.Vector bad))%nat
    with false by (symmetry; apply Nat.eqb_neq; exact Hdim).
  reflexivity.
Qed.

End FindSimilarFurther.

(** ** The comparison of scores, further *)

Lemma SFltb_asymmetric (x y : spec_float) :
  SFltb x y = true -> SFltb y x = false.
Proof.
  intros Hxy. destruct (SFltb y x) eqn:Hyx; [| reflexivity].
  pose proof (SFltb_trans _ _ _ Hxy Hyx) as H. rewrite SFltb_irrefl in H.
  discriminate H.
Qed.

(** X7.  The comparison function of the sort is antisymmetric on all
    scores, NaN included: swapping the arguments negates the result. *)
Theorem cmpScore_antisymmetric (a b : Score) : cmpScore a b = - cmpScore b a.
Proof.
  unfold cmpScore, f32.ltb.
  destruct (SFltb (Value b) (Value a)) eqn:Hba.
  - rewrite (SFltb_asymmetric _ _ Hba). reflexivity.
  - destruct (SFltb (Value a) (Value b)); reflexivity.
Qed.

(** X8.  With a NaN score next to two scores of different value, the
    comparison function is not a strict weak ordering, which
    [slices.SortFunc] requires: NaN is incomparable to both, and they are
    not incomparable to each other. *)
Theorem cmpScore_NaN_not_strict_weak (scores : list Score) (a b c : Score) :
  In a scores -> In b scores -> In c scores ->
  f32.is_nan (Value c) = true ->
  f32.ltb (Value a) (Value b) = true ->
  ~ StrictWeakOrdering cmpScore scores.
Proof.
  intros Ha Hb Hc Hnan Hab [_ _ Hinc].
  assert (HcNaN : Value c = S754_nan) by (destruct (Value c); try discriminate; reflexivity).
  assert (Hleft : forall x, ~ before cmpScore x c).
  { intros x. rewrite before_cmpScore, HcNaN. unfold f32.ltb.
    rewrite SFltb_nan_l. discriminate. }
  assert (Hright : forall x, ~ before cmpScore c x).
  { intros x. rewrite before_cmpScore, HcNaN. unfold f32.ltb.
    rewrite SFltb_nan_r. discriminate. }
  destruct (Hinc b c a Hb Hc Ha (Hleft b) (Hright b) (Hright a) (Hleft a))
    as [Hba _].
  apply Hba. apply before_cmpScore. exact Hab.
Qed.

(** ** [rerank] and [RunRAG], further *)

Section RetrievalFurther.

Context {OtherFields : Type}.
Variable cfg : Config.
Variable world : @World OtherFields.
Variable slices_SortFunc : (Score -> Score -> Z) -> list Score -> list Score.

(** X9.  [rerank] returns a response exactly when the call answers with
    status 200 and a body that decodes, and then it is the decoded body;
    any other status is an error whose text is the status line, whatever
    the body holds. *)
Theorem rerank_succeeds_iff (query : string) (documents : list string) (topN : Z) :
  let req := {| Model := ModelRerank cfg; Query := query;
                Documents := documents; TopN := topN |} in
  (forall msg,
     outcome (rerank cfg world query documents topN) = Return (Ok msg) <->
     exists resp,
       http_Do world req = Ok resp /\
       StatusCode resp = http_StatusOK /\ Body resp = Ok msg) /\
  (forall resp,
     http_Do world req = Ok resp -> StatusCode resp <> http_StatusOK ->
     outcome (rerank cfg world query documents topN)
     = Return (Err (errors_New (Status resp)))).
Proof.
  intros req. unfold rerank. fold req. split.
  - intros msg. rewrite outcome_emit_bind.
    destruct (http_Do world req) as [resp | err]; simpl.
    + destruct (StatusCode resp =? http_StatusOK) eqn:Hcode; simpl.
      * apply Z.eqb_eq in Hcode. destruct (Body resp) as [body | err] eqn:Hbody;
          simpl; split.
        -- intros [= <-]. exists resp. auto.
        -- intros (resp' & [= <-] & _ & Hb). congruence.
        -- discriminate.
        -- intros (resp' & [= <-] & _ & Hb). congruence.
      * apply Z.eqb_neq in Hcode. split; [discriminate |].
        intros (resp' & [= <-] & Hc & _). contradiction.
    + split; [discriminate |]. intros (resp' & Hd & _). discriminate.
  - intros resp Hresp Hcode. rewrite outcome_emit_bind, Hresp.
    apply Z.eqb_neq in Hcode. rewrite Hcode. reflexivity.
Qed.

(** What the loop over the positions returns. *)
Lemma RunRAG_candidates_inv (docs : list Document) (resEmb : list Z) :
  forall docIds summaries,
    outcome (@RunRAG_candidates OtherFields docs resEmb)
    = Return (docIds, summaries) ->
    exists picked,
      Forall2 (fun idx doc => at_index docs idx = Some doc) resEmb picked /\
      docIds = map DocId picked /\ summaries = map Summary picked.
Proof.
  induction resEmb as [| idx rest IH]; intros docIds summaries; simpl.
  - intros [= <- <-]. exists []. repeat split. constructor.
  - unfold index. destruct (at_index docs idx) as [doc |] eqn:Hdoc;
      [| discriminate].
    rewrite bind_ret_l, outcome_bind.
    destruct (outcome (RunRAG_candidates docs rest)) as [[ids sums] | msg] eqn:Hrest;
      [| discriminate].
    intros [= <- <-]. destruct (IH _ _ eq_refl) as (picked & Hpicked & -> & ->).
    exists (doc :: picked). repeat split. constructor; assumption.
Qed.

Lemma RunRAG_reranked_ok (docIds : list Z) (results : list RerankResult) :
  Forall (fun v => ~ out_of_range docIds (Index v)) results ->
  exists docIdsRerank,
    @RunRAG_reranked OtherFields docIds results = ret docIdsRerank /\
    Forall2 (fun v docId => at_index docIds (Index v) = Some docId)
            results docIdsRerank.
Proof.
  induction 1 as [| v rest Hv _ (ids & Hids & Hall)]; simpl.
  - exists []. split; [reflexivity | constructor].
  - unfold index.
    destruct (at_index docIds (Index v)) as [docId |] eqn:Hdoc.
    + exists (docId :: ids). rewrite bind_ret_l, Hids, bind_ret_l.
      split; [reflexivity | constructor; assumption].
    + exfalso. apply Hv. unfold out_of_range, at_index in *.
      destruct (0 <=? Index v) eqn:E1; destruct (Index v <? len docIds) eqn:E2;
        simpl in Hdoc;
        try apply Z.leb_gt in E1; try apply Z.ltb_ge in E2; try lia.
      apply Z.leb_le in E1. apply Z.ltb_lt in E2.
      apply lookup_ge_None in Hdoc. unfold len in E2. lia.
Qed.

Lemma RunRAG_format_ok (g : Globals) (docIdsRerank : list Z) (docs : list Document) :
  Forall2 (fun docId doc =>
             at_index (allDocuments g) (map_get (allDocIds g) docId) = Some doc)
          docIdsRerank docs ->
  forall i result,
    @RunRAG_format OtherFields g i docIdsRerank result
    = ret (result +:+ context_entries (i + 1) docs).
Proof.
  induction 1 as [| docId doc ids docs Hdoc _ IH]; intros i result; simpl.
  - rewrite append_nil_r. reflexivity.
  - unfold index. rewrite Hdoc, bind_ret_l, IH. unfold context_entry, ret.
    do 2 f_equal.
    destruct (0 <? Z.of_nat (String.length (Title doc)));
      rewrite !append_assoc; reflexivity.
Qed.

(** X10.  A failure of a stage of [RunRAG] ends the run with that error: an
    error of [findSimilar] is returned after the embedding call alone, no
    rerank call made; an error of [rerank] is returned as it is. *)
Theorem RunRAG_propagates_errors (g : Globals) (question : string) :
  (forall err,
     outcome (findSimilar cfg world slices_SortFunc question (allEmbeddings g)
                (TopEmb cfg)) = Return (Err err) ->
     RunRAG cfg world slices_SortFunc g question
     = ([EvCreateEmbeddings (embedding_request cfg [question])], Return (Err err))) /\
  (forall resEmb docIds summaries err,
     outcome (findSimilar cfg world slices_SortFunc question (allEmbeddings g)
                (TopEmb cfg)) = Return (Ok resEmb) ->
     outcome (@RunRAG_candidates OtherFields (allDocuments g) resEmb)
     = Return (docIds, summaries) ->
     outcome (rerank cfg world question summaries (TopRerank cfg))
     = Return (Err err) ->
     outcome (RunRAG cfg world slices_SortFunc g question) = Return (Err err)).
Proof.
  split.
  - intros err Hfs. unfold RunRAG.
    pose proof (findSimilar_trace cfg world slices_SortFunc question
                  (allEmbeddings g) (TopEmb cfg)) as Htr.
    destruct (findSimilar _ _ _ _ _ _) as [tr r]. simpl in Hfs, Htr. subst tr r.
    reflexivity.
  - intros resEmb docIds summaries err Hfs Hcand Hrr.
    unfold RunRAG. rewrite outcome_bind, Hfs, outcome_bind, Hcand.
    cbv beta iota. rewrite outcome_bind, Hrr. reflexivity.
Qed.

(** A rerank call in the trace of [RunRAG] comes after a [findSimilar]
    that returned positions and a loop over them that returned. *)
Lemma RunRAG_rerank_call_inv (g : Globals) (question : string)
    (url authorization : string) (req : RerankRequest) :
  In (@EvPostRerank OtherFields url authorization req)
     (trace (RunRAG cfg world slices_SortFunc g question)) ->
  exists resEmb docIds summaries,
    outcome (findSimilar cfg world slices_SortFunc question (allEmbeddings g)
               (TopEmb cfg)) = Return (Ok resEmb) /\
    outcome (@RunRAG_candidates OtherFields (allDocuments g) resEmb)
    = Return (docIds, summaries) /\
    req = rerank_request cfg question summaries.
Proof.
  unfold RunRAG.
  pose proof (findSimilar_trace cfg world slices_SortFunc question
                (allEmbeddings g) (TopEmb cfg)) as Hfs.
  destruct (findSimilar cfg world slices_SortFunc question (allEmbeddings g)
              (TopEmb cfg)) as [tr [[resEmb | err] | msg]];
    simpl in Hfs; subst tr;
    try (intros [H | []]; discriminate H).
  rewrite bind_Return. cbv beta iota.
  rewrite (silent_eq _ (silent_RunRAG_candidates (allDocuments g) resEmb)).
  destruct (outcome (RunRAG_candidates (allDocuments g) resEmb))
    as [[docIds summaries] | msg] eqn:Hcand;
    try (intros [H | []]; discriminate H).
  rewrite bind_Return. cbv beta iota.
  pose proof (rerank_trace cfg world question summaries) as Hrr.
  intros Hin. exists resEmb, docIds, summaries.
  split; [reflexivity |]. split; [exact Hcand |].
  revert Hin.
  destruct (rerank cfg world question summaries (TopRerank cfg))
    as [tr [[resRerank | err] | msg]]; simpl in Hrr; subst tr;
    try (intros [H | [H | []]]; try discriminate H;
         injection H as _ _ <-; reflexivity).
  rewrite bind_Return. cbv beta iota.
  rewrite (silent_eq _ (silent_RunRAG_reranked docIds (Results resRerank))).
  destruct (outcome (RunRAG_reranked docIds (Results resRerank)))
    as [docIdsRerank | msg];
    try (intros [H | [H | []]]; try discriminate H;
         injection H as _ _ <-; reflexivity).
  rewrite bind_Return. cbv beta iota.
  match goal with
  | |- context [RunRAG_format g 0 docIdsRerank ?r] =>
      rewrite (silent_eq _ (silent_RunRAG_format g docIdsRerank 0 r));
      destruct (outcome (RunRAG_format g 0 docIdsRerank r))
  end;
    intros [H | [H | []]]; try discriminate H;
    injection H as _ _ <-; reflexivity.
Qed.

(** X11.  The request [RunRAG] sends to the rerank endpoint holds the
    question as query, the configured model and [TopRerank], and as
    documents the summaries of documents of the corpus, as many as
    [min(TopEmb, len(allEmbeddings))]. *)
Theorem RunRAG_rerank_request (g : Globals) (question : string)
    (url authorization : string) (req : RerankRequest) :
  In (@EvPostRerank OtherFields url authorization req)
     (trace (RunRAG cfg world slices_SortFunc g question)) ->
  Query req = question /\ Model req = ModelRerank cfg /\
  TopN req = TopRerank cfg /\
  Forall (fun s => exists doc, In doc (allDocuments g) /\ Summary doc = s)
         (Documents req) /\
  len (Documents req) = Z.min (TopEmb cfg) (len (allEmbeddings g)).
Proof.
  intros Hin.
  destruct (RunRAG_rerank_call_inv g question url authorization req Hin)
    as (resEmb & docIds & summaries & Hfs & Hcand & ->).
  destruct (RunRAG_candidates_inv _ _ _ _ Hcand) as (picked & Hpicked & _ & ->).
  simpl. repeat split.
  - apply List.Forall_forall. intros s Hs.
    apply in_map_iff in Hs as (doc & <- & Hdoc).
    exists doc. split; [| reflexivity].
    apply list_elem_of_In in Hdoc.
    destruct (proj1 (list_elem_of_lookup _ _) Hdoc) as [i Hi].
    destruct (Forall2_lookup_r _ _ _ _ _ Hpicked Hi) as (idx & _ & Hat).
    exact (at_index_In _ _ _ Hat).
  - destruct (findSimilar_Ok_inv cfg world slices_SortFunc _ _ _ _ Hfs)
      as (emb & scores & count & _ & _ & _ & Hcount & Hfit & Hres).
    unfold len. rewrite length_map, <- (Forall2_length _ _ _ Hpicked), Hres.
    rewrite length_map, length_take. unfold len in Hcount. lia.
Qed.

(** X12.  With remote indices in range and a corpus whose id table leads to
    documents, [RunRAG] returns a context and does not panic: the count
    line for as many documents as the rerank answer has results, then, for
    each result in order, the ordinal, the title if any, and the content of
    the document found through the candidate's id. *)
Theorem RunRAG_context (g : Globals) (question : string)
    (resEmb docIds : list Z) (summaries : list string) (resRerank : RerankResponse) :
  outcome (findSimilar cfg world slices_SortFunc question (allEmbeddings g)
             (TopEmb cfg)) = Return (Ok resEmb) ->
  outcome (@RunRAG_candidates OtherFields (allDocuments g) resEmb)
  = Return (docIds, summaries) ->
  outcome (rerank cfg world question summaries (TopRerank cfg))
  = Return (Ok resRerank) ->
  Forall (fun v => ~ out_of_range docIds (Index v)) (Results resRerank) ->
  ids_indexed g ->
  exists docs,
    outcome (RunRAG cfg world slices_SortFunc g question)
    = Return (Ok (context_of docs)) /\
    Forall2 (fun v doc =>
               exists docId,
                 at_index docIds (Index v) = Some docId /\
                 at_index (allDocuments g) (map_get (allDocIds g) docId)
                 = Some doc)
            (Results resRerank) docs.
Proof.
  intros Hfs Hcand Hrr Hrange Hidx.
  destruct (RunRAG_candidates_inv _ _ _ _ Hcand) as (picked & Hpicked & -> & _).
  destruct (RunRAG_reranked_ok (map DocId picked) (Results resRerank) Hrange)
    as (ids & Hids & Hall).
  assert (Hdocs : exists docs,
    Forall2 (fun v doc =>
               exists docId,
                 at_index (map DocId picked) (Index v) = Some docId /\
                 at_index (allDocuments g) (map_get (allDocIds g) docId)
                 = Some doc)
            (Results resRerank) docs /\
    Forall2 (fun docId doc =>
               at_index (allDocuments g) (map_get (allDocIds g) docId) = Some doc)
            ids docs).
  { clear Hids Hrange. induction Hall as [| v docId vs ids Hv Hall IH].
    - exists []. split; constructor.
    - destruct IH as (docs & H1 & H2).
      assert (Hdoc : exists doc,
        at_index (allDocuments g) (map_get (allDocIds g) docId) = Some doc).
      { unfold map_get. destruct (allDocIds g !! docId) as [pos |] eqn:Hpos.
        - destruct (Hidx docId pos Hpos) as (doc & Hdoc & _). eauto.
        - apply at_index_In, in_map_iff in Hv as (doc & _ & Hdoc).
          apply list_elem_of_In in Hdoc.
          destruct (proj1 (list_elem_of_lookup _ _) Hdoc) as [i Hi].
          destruct (Forall2_lookup_r _ _ _ _ _ Hpicked Hi) as (idx & _ & Hat).
          apply at_index_In in Hat.
          destruct (allDocuments g) as [| first others]; [destruct Hat |].
          exists first. reflexivity. }
      destruct Hdoc as [doc Hdoc]. exists (doc :: docs).
      split; constructor; eauto. }
  destruct Hdocs as (docs & Hres & Hfmt). exists docs. split; [| exact Hres].
  unfold RunRAG. rewrite outcome_bind, Hfs, outcome_bind, Hcand.
  cbv beta iota. rewrite outcome_bind, Hrr, Hids, bind_ret_l.
  rewrite (RunRAG_format_ok g ids docs Hfmt), bind_ret_l. simpl outcome.
  unfold context_of, context_header, len.
  rewrite (Forall2_length _ _ _ Hfmt). reflexivity.
Qed.

End RetrievalFurther.

(** ** [Init], further *)

Lemma at_index_app_l {A} (l k : list A) (i : Z) (a : A) :
  at_index l i = Some a -> at_index (l ++ k) i = Some a.
Proof.
  unfold at_index, len. intros H.
  destruct (0 <=? i) eqn:E1; [| discriminate].
  destruct (i <? Z.of_nat (length l)) eqn:E2; [| discriminate].
  simpl in H. apply Z.ltb_lt in E2. apply Z.leb_le in E1.
  replace (i <? Z.of_nat (length (l ++ k))) with true
    by (symmetry; apply Z.ltb_lt; rewrite length_app; lia).
  simpl. rewrite lookup_app_l by lia. exact H.
Qed.

Lemma at_index_app_last {A} (l : list A) (a : A) :
  at_index (l ++ [a]) (len l) = Some a.
Proof.
  unfold len. rewrite at_index_lookup.
  rewrite lookup_app_r by lia. rewrite Nat.sub_diag. reflexivity.
Qed.

Lemma Init_titles_other_id (line : string) (v : Z) (rest : list string)
    (titles : gmap Z string) :
  ~ names_id line v ->
  Init_titles (line :: rest) titles !! v
  = Init_titles rest titles !! v \/
  exists titles',
    Init_titles (line :: rest) titles = Init_titles rest titles' /\
    titles' !! v = titles !! v.
Proof.
  intros Hnot. simpl.
  destruct (strings_SplitN_2 line ":") as [| s0 [| s1 [| ? ?]]] eqn:Hsplit;
    try (left; reflexivity).
  destruct (strconv_Atoi s0) as [w |] eqn:Hid; [| left; reflexivity].
  right. eexists. split; [reflexivity |].
  apply lookup_insert_ne. intros ->. apply Hnot. exists s0, s1. auto.
Qed.

Lemma Init_titles_frame (lines : list string) (v : Z) :
  Forall (fun line => ~ names_id line v) lines ->
  forall titles, Init_titles lines titles !! v = titles !! v.
Proof.
  induction 1 as [| line rest Hline _ IH]; intros titles; [reflexivity |].
  destruct (Init_titles_other_id line v rest titles Hline)
    as [-> | (titles' & -> & <-)]; apply IH.
Qed.

(** X13.  In the title manifest the last line that names an id decides its
    title: the title of [v] is the file name of that line without the
    known suffixes, whatever the lines before it hold. *)
Theorem Init_titles_last_line_wins (before after : list string)
    (line s0 s1 : string) (v : Z) (titles : gmap Z string) :
  strings_SplitN_2 line ":" = [s0; s1] ->
  strconv_Atoi s0 = Ok v ->
  Forall (fun l => ~ names_id l v) after ->
  Init_titles (before ++ line :: after) titles !! v = Some (title_of s1).
Proof.
  intros Hsplit Hid Hafter. rewrite Init_titles_app. simpl.
  rewrite Hsplit, Hid. rewrite (Init_titles_frame after v Hafter).
  apply lookup_insert_eq.
Qed.

Lemma prefix_substring_0 (s : string) :
  forall n, String.prefix (substring 0 n s) s = true.
Proof.
  induction s as [| c s IH]; intros [| n]; simpl; try reflexivity.
  destruct (ascii_dec c c) as [_ | Hne]; [apply IH | contradiction].
Qed.

Lemma prefix_refl (s : string) : String.prefix s s = true.
Proof.
  induction s as [| c s IH]; simpl; [reflexivity |].
  destruct (ascii_dec c c) as [_ | Hne]; [exact IH | contradiction].
Qed.

Lemma prefix_trans (a : string) :
  forall b c, String.prefix a b = true -> String.prefix b c = true ->
              String.prefix a c = true.
Proof.
  induction a as [| x a IH]; intros [| y b] [| z c]; simpl; try discriminate;
    try reflexivity.
  destruct (ascii_dec x y) as [-> | ?]; [| discriminate].
  destruct (ascii_dec y z) as [-> | ?]; [| discriminate].
  apply IH.
Qed.

Lemma prefix_length (a : string) :
  forall b, String.prefix a b = true -> (String.length a <= String.length b)%nat.
Proof.
  induction a as [| x a IH]; intros [| y b]; simpl; try discriminate; try lia.
  destruct (ascii_dec x y); [| discriminate]. intros H. apply IH in H. lia.
Qed.

Lemma strings_TrimSuffix_prefix (s suffix : string) :
  String.prefix (strings_TrimSuffix s suffix) s = true.
Proof.
  unfold strings_TrimSuffix.
  destruct (strings_HasSuffix s suffix);
    [apply prefix_substring_0 | apply prefix_refl].
Qed.

(** X14.  The title [Init] makes of a file name is an initial part of the
    file name, and a file name that ends in none of the known suffixes is
    its own title. *)
Theorem title_of_prefix (name : string) :
  String.prefix (title_of name) name = true /\
  (Forall (fun suffix => strings_HasSuffix name suffix = false) title_suffixes ->
   title_of name = name).
Proof.
  unfold title_of. split.
  - generalize title_suffixes. intros suffixes.
    assert (H : forall t, String.prefix t name = true ->
                          String.prefix (fold_left strings_TrimSuffix suffixes t) name
                          = true).
    { induction suffixes as [| suffix rest IH]; intros t Ht; simpl; [exact Ht |].
      apply IH. exact (prefix_trans _ _ _ (strings_TrimSuffix_prefix t suffix) Ht). }
    apply H, prefix_refl.
  - generalize title_suffixes. intros suffixes.
    induction 1 as [| suffix rest Hno _ IH]; simpl; [reflexivity |].
    unfold strings_TrimSuffix at 2. rewrite Hno. exact IH.
Qed.

Section InitFurther.

Context {OtherFields : Type}.
Variable cfg : Config.
Variable world : @World OtherFields.

Abbreviation scan_run := (@Init_scan OtherFields cfg world).

Lemma ids_indexed_insert (g : Globals) (doc : Document) :
  ids_indexed g ->
  ids_indexed
    {| allDocIds := <[DocId doc := len (allDocuments g)]> (allDocIds g);
       allDocuments := allDocuments g ++ [doc];
       allEmbeddings := allEmbeddings g |}.
Proof.
  intros Hidx docId pos. simpl. rewrite lookup_insert.
  destruct (decide (DocId doc = docId)) as [<- | Hne].
  - intros [= <-]. exists doc. split; [apply at_index_app_last | reflexivity].
  - intros Hpos. destruct (Hidx docId pos Hpos) as (d & Hd & Hid).
    exists d. split; [apply at_index_app_l; exact Hd | exact Hid].
Qed.

Lemma scan_invariant_step (st : ScanState) (doc : Document) :
  scan_invariant st ->
  scan_invariant
    {| idx := idx st + 1;
       globals :=
         {| allDocIds := <[DocId doc := idx st]> (allDocIds (globals st));
            allDocuments := allDocuments (globals st) ++ [doc];
            allEmbeddings := allEmbeddings (globals st) |};
       summaries := summaries st ++ [Summary doc] |}.
Proof.
  intros (Hidx & Hsum & Hids & Hall). unfold scan_invariant. simpl.
  split; [| split; [| split]].
  - unfold len in *. rewrite length_app. simpl. lia.
  - rewrite Hsum, map_app. reflexivity.
  - rewrite Hidx. apply ids_indexed_insert. exact Hids.
  - apply Forall_app. split.
    + eapply Forall_impl; [exact Hall |]. cbv beta. intros d Hd.
      rewrite lookup_insert. destruct (decide (DocId doc = DocId d)); eauto.
    + constructor; [| constructor]. rewrite lookup_insert_eq. eauto.
Qed.

(** The loop keeps [scan_invariant], and every document it adds has an id
    that parses from its line and a title taken from [titles]. *)
Lemma Init_scan_invariant (titles : gmap Z string) (lines : list string) :
  forall st r st',
    scan_invariant st ->
    outcome (scan_run titles lines st) = Return (r, st') ->
    scan_invariant st'.
Proof.
  induction lines as [| line rest IH]; intros st r st' Hinv; cbn [Init_scan].
  - intros [= _ <-]. exact Hinv.
  - destruct (strings_SplitN_2 line ":") as [| s0 [| s1 [| ? ?]]];
      try (apply IH; exact Hinv).
    destruct (strconv_Atoi s0) as [docId | err];
      [| intros [= _ <-]; exact Hinv].
    rewrite outcome_emit_bind.
    destruct (os_ReadFile world _) as [content | err];
      [| intros [= _ <-]; exact Hinv].
    apply IH.
    exact (scan_invariant_step st
             {| DocId := docId;
                Title := match titles !! docId with
                         | Some title => title
                         | None => EmptyString
                         end;
                Content := content; Summary := s1 |} Hinv).
Qed.


(** [Init] after the title manifest. *)
Lemma Init_outcome (g : Globals) :
  outcome (Init cfg world g) =
  match loaded_titles cfg world with
  | Err err => Return (Some err, g)
  | Ok titles =>
      match os_Open world (SummaryFile cfg) with
      | Err err => Return (Some err, g)
      | Ok file =>
          match outcome (scan_run titles (scan_lines file) (scan_start g)) with
          | Panic msg => Panic msg
          | Return (Some err, st) => Return (Some err, globals st)
          | Return (None, st) =>
              match outcome (calcEmbeddings cfg world (summaries st)) with
              | Panic msg => Panic msg
              | Return (Err err) => Return (Some err, globals st)
              | Return (Ok embs) =>
                  Return (None, {| allDocIds := allDocIds (globals st);
                                   allDocuments := allDocuments (globals st);
                                   allEmbeddings := embs |})
              end
          end
      end
  end.
Proof.
  unfold Init, loaded_titles, files_path. rewrite outcome_emit_bind.
  destruct (match os_ReadFile world _ with
            | Ok files => _
            | Err err0 => _
            end) as [titles | err0]; [| reflexivity].
  rewrite outcome_emit_bind.
  destruct (os_Open world (SummaryFile cfg)) as [file | err]; [| reflexivity].
  rewrite outcome_bind. fold (scan_start g).
  destruct (outcome (scan_run titles (scan_lines file) (scan_start g)))
    as [[[err |] st] | msg]; try reflexivity.
  rewrite outcome_bind.
  destruct (outcome (calcEmbeddings cfg world (summaries st)))
    as [[embs | err] | msg]; reflexivity.
Qed.

Lemma scan_invariant_start (g : Globals) :
  allDocuments g = [] -> scan_invariant (scan_start g).
Proof.
  intros Hempty. unfold scan_invariant, scan_start. simpl. rewrite Hempty.
  repeat split; try constructor.
  intros docId pos. simpl. rewrite lookup_empty. discriminate.
Qed.

Lemma calcEmbeddings_Ok_inv (input : list string) (embs : list openai.Embedding) :
  outcome (calcEmbeddings cfg world input) = Return (Ok embs) ->
  input <> [] /\ length embs = length input /\
  CreateEmbeddings world (embedding_request cfg input) = Ok embs.
Proof.
  intros H. destruct input as [| text rest]; [discriminate H |].
  rewrite calcEmbeddings_outcome in H by discriminate.
  destruct (CreateEmbeddings world _) as [data | err]; [| discriminate].
  destruct (len data =? len (text :: rest)) eqn:Hlen; [| discriminate].
  apply len_eqb_length in Hlen. injection H as ->.
  split; [discriminate |]. split; [exact Hlen | reflexivity].
Qed.

(** X15.  When [main] gets past [Init], the corpus it serves is aligned:
    there is at least one document, there are as many embeddings as
    documents, the embeddings are what the endpoint answered for the
    documents' summaries in order, every entry of the id table leads to a
    document with that id, and every document's id is in the table. *)
Theorem main_startup_aligned (g : Globals) :
  outcome (main_startup cfg world) = Return (Ok g) ->
  allDocuments g <> [] /\
  len (allEmbeddings g) = len (allDocuments g) /\
  CreateEmbeddings world
    (embedding_request cfg (map Summary (allDocuments g)))
  = Ok (allEmbeddings g) /\
  ids_indexed g /\
  Forall (fun doc => is_Some (allDocIds g !! DocId doc)) (allDocuments g).
Proof.
  unfold main_startup. rewrite outcome_bind, Init_outcome.
  destruct (loaded_titles cfg world) as [titles | err]; [| discriminate].
  destruct (os_Open world (SummaryFile cfg)) as [file | err]; [| discriminate].
  destruct (outcome (scan_run titles (scan_lines file) (scan_start initial_globals)))
    as [[[err |] st] | msg] eqn:Hscan; try discriminate.
  destruct (outcome (calcEmbeddings cfg world (summaries st)))
    as [[embs | err] | msg] eqn:Hemb; try discriminate.
  intros [= <-]. simpl.
  destruct (Init_scan_invariant titles (scan_lines file) _ _ _
              (scan_invariant_start initial_globals eq_refl) Hscan)
    as (Hidx & Hsum & Hids & Hall).
  destruct (calcEmbeddings_Ok_inv _ _ Hemb) as (Hne & Hlen & Hcall).
  rewrite Hsum in Hne, Hlen, Hcall.
  repeat split.
  - intros Hnil. rewrite Hnil in Hne. apply Hne. reflexivity.
  - unfold len. rewrite Hlen, length_map. reflexivity.
  - exact Hcall.
  - intros docId pos Hpos. exact (Hids docId pos Hpos).
  - exact Hall.
Qed.

Lemma Init_scan_all_skipped (titles : gmap Z string) (lines : list string)
    (st : ScanState) :
  Forall no_separator lines -> scan_run titles lines st = ret (None, st).
Proof.
  induction 1 as [| line rest Hline _ IH]; [reflexivity |].
  rewrite (Init_scan_no_separator cfg world titles line rest st Hline).
  exact IH.
Qed.

(** X16.  A summary manifest in which no line has a separator, an empty
    one included, makes [Init] fail with "input is empty": no document is
    loaded and the embedding endpoint is not called. *)
Theorem Init_empty_manifest_fails (g : Globals) (titles : gmap Z string)
    (file : string) :
  loaded_titles cfg world = Ok titles ->
  os_Open world (SummaryFile cfg) = Ok file ->
  Forall no_separator (scan_lines file) ->
  Init cfg world g
  = ([EvReadFile (files_path cfg); EvOpen (SummaryFile cfg)],
     Return (Some (errors_New "input is empty"), globals (scan_start g))).
Proof.
  unfold loaded_titles, files_path. intros Htitles Hopen Hlines.
  unfold Init. rewrite Htitles, Hopen. fold (scan_start g).
  rewrite (Init_scan_all_skipped titles (scan_lines file) (scan_start g) Hlines).
  reflexivity.
Qed.




End InitFurther.

(** ** The chat handler, further *)

Lemma chatHistory_loop_app (before after : list openai.ChatCompletionMessage) :
  forall i acc,
    chatHistory_loop i (before ++ after) acc
    = chatHistory_loop (i + len before) after (chatHistory_loop i before acc).
Proof.
  induction before as [| msg rest IH]; intros i acc; simpl.
  - replace (i + len []) with i by (unfold len; simpl; lia). reflexivity.
  - replace (i + len (msg :: rest)) with (i + 1 + len rest)
      by (unfold len; simpl length; lia).
    destruct (String.eqb (openai.Role msg) openai.ChatMessageRoleSystem);
      apply IH.
Qed.

Lemma chatHistory_loop_acc (messages : list openai.ChatCompletionMessage) :
  forall i acc,
    chatHistory_loop i messages acc
    = acc +:+ chatHistory_loop i messages EmptyString.
Proof.
  induction messages as [| msg rest IH]; intros i acc; simpl.
  - rewrite append_nil_r. reflexivity.
  - destruct (String.eqb (openai.Role msg) openai.ChatMessageRoleSystem);
      [apply IH |].
    rewrite IH. rewrite (IH (i + 1) (EmptyString +:+ _)).
    rewrite !append_assoc. reflexivity.
Qed.

(** X19.  The transcript of the summarization call, around any one message:
    the transcript of the messages before it, then the line
    [<position>. [role=<role>] <content>] of the message, numbered by its
    position in the request, unless it is a system message, which adds
    nothing wherever it stands, then the transcript of the messages after
    it. *)
Theorem chatHistory_loop_message (before after : list openai.ChatCompletionMessage)
    (msg : openai.ChatCompletionMessage) :
  chatHistory_loop 0 (before ++ msg :: after) EmptyString
  = chatHistory_loop 0 before EmptyString
    +:+ (if is_system msg then EmptyString else transcript_line (len before) msg)
    +:+ chatHistory_loop (len before + 1) after EmptyString.
Proof.
  rewrite chatHistory_loop_app. simpl chatHistory_loop at 1. unfold is_system.
  rewrite Z.add_0_l.
  destruct (String.eqb (openai.Role msg) openai.ChatMessageRoleSystem).
  - rewrite chatHistory_loop_acc. reflexivity.
  - rewrite chatHistory_loop_acc. unfold transcript_line.
    rewrite !append_assoc. reflexivity.
Qed.

Lemma chatHistory_loop_system (messages : list openai.ChatCompletionMessage) :
  Forall (fun msg => is_system msg = true) messages ->
  forall i acc, chatHistory_loop i messages acc = acc.
Proof.
  induction 1 as [| msg rest Hmsg _ IH]; intros i acc; simpl; [reflexivity |].
  unfold is_system in Hmsg. rewrite Hmsg. apply IH.
Qed.

Lemma trace_pair {OtherFields A : Type} (tr : list (@Event OtherFields))
    (e : exit A) : trace (tr, e) = tr.
Proof. reflexivity. Qed.

Section ChatHandlerFurther.

Context {OtherFields : Type}.
Variable cfg : Config.
Variable world : @World OtherFields.
Variable slices_SortFunc : (Score -> Score -> Z) -> list Score -> list Score.
Variable g : Globals.

Abbreviation chat := (chatApiHandler cfg world slices_SortFunc g).
Abbreviation rag := (RunRAG cfg world slices_SortFunc g).

(** X20.  A request that holds system messages only still goes to the
    summarization model, with an empty transcript as its user message. *)
Theorem chatApiHandler_system_only (request : openai.ChatCompletionRequest OtherFields) :
  openai.Messages request <> [] ->
  Forall (fun msg => is_system msg = true) (openai.Messages request) ->
  exists rest,
    trace (chat (Ok request))
    = EvCreateChatCompletion 60 (summarize_request cfg request) :: rest /\
    openai.Messages (summarize_request cfg request)
    = [ {| openai.Role := openai.ChatMessageRoleSystem;
           openai.Content := summarize_instruction |};
        {| openai.Role := openai.ChatMessageRoleUser;
           openai.Content := EmptyString |} ].
Proof.
  intros Hne Hall.
  destruct (openai.Messages request) as [| first more] eqn:Hmsgs;
    [contradiction |].
  rewrite (chatApiHandler_stages cfg world slices_SortFunc g request first more Hmsgs).
  rewrite trace_emit_bind. eexists. split; [reflexivity |].
  unfold summarize_request. simpl openai.Messages. rewrite Hmsgs.
  rewrite (chatHistory_loop_system (first :: more) Hall). reflexivity.
Qed.

(** X21.  An answer of the summarization model without choices makes the
    handler panic on the index of the first choice, after the call and
    before any response is written. *)
Theorem chatApiHandler_empty_choices_panic
    (request : openai.ChatCompletionRequest OtherFields)
    (response : openai.ChatCompletionResponse) :
  openai.Messages request <> [] ->
  CreateChatCompletion world (summarize_request cfg request) = Ok response ->
  openai.Choices response = [] ->
  chat (Ok request)
  = ([EvCreateChatCompletion 60 (summarize_request cfg request)],
     Panic "runtime error: index out of range").
Proof.
  intros Hne Hresp Hchoices.
  destruct (openai.Messages request) as [| first more] eqn:Hmsgs;
    [contradiction |].
  rewrite (chatApiHandler_stages cfg world slices_SortFunc g request first more Hmsgs).
  rewrite Hresp, Hchoices. reflexivity.
Qed.

Lemma rag_trace_quiet (question : string) :
  written (trace (rag question)) = EmptyString /\
  error_responses (trace (rag question)) = [] /\
  Forall (fun ev => ~ touches_response ev) (trace (rag question)).
Proof.
  destruct (RunRAG_trace cfg world slices_SortFunc g question)
    as [[-> _] | [summaries ->]]; repeat split; repeat constructor; auto.
Qed.

Lemma written_app (tr tr' : list (@Event OtherFields)) :
  written (tr ++ tr') = written tr +:+ written tr'.
Proof.
  induction tr as [| ev tr IH]; [reflexivity |].
  destruct ev; simpl; rewrite IH; try reflexivity.
  rewrite append_assoc. reflexivity.
Qed.

Lemma error_responses_app (tr tr' : list (@Event OtherFields)) :
  error_responses (tr ++ tr') = error_responses tr ++ error_responses tr'.
Proof.
  induction tr as [| ev tr IH]; [reflexivity |].
  destruct ev; simpl; rewrite IH; reflexivity.
Qed.

(** X22.  A failure before the stream starts, be it of the summarization
    call, of the retrieval or of the opening of the final call, ends the
    run with exactly one error response, of status 500 with the text of the
    error; no header is set and nothing is written to the body. *)
Theorem chatApiHandler_failure_before_stream
    (request : openai.ChatCompletionRequest OtherFields) (err : error) :
  openai.Messages request <> [] ->
  CreateChatCompletion world (summarize_request cfg request) = Err err \/
  (exists response choice others,
     CreateChatCompletion world (summarize_request cfg request) = Ok response /\
     openai.Choices response = choice :: others /\
     (outcome (rag (openai.Content (openai.Message choice))) = Return (Err err) \/
      exists result,
        outcome (rag (openai.Content (openai.Message choice)))
        = Return (Ok result) /\
        CreateChatCompletionStream world
          (answer_request cfg request
             (openai.Content (openai.Message choice)) result) = Err err)) ->
  outcome (chat (Ok request)) = Return tt /\
  error_responses (trace (chat (Ok request)))
  = [(http_StatusInternalServerError, Error err)] /\
  Forall (fun ev => ~ touches_response ev) (trace (chat (Ok request))).
Proof.
  intros Hne Hfail.
  destruct (openai.Messages request) as [| first more] eqn:Hmsgs;
    [contradiction |].
  rewrite (chatApiHandler_stages cfg world slices_SortFunc g request first more Hmsgs).
  destruct Hfail as [Hsum | (response & choice & others & Hsum & Hchoice & Hrest)];
    rewrite Hsum.
  - repeat split. repeat constructor; auto.
  - rewrite Hchoice.
    change (index (choice :: others) 0) with (@ret OtherFields _ choice).
    rewrite bind_ret_l. cbv zeta.
    set (question := openai.Content (openai.Message choice)) in *.
    destruct (rag_trace_quiet question) as (Hw & He & Hq).
    destruct (rag question) as [tr r]. simpl in Hw, He, Hq, Hrest.
    destruct Hrest as [-> | (result & -> & Hstream)].
    + unfold emit, c_JSON. rewrite !bind_Return. simpl.
      rewrite error_responses_app, He. repeat split.
      constructor; [auto |]. apply Forall_app. split; [exact Hq |].
      repeat constructor; auto.
    + unfold emit, c_JSON. rewrite !bind_Return. cbv beta iota.
      rewrite Hstream. simpl.
      rewrite error_responses_app, He. repeat split.
      constructor; [auto |]. apply Forall_app. split; [exact Hq |].
      repeat constructor; auto.
Qed.

Lemma c_Stream_makes_no_call (frames : list string) (final : error)
    (timeout : Z) (r : openai.ChatCompletionRequest OtherFields) :
  ~ In (EvCreateChatCompletionStream timeout r)
       (trace (@c_Stream OtherFields frames final)).
Proof.
  rewrite c_Stream_run. simpl trace. intros Hin.
  apply in_app_or in Hin as [Hin | Hin].
  - induction frames as [| buf rest IH]; [destruct Hin |].
    simpl in Hin.
    destruct Hin as [H | [H | [H | [H | Hin]]]]; try discriminate H.
    exact (IH Hin).
  - destruct (is_EOF final); simpl in Hin;
      [destruct Hin as [H | []] | destruct Hin as [H | [H | []]]];
      discriminate H.
Qed.

(** X23.  The stages run in order: the final, streamed call is in the trace
    only when the summarization call returned a choice and the retrieval
    for the question of that choice returned a context; the call then has
    the timeout of 300 seconds and carries that question and that
    context. *)
Theorem chatApiHandler_stream_call_inv
    (request : openai.ChatCompletionRequest OtherFields)
    (timeout : Z) (r : openai.ChatCompletionRequest OtherFields) :
  In (EvCreateChatCompletionStream timeout r) (trace (chat (Ok request))) ->
  timeout = 300 /\
  exists response choice others result,
    CreateChatCompletion world (summarize_request cfg request) = Ok response /\
    openai.Choices response = choice :: others /\
    outcome (rag (openai.Content (openai.Message choice))) = Return (Ok result) /\
    r = answer_request cfg request (openai.Content (openai.Message choice)) result.
Proof.
  destruct (openai.Messages request) as [| first more] eqn:Hmsgs.
  { unfold chatApiHandler. rewrite Hmsgs. intros []. }
  rewrite (chatApiHandler_stages cfg world slices_SortFunc g request first more Hmsgs).
  rewrite trace_emit_bind. intros [H | Hin]; [discriminate H |].
  destruct (CreateChatCompletion world (summarize_request cfg request))
    as [response | err]; [| destruct Hin as [H | []]; discriminate H].
  destruct (openai.Choices response) as [| choice others] eqn:Hchoices;
    [destruct Hin |].
  change (index (choice :: others) 0) with (@ret OtherFields _ choice) in Hin.
  rewrite bind_ret_l in Hin. cbv zeta in Hin.
  set (question := openai.Content (openai.Message choice)) in *.
  assert (Hquiet : ~ In (EvCreateChatCompletionStream timeout r)
                        (trace (rag question))).
  { destruct (RunRAG_trace cfg world slices_SortFunc g question)
      as [[-> _] | [summaries ->]];
      [intros [H | []] | intros [H | [H | []]]]; discriminate H. }
  destruct (rag question) as [tr [[result | err] | msg]] eqn:Hrag; simpl in Hquiet.
  - rewrite bind_Return in Hin. cbv beta iota in Hin. rewrite trace_pair in Hin.
    apply in_app_or in Hin as [Hin | Hin]; [contradiction |].
    rewrite trace_emit_bind in Hin. destruct Hin as [H | Hin].
    + injection H as <- <-. split; [reflexivity |].
      exists response, choice, others, result.
      repeat split; try reflexivity;
        first [exact Hchoices | fold question; rewrite Hrag; reflexivity].
    + exfalso.
      destruct (CreateChatCompletionStream world _) as [stream | err];
        [| destruct Hin as [H | []]; discriminate H].
      rewrite !trace_emit_bind in Hin.
      destruct Hin as [H | [H | [H | Hin]]]; try discriminate H.
      rewrite trace_bind in Hin.
      pose proof (c_Stream_makes_no_call (openai.frames stream)
                    (openai.final stream) timeout r) as Hno.
      destruct (outcome (c_Stream _ _)); [| contradiction].
      apply in_app_or in Hin as [Hin | [H | []]];
        [contradiction | discriminate H].
  - rewrite bind_Return in Hin. cbv beta iota in Hin. rewrite trace_pair in Hin.
    apply in_app_or in Hin as [Hin | [H | []]];
      [contradiction | discriminate H].
  - simpl in Hin. contradiction.
Qed.

Lemma written_forwarded (frames : list string) :
  written (concat (map (@forwarded OtherFields) frames)) = sse_frames frames.
Proof.
  induction frames as [| buf rest IH]; [reflexivity |].
  simpl. rewrite IH. unfold sse_frame. rewrite !append_assoc. reflexivity.
Qed.

Lemma error_responses_forwarded (frames : list string) :
  error_responses (concat (map (@forwarded OtherFields) frames)) = [].
Proof. induction frames as [| buf rest IH]; [reflexivity | exact IH]. Qed.

(** X24.  When every stage succeeds and the upstream ends its stream, the
    body of the response is exactly the upstream frames, each between
    ["data: "] and a blank line, in order, followed by the terminal frame;
    the run makes no error response. *)
Theorem chatApiHandler_body_on_end_of_stream
    (request : openai.ChatCompletionRequest OtherFields)
    (response : openai.ChatCompletionResponse)
    (choice : openai.ChatCompletionChoice) (others : list openai.ChatCompletionChoice)
    (result : string) (stream : openai.ChatCompletionStream) :
  let question := openai.Content (openai.Message choice) in
  openai.Messages request <> [] ->
  CreateChatCompletion world (summarize_request cfg request) = Ok response ->
  openai.Choices response = choice :: others ->
  outcome (rag question) = Return (Ok result) ->
  CreateChatCompletionStream world (answer_request cfg request question result)
  = Ok stream ->
  openai.final stream = io_EOF ->
  outcome (chat (Ok request)) = Return tt /\
  written (trace (chat (Ok request)))
  = sse_frames (openai.frames stream) +:+ done_frame /\
  error_responses (trace (chat (Ok request))) = [].
Proof.
  intros question Hne Hresp Hchoice Hrag Hstream Hfinal.
  destruct (openai.Messages request) as [| first more] eqn:Hmsgs;
    [contradiction |].
  rewrite (chatApiHandler_success cfg world slices_SortFunc g request first more
             response choice others result stream Hmsgs Hresp Hchoice Hrag Hstream).
  fold question. destruct (rag_trace_quiet question) as (Hw & He & _).
  rewrite c_Stream_run, Hfinal. simpl outcome. simpl trace.
  split; [reflexivity |]. split.
  - simpl written. rewrite written_app, Hw. simpl written.
    rewrite !written_app, written_forwarded. simpl written.
    rewrite append_nil_r. reflexivity.
  - simpl error_responses. rewrite error_responses_app, He. simpl.
    rewrite !error_responses_app, error_responses_forwarded. reflexivity.
Qed.

End ChatHandlerFurther.

(** ** The tool entry point *)

Section ToolHandler.

Context {OtherFields : Type}.
Variable cfg : Config.
Variable world : @World OtherFields.
Variable slices_SortFunc : (Score -> Score -> Z) -> list Score -> list Score.
Variable g : Globals.

(** X25.  The tool entry point: when the arguments cannot be read it calls
    nothing and writes no result; otherwise it makes the calls of the
    retrieval for the question, writes the context exactly when the
    retrieval returns one, and writes no result when the retrieval returns
    an error. *)
Theorem Handler_result (read : result LLMArguments) :
  (forall err, read = Err err ->
     Handler cfg world slices_SortFunc g read = ([], Return None)) /\
  (forall msg, read = Ok msg ->
     trace (Handler cfg world slices_SortFunc g read)
     = trace (RunRAG cfg world slices_SortFunc g (Question msg)) /\
     (forall result,
        outcome (Handler cfg world slices_SortFunc g read) = Return (Some result)
        <-> outcome (RunRAG cfg world slices_SortFunc g (Question msg))
            = Return (Ok result)) /\
     (forall err,
        outcome (RunRAG cfg world slices_SortFunc g (Question msg))
        = Return (Err err) ->
        outcome (Handler cfg world slices_SortFunc g read) = Return None)).
Proof.
  split.
  - intros err ->. reflexivity.
  - intros msg ->. unfold Handler.
    destruct (RunRAG cfg world slices_SortFunc g (Question msg))
      as [tr [[result | err] | text]]; simpl; rewrite ?app_nil_r;
      repeat split; try congruence; try discriminate;
      intros H; injection H as ->; reflexivity.
Qed.

End ToolHandler.

(** ** Manifest lines and ids *)

Lemma strings_Cut_Some (sep : ascii) (s : string) :
  forall before after,
    strings_Cut s sep = Some (before, after) ->
    s = before +:+ String sep after /\ ~ occurs sep before.
Proof.
  induction s as [| c s IH]; intros before after; simpl; [discriminate |].
  destruct (Ascii.eqb c sep) eqn:Hc.
  - apply Ascii.eqb_eq in Hc. subst c. intros [= <- <-].
    split; [reflexivity | simpl; tauto].
  - apply Ascii.eqb_neq in Hc.
    destruct (strings_Cut s sep) as [[b a] |]; [| discriminate].
    intros [= <- <-]. destruct (IH b a eq_refl) as [Heq Hno].
    split; [rewrite append_cons, <- Heq; reflexivity |]. simpl. tauto.
Qed.

Lemma occurs_append_sep (sep : ascii) (before after : string) :
  occurs sep (before +:+ String sep after).
Proof.
  induction before as [| c before IH].
  - change (occurs sep (String sep after)). left. reflexivity.
  - change (occurs sep (String c (before +:+ String sep after))).
    right. exact IH.
Qed.

Lemma strings_Cut_None (sep : ascii) (s : string) :
  strings_Cut s sep = None <-> ~ occurs sep s.
Proof.
  destruct (strings_Cut s sep) as [[b a] |] eqn:Hcut.
  - split; [discriminate |]. intros Hno. exfalso. apply Hno.
    destruct (strings_Cut_Some sep s b a Hcut) as [-> _].
    apply occurs_append_sep.
  - split; [| reflexivity]. intros _. revert Hcut.
    induction s as [| c s IH]; simpl; [tauto |].
    destruct (Ascii.eqb c sep) eqn:Hc; [discriminate |].
    apply Ascii.eqb_neq in Hc.
    destruct (strings_Cut s sep) as [[b a] |]; [discriminate |].
    intros _ [H | H]; [contradiction | exact (IH eq_refl H)].
Qed.

(** X26.  A manifest line is skipped for want of a separator exactly when
    it holds no colon; otherwise the id is the text before the first colon
    and the rest of the line, further colons included, is the summary or
    the file name: joining the two pieces with a colon gives the line
    back. *)
Theorem manifest_line_split (line : string) :
  (no_separator line <-> ~ occurs ":" line) /\
  (forall s0 s1,
     strings_SplitN_2 line ":" = [s0; s1] ->
     line = s0 +:+ ":" +:+ s1 /\ ~ occurs ":" s0) /\
  (~ no_separator line -> exists s0 s1, strings_SplitN_2 line ":" = [s0; s1]).
Proof.
  unfold no_separator, strings_SplitN_2. split; [| split].
  - apply strings_Cut_None.
  - intros s0 s1.
    destruct (strings_Cut line ":") as [[b a] |] eqn:Hcut; [| discriminate].
    intros [= <- <-]. exact (strings_Cut_Some ":" line b a Hcut).
  - intros Hsep. destruct (strings_Cut line ":") as [[b a] |];
      [eauto | contradiction].
Qed.

Lemma digit_value_pretty (d : N) :
  (d < 10)%N -> digit_value (pretty_N_char d) = Some (Z.of_N d).
Proof.
  intros Hd.
  assert (H : (d = 0 \/ d = 1 \/ d = 2 \/ d = 3 \/ d = 4 \/ d = 5 \/ d = 6
               \/ d = 7 \/ d = 8 \/ d = 9)%N) by lia.
  repeat (destruct H as [-> | H]; [reflexivity |]). subst d. reflexivity.
Qed.

Lemma parse_digits_app (a b : string) :
  forall acc,
    parse_digits (a +:+ b) acc
    = match parse_digits a acc with
      | Some v => parse_digits b v
      | None => None
      end.
Proof.
  induction a as [| c a IH]; intros acc; [reflexivity |].
  rewrite append_cons. simpl. destruct (digit_value c); [apply IH | reflexivity].
Qed.

Lemma pretty_N_go_app (x : N) :
  forall s, pretty_N_go x s = pretty_N_go x EmptyString +:+ s.
Proof.
  induction (N.lt_wf_0 x) as [x _ IH]. intros s.
  destruct (N.eq_dec x 0%N) as [-> | Hx].
  - rewrite !pretty_N_go_0. reflexivity.
  - rewrite !(pretty_N_go_step x) by lia.
    assert (Hlt : (x `div` 10 < x)%N) by (apply N.div_lt; lia).
    rewrite (IH _ Hlt (String _ s)), (IH _ Hlt (String _ EmptyString)).
    rewrite append_assoc. reflexivity.
Qed.

Lemma parse_pretty_N_go (x : N) :
  parse_digits (pretty_N_go x EmptyString) 0 = Some (Z.of_N x).
Proof.
  induction (N.lt_wf_0 x) as [x _ IH].
  destruct (N.eq_dec x 0%N) as [-> | Hx]; [reflexivity |].
  rewrite (pretty_N_go_step x) by lia. rewrite pretty_N_go_app, parse_digits_app.
  rewrite IH by (apply N.div_lt; lia). simpl.
  rewrite digit_value_pretty by (apply N.mod_lt; lia).
  f_equal. rewrite (N.div_mod x 10) at 3 by lia. lia.
Qed.

Lemma pretty_N_go_head (x : N) :
  forall s, (0 < x)%N ->
    exists d rest, (d < 10)%N /\ pretty_N_go x s = String (pretty_N_char d) rest.
Proof.
  induction (N.lt_wf_0 x) as [x _ IH]. intros s Hx.
  rewrite pretty_N_go_step by exact Hx.
  destruct (N.eq_dec (x `div` 10)%N 0%N) as [Hq | Hq].
  - rewrite Hq, pretty_N_go_0. exists (x `mod` 10)%N, s.
    split; [apply N.mod_lt; lia | reflexivity].
  - apply IH; [apply N.div_lt; lia | apply N.neq_0_lt_0; exact Hq].
Qed.

Lemma strconv_Atoi_digits (d : N) (rest : string) :
  (d < 10)%N ->
  strconv_Atoi (String (pretty_N_char d) rest)
  = match parse_digits (String (pretty_N_char d) rest) 0 with
    | None => Err ErrSyntax
    | Some n =>
        if (- 2 ^ 63 <=? n) && (n <=? 2 ^ 63 - 1) then Ok n else Err ErrRange
    end.
Proof.
  intros Hd.
  assert (H : (d = 0 \/ d = 1 \/ d = 2 \/ d = 3 \/ d = 4 \/ d = 5 \/ d = 6
               \/ d = 7 \/ d = 8 \/ d = 9)%N) by lia.
  repeat (destruct H as [-> | H]; [reflexivity |]). subst d. reflexivity.
Qed.

(** X27.  The id round trip of [Init]: the decimal text [fmt.Sprintf]
    prints for a 64-bit integer, which names the content file, is read back
    by [strconv.Atoi] as that integer. *)
Theorem strconv_Atoi_fmt_d (n : Z) :
  - 2 ^ 63 <= n <= 2 ^ 63 - 1 ->
  strconv_Atoi (fmt_d n) = Ok n.
Proof.
  intros Hn. unfold fmt_d, pretty, pretty_Z.
  destruct n as [| p | p]; [reflexivity | |].
  - unfold pretty, pretty_positive, pretty, pretty_N.
    destruct (decide (N.pos p = 0%N)) as [H | _]; [discriminate H |].
    destruct (pretty_N_go_head (N.pos p) EmptyString ltac:(lia))
      as (d & rest & Hd & Heq).
    pose proof (parse_pretty_N_go (N.pos p)) as Hparse.
    rewrite Heq in Hparse |- *. rewrite (strconv_Atoi_digits d rest Hd), Hparse.
    replace (- 2 ^ 63 <=? Z.of_N (N.pos p)) with true
      by (symmetry; apply Z.leb_le; lia).
    replace (Z.of_N (N.pos p) <=? 2 ^ 63 - 1) with true
      by (symmetry; apply Z.leb_le; lia).
    reflexivity.
  - unfold pretty, pretty_positive, pretty, pretty_N.
    destruct (decide (N.pos p = 0%N)) as [H | _]; [discriminate H |].
    destruct (pretty_N_go_head (N.pos p) EmptyString ltac:(lia))
      as (d & rest & Hd & Heq).
    pose proof (parse_pretty_N_go (N.pos p)) as Hparse.
    rewrite Heq in Hparse |- *.
    change ("-" +:+ String (pretty_N_char d) rest)
      with (String "-" (String (pretty_N_char d) rest)).
    unfold strconv_Atoi. rewrite Hparse.
    replace (- 2 ^ 63 <=? - Z.of_N (N.pos p)) with true
      by (symmetry; apply Z.leb_le; lia).
    replace (- Z.of_N (N.pos p) <=? 2 ^ 63 - 1) with true
      by (symmetry; apply Z.leb_le; lia).
    reflexivity.
Qed.

(** * Further runs of the example installation *)

Lemma calcEmbeddings_calls_witness :
  calcEmbeddings Demo.cfg Demo.world []
  = ([], Return (Err (errors_New "input is empty"))) /\
  trace (calcEmbeddings Demo.cfg Demo.world ["q"])
  = [EvCreateEmbeddings (embedding_request Demo.cfg ["q"])].
Proof.
  split.
  - apply (proj1 (calcEmbeddings_calls Demo.cfg Demo.world [])). reflexivity.
  - apply (proj2 (calcEmbeddings_calls Demo.cfg Demo.world ["q"])). discriminate.
Defined.

Lemma findSimilar_returns_min_positions_witness :
  0 <= 5 /\ len [1; 0] = Z.min 5 (len Demo.corpus_vectors).
Proof.
  apply (findSimilar_returns_min_positions Demo.cfg Demo.world
           insertionSortCmpFunc "q" Demo.corpus_vectors 5 [1; 0]).
  vm_compute. reflexivity.
Defined.

Lemma findSimilar_prefix_witness :
  outcome (findSimilar Demo.cfg Demo.world insertionSortCmpFunc "q"
             Demo.corpus_vectors 1)
  = Return (Ok (take (Z.to_nat 1) [1; 0])).
Proof.
  apply (findSimilar_prefix Demo.cfg Demo.world insertionSortCmpFunc "q"
           Demo.corpus_vectors 1 2 [1; 0]).
  - vm_compute. reflexivity.
  - lia.
Defined.

Lemma findSimilar_negative_topN_panics_witness :
  outcome (findSimilar Demo.cfg Demo.world insertionSortCmpFunc "q"
             Demo.corpus_vectors (-1))
  = Panic "runtime error: makeslice: len out of range".
Proof.
  apply (findSimilar_negative_topN_panics Demo.cfg Demo.world
           insertionSortCmpFunc "q" Demo.corpus_vectors (-1) Demo.query_vector).
  - reflexivity.
  - vm_compute. reflexivity.
  - repeat constructor; vm_compute; reflexivity.
  - lia.
Defined.

Lemma findSimilar_names_first_zero_vector_witness :
  outcome (findSimilar Demo.cfg Demo.world insertionSortCmpFunc "q"
             ([Demo.vec [1; 1] 0] ++ Demo.vec [0; 0] 1 :: [Demo.vec [3; 0] 2]) 2)
  = Return (Err (errors_New
                   ("metric embedding " +:+ fmt_d (len [Demo.vec [1; 1] 0])
                      +:+ " is zero"))).
Proof.
  apply (findSimilar_names_first_zero_vector Demo.cfg Demo.world
           insertionSortCmpFunc "q" [Demo.vec [1; 1] 0] [Demo.vec [3; 0] 2]
           (Demo.vec [0; 0] 1) 2 Demo.query_vector).
  - reflexivity.
  - vm_compute. reflexivity.
  - repeat constructor; vm_compute; reflexivity.
  - vm_compute. reflexivity.
Defined.

Lemma findSimilar_dimension_mismatch_witness :
  outcome (findSimilar Demo.cfg Demo.world insertionSortCmpFunc "q"
             ([Demo.vec [1; 1] 0] ++ Demo.vec [1; 1; 1] 1 :: []) 2)
  = Return (Err openai.ErrVectorLengthMismatch).
Proof.
  apply (findSimilar_dimension_mismatch Demo.cfg Demo.world
           insertionSortCmpFunc "q" [Demo.vec [1; 1] 0] []
           (Demo.vec [1; 1; 1] 1) 2 Demo.query_vector).
  - reflexivity.
  - vm_compute. reflexivity.
  - repeat constructor; vm_compute; reflexivity.
  - vm_compute. reflexivity.
  - vm_compute. discriminate.
Defined.

Lemma cmpScore_NaN_not_strict_weak_witness :
  ~ StrictWeakOrdering cmpScore DemoVariants.scores_with_NaN.
Proof.
  apply (cmpScore_NaN_not_strict_weak DemoVariants.scores_with_NaN
           {| Score_Index := 0; Value := f32.of_Z 1 |}
           {| Score_Index := 1; Value := f32.of_Z 2 |}
           {| Score_Index := 2; Value := S754_nan |}).
  - left. reflexivity.
  - right. left. reflexivity.
  - right. right. left. reflexivity.
  - reflexivity.
  - vm_compute. reflexivity.
Defined.

Lemma rerank_succeeds_iff_witness :
  outcome (rerank Demo.cfg Demo.world "q" ["a"; "b"] 5)
  = Return (Ok {| Results :=
                    [ {| Index := 1; RelevanceScore := f32.of_Z 1 |};
                      {| Index := 0; RelevanceScore := f32.of_Z 1 |} ] |}).
Proof.
  apply (proj1 (rerank_succeeds_iff Demo.cfg Demo.world "q" ["a"; "b"] 5)).
  eexists. split; [reflexivity |]. split; reflexivity.
Defined.

Lemma RunRAG_propagates_errors_witness :
  RunRAG Demo.cfg Demo.world insertionSortCmpFunc
    {| allDocIds := ∅; allDocuments := []; allEmbeddings := [Demo.vec [0; 0] 0] |}
    "q"
  = ([EvCreateEmbeddings (embedding_request Demo.cfg ["q"])],
     Return (Err (errors_New "metric embedding 0 is zero"))).
Proof.
  apply (proj1 (RunRAG_propagates_errors Demo.cfg Demo.world insertionSortCmpFunc
                  {| allDocIds := ∅; allDocuments := [];
                     allEmbeddings := [Demo.vec [0; 0] 0] |} "q")).
  vm_compute. reflexivity.
Defined.

Lemma RunRAG_rerank_request_witness :
  Query (rerank_request Demo.cfg "q" ["report summary"; "invoice summary"]) = "q" /\
  Model (rerank_request Demo.cfg "q" ["report summary"; "invoice summary"])
  = ModelRerank Demo.cfg /\
  TopN (rerank_request Demo.cfg "q" ["report summary"; "invoice summary"])
  = TopRerank Demo.cfg /\
  Forall (fun s => exists doc, In doc (allDocuments Demo.loaded) /\ Summary doc = s)
         (Documents (rerank_request Demo.cfg "q"
                       ["report summary"; "invoice summary"])) /\
  len (Documents (rerank_request Demo.cfg "q"
                    ["report summary"; "invoice summary"]))
  = Z.min (TopEmb Demo.cfg) (len (allEmbeddings Demo.loaded)).
Proof.
  apply (RunRAG_rerank_request Demo.cfg Demo.world insertionSortCmpFunc
           Demo.loaded "q" (EmbBaseUrl Demo.cfg +:+ "/rerank")
           ("Bearer " +:+ EmbToken Demo.cfg)).
  vm_compute. right. left. reflexivity.
Defined.

Lemma RunRAG_context_witness :
  exists docs,
    outcome (RunRAG Demo.cfg Demo.world insertionSortCmpFunc Demo.loaded "q")
    = Return (Ok (context_of docs)) /\
    Forall2 (fun v doc =>
               exists docId,
                 at_index [9; 7] (Index v) = Some docId /\
                 at_index (allDocuments Demo.loaded)
                          (map_get (allDocIds Demo.loaded) docId) = Some doc)
            [ {| Index := 1; RelevanceScore := f32.of_Z 1 |};
              {| Index := 0; RelevanceScore := f32.of_Z 1 |} ]
            docs.
Proof.
  apply (RunRAG_context Demo.cfg Demo.world insertionSortCmpFunc Demo.loaded "q"
           [1; 0] [9; 7] ["report summary"; "invoice summary"]
           {| Results := [ {| Index := 1; RelevanceScore := f32.of_Z 1 |};
                           {| Index := 0; RelevanceScore := f32.of_Z 1 |} ] |}).
  - vm_compute. reflexivity.
  - vm_compute. reflexivity.
  - vm_compute. reflexivity.
  - constructor; [| constructor; [| constructor]];
      unfold out_of_range, len; simpl; lia.
  - intros docId pos. unfold Demo.loaded. simpl. rewrite lookup_insert.
    destruct (decide (9 = docId)) as [<- | _].
    + intros [= <-]. exists DemoVariants.report. split; reflexivity.
    + rewrite lookup_insert. destruct (decide (7 = docId)) as [<- | _].
      * intros [= <-]. exists DemoVariants.invoice. split; reflexivity.
      * rewrite lookup_empty. discriminate.
Defined.

Lemma Init_titles_last_line_wins_witness :
  Init_titles (["7:draft.doc"] ++ "7:invoice.pdf" :: ["9:report.docx"]) ∅ !! 7
  = Some (title_of "invoice.pdf").
Proof.
  apply (Init_titles_last_line_wins ["7:draft.doc"] ["9:report.docx"]
           "7:invoice.pdf" "7" "invoice.pdf" 7 ∅).
  - reflexivity.
  - reflexivity.
  - repeat constructor. intros (s0 & s1 & Hsplit & Hid).
    injection Hsplit as <- <-. discriminate Hid.
Defined.

Lemma title_of_prefix_witness :
  String.prefix (title_of "invoice.pdf") "invoice.pdf" = true /\
  title_of "notes.txt" = "notes.txt".
Proof.
  split.
  - apply (proj1 (title_of_prefix "invoice.pdf")).
  - apply (proj2 (title_of_prefix "notes.txt")).
    repeat constructor.
Defined.

Lemma main_startup_aligned_witness :
  allDocuments Demo.loaded <> [] /\
  len (allEmbeddings Demo.loaded) = len (allDocuments Demo.loaded) /\
  CreateEmbeddings Demo.world
    (embedding_request Demo.cfg (map Summary (allDocuments Demo.loaded)))
  = Ok (allEmbeddings Demo.loaded) /\
  ids_indexed Demo.loaded /\
  Forall (fun doc => is_Some (allDocIds Demo.loaded !! DocId doc))
         (allDocuments Demo.loaded).
Proof.
  apply (main_startup_aligned Demo.cfg Demo.world Demo.loaded).
  vm_compute. reflexivity.
Defined.

Lemma Init_empty_manifest_fails_witness :
  Init Demo.cfg DemoVariants.with_blank_manifest initial_globals
  = ([EvReadFile (files_path Demo.cfg); EvOpen (SummaryFile Demo.cfg)],
     Return (Some (errors_New "input is empty"),
             globals (scan_start initial_globals))).
Proof.
  apply (Init_empty_manifest_fails Demo.cfg DemoVariants.with_blank_manifest
           initial_globals
           (Init_titles (strings_Split Demo.titles_manifest "010") ∅)
           ("no separator here" +:+ newline +:+ newline)).
  - reflexivity.
  - reflexivity.
  - repeat constructor.
Defined.



Lemma chatApiHandler_system_only_witness :
  exists rest,
    trace (chatApiHandler Demo.cfg Demo.world insertionSortCmpFunc Demo.loaded
             (Ok DemoVariants.system_only_request))
    = EvCreateChatCompletion 60
        (summarize_request Demo.cfg DemoVariants.system_only_request) :: rest /\
    openai.Messages (summarize_request Demo.cfg DemoVariants.system_only_request)
    = [ {| openai.Role := openai.ChatMessageRoleSystem;
           openai.Content := summarize_instruction |};
        {| openai.Role := openai.ChatMessageRoleUser;
           openai.Content := EmptyString |} ].
Proof.
  apply (chatApiHandler_system_only Demo.cfg Demo.world insertionSortCmpFunc
           Demo.loaded DemoVariants.system_only_request).
  - discriminate.
  - repeat constructor.
Defined.

Lemma chatApiHandler_empty_choices_panic_witness :
  chatApiHandler Demo.cfg
    (DemoVariants.with_chat (Ok {| openai.Choices := [] |}))
    insertionSortCmpFunc Demo.loaded (Ok Demo.request)
  = ([EvCreateChatCompletion 60 (summarize_request Demo.cfg Demo.request)],
     Panic "runtime error: index out of range").
Proof.
  apply (chatApiHandler_empty_choices_panic Demo.cfg
           (DemoVariants.with_chat (Ok {| openai.Choices := [] |}))
           insertionSortCmpFunc Demo.loaded Demo.request
           {| openai.Choices := [] |}).
  - discriminate.
  - reflexivity.
  - reflexivity.
Defined.

Lemma chatApiHandler_failure_before_stream_witness :
  outcome (chatApiHandler Demo.cfg
             (DemoVariants.with_chat (Err (errors_New "model overloaded")))
             insertionSortCmpFunc Demo.loaded (Ok Demo.request))
  = Return tt /\
  error_responses
    (trace (chatApiHandler Demo.cfg
              (DemoVariants.with_chat (Err (errors_New "model overloaded")))
              insertionSortCmpFunc Demo.loaded (Ok Demo.request)))
  = [(http_StatusInternalServerError, "model overloaded")] /\
  Forall (fun ev => ~ touches_response ev)
    (trace (chatApiHandler Demo.cfg
              (DemoVariants.with_chat (Err (errors_New "model overloaded")))
              insertionSortCmpFunc Demo.loaded (Ok Demo.request))).
Proof.
  apply (chatApiHandler_failure_before_stream Demo.cfg
           (DemoVariants.with_chat (Err (errors_New "model overloaded")))
           insertionSortCmpFunc Demo.loaded Demo.request
           (errors_New "model overloaded")).
  - discriminate.
  - left. reflexivity.
Defined.

Lemma chatApiHandler_stream_call_inv_witness :
  300 = 300 /\
  exists response choice others result,
    CreateChatCompletion Demo.world (summarize_request Demo.cfg Demo.request)
    = Ok response /\
    openai.Choices response = choice :: others /\
    outcome (RunRAG Demo.cfg Demo.world insertionSortCmpFunc Demo.loaded
               (openai.Content (openai.Message choice))) = Return (Ok result) /\
    answer_request Demo.cfg Demo.request "What is X?" Demo.context
    = answer_request Demo.cfg Demo.request
        (openai.Content (openai.Message choice)) result.
Proof.
  apply (chatApiHandler_stream_call_inv Demo.cfg Demo.world insertionSortCmpFunc
           Demo.loaded Demo.request 300
           (answer_request Demo.cfg Demo.request "What is X?" Demo.context)).
  vm_compute. do 3 right. left. reflexivity.
Defined.

Lemma chatApiHandler_body_on_end_of_stream_witness :
  outcome (chatApiHandler Demo.cfg Demo.world insertionSortCmpFunc Demo.loaded
             (Ok Demo.request)) = Return tt /\
  written (trace (chatApiHandler Demo.cfg Demo.world insertionSortCmpFunc
                    Demo.loaded (Ok Demo.request)))
  = sse_frames (openai.frames Demo.good_stream) +:+ done_frame /\
  error_responses (trace (chatApiHandler Demo.cfg Demo.world insertionSortCmpFunc
                            Demo.loaded (Ok Demo.request))) = [].
Proof.
  apply (chatApiHandler_body_on_end_of_stream Demo.cfg Demo.world
           insertionSortCmpFunc Demo.loaded Demo.request
           (Demo.chat_answer "What is X?")
           {| openai.Message := {| openai.Role := "assistant";
                                   openai.Content := "What is X?" |} |}
           [] Demo.context Demo.good_stream).
  - discriminate.
  - reflexivity.
  - reflexivity.
  - vm_compute. reflexivity.
  - reflexivity.
  - reflexivity.
Defined.

Lemma Handler_result_witness :
  outcome (Handler Demo.cfg Demo.world insertionSortCmpFunc Demo.loaded
             (Ok {| Question := "What is X?" |}))
  = Return (Some Demo.context).
Proof.
  apply (proj2 (Handler_result Demo.cfg Demo.world insertionSortCmpFunc
                  Demo.loaded (Ok {| Question := "What is X?" |}))
           {| Question := "What is X?" |} eq_refl).
  vm_compute. reflexivity.
Defined.

Lemma manifest_line_split_witness :
  "7:a:b" = "7" +:+ ":" +:+ "a:b" /\ ~ occurs ":" "7".
Proof.
  apply (proj1 (proj2 (manifest_line_split "7:a:b")) "7" "a:b"). reflexivity.
Defined.

Lemma strconv_Atoi_fmt_d_witness : strconv_Atoi (fmt_d (-42)) = Ok (-42).
Proof. apply (strconv_Atoi_fmt_d (-42)). lia. Defined.
